(** * Zephyr kernel primitives and the STM32 Ethernet HAL driver

    A shallow embedding of
    - the kernel objects used by the timing benchmarks
      ([tests/benchmarks/timing_info/src/semaphore_bench.c],
      [msg_passing_bench.c]): semaphore, mutex, message queue;
    - the driver [drivers/ethernet/eth_stm32_hal.c]: [eth_tx], [eth_rx],
      [rx_thread], [eth_isr], [HAL_ETH_RxCpltCallback], [eth_initialize].

    The kernel objects live in [kernel/] of the tree, which is not part of
    the sources at hand; their operations are modelled from the design
    document (sections 3, 4.1, 4.3, 4.4, 4.5).  The driver is modelled from
    its C source: calls into the kernel, the HAL and the network stack are
    recorded as events, and everything the hardware or another subsystem
    decides is an explicit input. *)

From Stdlib Require Import ZArith NArith List Bool Lia.
From stdpp Require Import base numbers option list gmap.

Set Default Proof Using "Type".
Open Scope Z_scope.

(** ** Shared vocabulary *)

(** Thread identifiers (arena indices, design note 9). *)
Definition tid := nat.

(** The duration argument of a blocking call: "no-wait", "forever", or a
    finite wait. *)
Inductive k_timeout_t : Type :=
| K_NO_WAIT
| K_FOREVER
| K_MSEC (ms : N).

(** Results handed back to callers (section 7). *)
Inductive status : Type :=
| SUCCESS
| WOULD_BLOCK
| TIMEOUT
| LIMIT_EXCEEDED
| NOT_OWNER
| NO_MSG.

(** What a primitive call does to its caller: it returns at once with a
    status, or the caller is put on the object's wait queue.  [Pend t]
    carries the wait that was requested: [K_FOREVER] arms no timeout entry,
    [K_MSEC n] arms one. *)
Inductive outcome : Type :=
| Return (rc : status)
| Pend (t : k_timeout_t).

Definition blocks (o : outcome) : bool :=
  match o with Return _ => false | Pend _ => true end.

Definition arms_timeout (o : outcome) : bool :=
  match o with Pend (K_MSEC _) => true | _ => false end.

(** ** Semaphore (section 4.3) *)

Module Sem.

(** Modelled from the spec: the semaphore object and its [take]/[give]
    (kernel/sem.c is not among the sources).  A non-negative counter, the
    configured maximum, and a FIFO wait queue. *)
Record k_sem : Type := mk_sem {
  count : N;
  limit : N;
  wait_q : list tid
}.

(** Modelled from the spec: [K_SEM_DEFINE(name, initial, limit)] and
    [k_sem_init(sem, initial, limit)] give a semaphore with that counter
    and maximum and nobody waiting. *)
Definition K_SEM_DEFINE (initial_count count_limit : N) : k_sem :=
  {| count := initial_count; limit := count_limit; wait_q := [] |}.

Definition sem_bench : k_sem := K_SEM_DEFINE 0 1.
Definition sem_bench_1 : k_sem := K_SEM_DEFINE 0 1.
Definition mbox_sem : k_sem := K_SEM_DEFINE 1 1.

(** Invariant of section 3: if the counter is positive nobody waits. *)
Definition sem_inv (s : k_sem) : Prop :=
  count s = 0%N \/ wait_q s = [].

Inductive take_effect : Type :=
| Taken                       (* counter was positive: decremented *)
| Refused                     (* counter 0 and "no-wait" *)
| Queued (t : k_timeout_t).   (* counter 0: caller appended to the wait queue *)

Inductive give_effect : Type :=
| Handed_off (waiter : tid)   (* head waiter woken, counter untouched *)
| Incremented
| At_limit.                   (* counter already at its maximum *)

(** Modelled from the spec: "if counter > 0, decrement and return success
    immediately; else block the calling thread on the Wait Queue for up to
    duration (immediate failure WOULD_BLOCK if duration is no-wait)". *)
Definition k_sem_take (caller : tid) (t : k_timeout_t) (s : k_sem)
  : take_effect * k_sem :=
  if (0 <? count s)%N then
    (Taken, {| count := count s - 1; limit := limit s; wait_q := wait_q s |})
  else
    match t with
    | K_NO_WAIT => (Refused, s)
    | _ => (Queued t,
            {| count := count s; limit := limit s;
               wait_q := wait_q s ++ [caller] |})
    end.

(** Modelled from the spec: "if the Wait Queue is non-empty, wake the head
    waiter directly; else increment counter (with a configurable maximum)".
    At the maximum the counter is left alone under either policy. *)
Definition k_sem_give (s : k_sem) : give_effect * k_sem :=
  match wait_q s with
  | w :: rest =>
      (Handed_off w, {| count := count s; limit := limit s; wait_q := rest |})
  | [] =>
      if (count s <? limit s)%N then
        (Incremented,
         {| count := count s + 1; limit := limit s; wait_q := [] |})
      else (At_limit, s)
  end.

Definition take_outcome (e : take_effect) : outcome :=
  match e with
  | Taken => Return SUCCESS
  | Refused => Return WOULD_BLOCK
  | Queued t => Pend t
  end.

(** The spec leaves the status of a [give] at the maximum to the
    implementation ("fails with LIMIT_EXCEEDED or saturates"). *)
Inductive limit_policy : Type := Saturate | Fail.

Definition give_status (p : limit_policy) (e : give_effect) : status :=
  match e, p with
  | At_limit, Fail => LIMIT_EXCEEDED
  | _, _ => SUCCESS
  end.

Definition give_outcome (p : limit_policy) (e : give_effect) : outcome :=
  Return (give_status p e).

(** A replayed operation and what it did. *)
Inductive op : Type :=
| Take (caller : tid) (t : k_timeout_t)
| Give.

Inductive effect : Type :=
| TakeE (e : take_effect)
| GiveE (e : give_effect).

Definition step (o : op) (s : k_sem) : effect * k_sem :=
  match o with
  | Take c t => let '(e, s') := k_sem_take c t s in (TakeE e, s')
  | Give => let '(e, s') := k_sem_give s in (GiveE e, s')
  end.

(** Replaying a sequence of calls.  No tick is part of a replay, so a
    taker that was queued stays queued until a give reaches it. *)
Fixpoint replay (ops : list op) (s : k_sem) : list effect * k_sem :=
  match ops with
  | [] => ([], s)
  | o :: rest =>
      let '(e, s1) := step o s in
      let '(es, s2) := replay rest s1 in
      (e :: es, s2)
  end.

(** Number of [give]s and of [take]s issued. *)
Definition is_give (o : op) : bool :=
  match o with Give => true | Take _ _ => false end.

Definition gives (ops : list op) : Z :=
  Z.of_nat (length (List.filter is_give ops)).

Definition takes (ops : list op) : Z :=
  Z.of_nat (length (List.filter (fun o => negb (is_give o)) ops)).

(** The change of "counter minus number of waiters" an operation made:
    a [give] dropped at the maximum and a [take] refused with "no-wait"
    leave no mark. *)
Definition delta (e : effect) : Z :=
  match e with
  | GiveE At_limit => 0
  | GiveE _ => 1
  | TakeE Refused => 0
  | TakeE _ => -1
  end.

Definition balance (es : list effect) : Z :=
  foldr (fun e acc => delta e + acc) 0 es.

(** Operations that left their mark on the semaphore. *)
Definition effective (e : effect) : bool :=
  match e with
  | GiveE At_limit | TakeE Refused => false
  | _ => true
  end.

(** Counter minus number of waiters. *)
Definition level (s : k_sem) : Z :=
  Z.of_N (count s) - Z.of_nat (length (wait_q s)).

(** The counter the testable property of section 8 predicts. *)
Definition predicted_count (ops : list op) : Z :=
  Z.max 0 (gives ops - takes ops).

(** *** Waits that time out *)

(** Modelled from the spec: the timeout side of a wait (sections 4.1 and
    4.3; kernel/timeout.c is not among the sources either).  A taker that
    blocks brings its duration along: a finite one arms a timeout,
    "forever" arms none.  [durations] holds the duration of every thread of
    the wait queue, in queue order. *)
Record timed_sem : Type := mk_timed {
  sem : k_sem;
  durations : list k_timeout_t
}.

(** A semaphore as [K_SEM_DEFINE] leaves it; threads already queued are
    taken to wait forever. *)
Definition start (s : k_sem) : timed_sem :=
  {| sem := s; durations := map (fun _ => K_FOREVER) (wait_q s) |}.

Definition is_finite (t : k_timeout_t) : bool :=
  match t with K_MSEC _ => true | _ => false end.


Definition timeout_eqb (a b : k_timeout_t) : bool :=
  match a, b with
  | K_NO_WAIT, K_NO_WAIT => true
  | K_FOREVER, K_FOREVER => true
  | K_MSEC x, K_MSEC y => (x =? y)%N
  | _, _ => false
  end.

(** Modelled from the spec: "for every entry whose expiry <= now, removes
    it and invokes its completion (for a Thread: move from WAITING to
    RUNNABLE with a timeout error code)".  The first wait of [w] with a
    finite duration leaves the queue; [None] when [w] has no timeout
    armed on this semaphore. *)
Fixpoint expire (w : tid) (q : list tid) (ds : list k_timeout_t)
  : option (list tid * list k_timeout_t) :=
  match q, ds with
  | x :: q', d :: ds' =>
      if (x =? w)%nat && is_finite d then Some (q', ds')
      else
        match expire w q' ds' with
        | Some (q2, ds2) => Some (x :: q2, d :: ds2)
        | None => None
        end
  | _, _ => None
  end.


(** What a replay is made of: the calls, and the tick handler finding the
    timeout of a thread expired. *)
Inductive input : Type :=
| Call (o : op)
| Timeout_of (w : tid).

Inductive mark : Type :=
| Did (e : effect)
| Timed_out (w : tid)         (* [w] leaves the queue; its take returns TIMEOUT *)
| No_timeout (w : tid).       (* nothing armed for [w]: nothing happens *)

Definition tstep (i : input) (st : timed_sem) : mark * timed_sem :=
  match i with
  | Call (Take c t) =>
      let '(e, s') := k_sem_take c t (sem st) in
      (Did (TakeE e),
       {| sem := s';
          durations := match e with
                       | Queued d => durations st ++ [d]
                       | _ => durations st
                       end |})
  | Call Give =>
      let '(e, s') := k_sem_give (sem st) in
      (Did (GiveE e),
       {| sem := s';
          durations := match e with
                       | Handed_off _ => tail (durations st)   (* disarmed *)
                       | _ => durations st
                       end |})
  | Timeout_of w =>
      match expire w (wait_q (sem st)) (durations st) with
      | Some (q, ds) =>
          (Timed_out w,
           {| sem := {| count := count (sem st); limit := limit (sem st);
                        wait_q := q |};
              durations := ds |})
      | None => (No_timeout w, st)
      end
  end.

(** The status a mark delivers, and to whom: the waiter a give wakes gets
    success, the waiter whose timeout fires gets TIMEOUT. *)
Definition wakes (m : mark) : option (tid * status) :=
  match m with
  | Did (GiveE (Handed_off w)) => Some (w, SUCCESS)
  | Timed_out w => Some (w, TIMEOUT)
  | _ => None
  end.

(** One line of the log of a replay: the semaphore before the input, the
    input, and what it did. *)
Record entry : Type := mk_entry {
  before : timed_sem;
  what : input;
  did : mark
}.

Fixpoint run (ins : list input) (st : timed_sem) : list entry * timed_sem :=
  match ins with
  | [] => ([], st)
  | i :: rest =>
      let '(m, st1) := tstep i st in
      let '(log, st2) := run rest st1 in
      (mk_entry st i m :: log, st2)
  end.









End Sem.

(** ** Mutex with priority inheritance (section 4.4) *)

Module Mutex.

(** Modelled from the spec: the mutex object (kernel/mutex.c is not among
    the sources).  An optional owner, the recursive-lock depth, the owner's
    priority saved for restoration, and a wait queue kept in priority
    order (lower value = more urgent). *)
Record k_mutex : Type := mk_mutex {
  owner : option tid;
  lock_count : nat;
  owner_orig_prio : Z;
  wait_q : list tid
}.

(** The part of the kernel context a mutex call touches: the effective
    priority of every thread, and the mutex.  One mutex is modelled, so
    the priority to restore is the saved one and inheritance does not
    propagate through other mutexes. *)
Record state : Type := mk_state {
  prio : tid -> Z;
  mutex : k_mutex
}.

(** Modelled from the spec: [K_MUTEX_DEFINE] / [k_mutex_init] give an
    unowned mutex (depth 0, empty wait queue). *)
Definition K_MUTEX_DEFINE : k_mutex :=
  {| owner := None; lock_count := 0; owner_orig_prio := 0; wait_q := [] |}.

Definition set_prio (p : tid -> Z) (t : tid) (v : Z) : tid -> Z :=
  fun x => if Nat.eqb x t then v else p x.

(** Insert a waiter behind every waiter that is at least as urgent. *)
Fixpoint enqueue_by_prio (p : tid -> Z) (t : tid) (q : list tid) : list tid :=
  match q with
  | [] => [t]
  | w :: rest =>
      if p t <? p w then t :: w :: rest
      else w :: enqueue_by_prio p t rest
  end.

(** Modelled from the spec: "if unowned, set owner = caller, depth = 1,
    save caller's priority, return success.  If owned by the caller,
    increment depth, return success.  If owned by another thread, raise
    that owner's effective priority to at least the caller's, enqueue
    caller in priority order, block for duration" ("no-wait" fails at once
    with WOULD_BLOCK, section 4.1). *)
Definition k_mutex_lock (caller : tid) (t : k_timeout_t) (s : state)
  : outcome * state :=
  let m := mutex s in
  match owner m with
  | None =>
      (Return SUCCESS,
       {| prio := prio s;
          mutex := {| owner := Some caller; lock_count := 1;
                      owner_orig_prio := prio s caller;
                      wait_q := wait_q m |} |})
  | Some o =>
      if Nat.eqb o caller then
        (Return SUCCESS,
         {| prio := prio s;
            mutex := {| owner := Some o; lock_count := S (lock_count m);
                        owner_orig_prio := owner_orig_prio m;
                        wait_q := wait_q m |} |})
      else
        match t with
        | K_NO_WAIT => (Return WOULD_BLOCK, s)
        | _ =>
            let p' := if prio s caller <? prio s o
                      then set_prio (prio s) o (prio s caller)
                      else prio s in
            (Pend t,
             {| prio := p';
                mutex := {| owner := Some o; lock_count := lock_count m;
                            owner_orig_prio := owner_orig_prio m;
                            wait_q := enqueue_by_prio (prio s) caller (wait_q m) |} |})
        end
  end.

(** Modelled from the spec: "fails if caller is not the owner.  Decrements
    depth; at depth 0, restores the owner's priority to its pre-inheritance
    value, and if the Wait Queue is non-empty, transfers ownership directly
    to the most urgent waiter".  The second component names the thread the
    mutex was handed to, if any. *)
Definition k_mutex_unlock (caller : tid) (s : state)
  : status * option tid * state :=
  let m := mutex s in
  match owner m with
  | None => (NOT_OWNER, None, s)
  | Some o =>
      if negb (Nat.eqb o caller) then (NOT_OWNER, None, s)
      else
        match lock_count m with
        | S (S d) =>
            (SUCCESS, None,
             {| prio := prio s;
                mutex := {| owner := Some o; lock_count := S d;
                            owner_orig_prio := owner_orig_prio m;
                            wait_q := wait_q m |} |})
        | _ =>
            let p' := set_prio (prio s) o (owner_orig_prio m) in
            match wait_q m with
            | [] =>
                (SUCCESS, None,
                 {| prio := p';
                    mutex := {| owner := None; lock_count := 0;
                                owner_orig_prio := owner_orig_prio m;
                                wait_q := [] |} |})
            | w :: rest =>
                (SUCCESS, Some w,
                 {| prio := p';
                    mutex := {| owner := Some w; lock_count := 1;
                                owner_orig_prio := p' w;
                                wait_q := rest |} |})
            end
        end
  end.

(** The state in which thread [t] holds the mutex at depth [k]. *)
Definition owned_by (p : tid -> Z) (t : tid) (k : nat) (saved : Z)
    (q : list tid) : state :=
  {| prio := p;
     mutex := {| owner := Some t; lock_count := k;
                 owner_orig_prio := saved; wait_q := q |} |}.

(** A thread issuing the same call [n] times in a row; the statuses it got
    back are collected in call order. *)
Fixpoint lock_n (n : nat) (caller : tid) (t : k_timeout_t) (s : state)
  : list outcome * state :=
  match n with
  | O => ([], s)
  | S k =>
      let '(o, s1) := k_mutex_lock caller t s in
      let '(os, s2) := lock_n k caller t s1 in
      (o :: os, s2)
  end.

Fixpoint unlock_n (n : nat) (caller : tid) (s : state)
  : list status * state :=
  match n with
  | O => ([], s)
  | S k =>
      let '(r, _, s1) := k_mutex_unlock caller s in
      let '(rs, s2) := unlock_n k caller s1 in
      (r :: rs, s2)
  end.

End Mutex.

(** ** Message queue (section 4.5) *)

Module Msgq.

(** The benchmarks exchange [int]s. *)
Definition msg := Z.

(** Modelled from the spec: the message queue object (kernel/msg_q.c is
    not among the sources).  A ring buffer of [max_msgs] slots with its
    read and write positions, the number of used slots, and the two wait
    queues (producers waiting on full, consumers waiting on empty). *)
Record k_msgq : Type := mk_msgq {
  max_msgs : nat;
  buffer : list msg;
  read_idx : nat;
  write_idx : nat;
  used_msgs : nat;
  put_wait_q : list tid;
  get_wait_q : list tid
}.

(** Modelled from the spec: [K_MSGQ_DEFINE(name, msg_size, max_msgs,
    align)] gives an empty queue of fixed capacity. *)
Definition K_MSGQ_DEFINE (capacity : nat) : k_msgq :=
  {| max_msgs := capacity; buffer := replicate capacity 0;
     read_idx := 0; write_idx := 0; used_msgs := 0;
     put_wait_q := []; get_wait_q := [] |}.

Definition benchmark_q : k_msgq := K_MSGQ_DEFINE 10.
Definition benchmark_q_get : k_msgq := K_MSGQ_DEFINE 3.

Definition slot (q : k_msgq) (i : nat) : msg :=
  default 0 (buffer q !! i).

(** Modelled from the spec: "if count < capacity, copy the fixed-size
    message into the ring buffer, increment count, wake one consumer waiter
    if present, return success.  Else block (subject to duration) on the
    producer Wait Queue"; with "no-wait" the call fails at once with
    WOULD_BLOCK and registers nothing (sections 4.1 and 8).  The second
    component is the consumer that was woken, if any. *)
Definition k_msgq_put (caller : tid) (m : msg) (t : k_timeout_t) (q : k_msgq)
  : outcome * option tid * k_msgq :=
  if (used_msgs q <? max_msgs q)%nat then
    (Return SUCCESS, head (get_wait_q q),
     {| max_msgs := max_msgs q;
        buffer := <[write_idx q := m]> (buffer q);
        read_idx := read_idx q;
        write_idx := (write_idx q + 1) mod max_msgs q;
        used_msgs := S (used_msgs q);
        put_wait_q := put_wait_q q;
        get_wait_q := tail (get_wait_q q) |})
  else
    match t with
    | K_NO_WAIT => (Return WOULD_BLOCK, None, q)
    | _ =>
        (Pend t, None,
         {| max_msgs := max_msgs q; buffer := buffer q;
            read_idx := read_idx q; write_idx := write_idx q;
            used_msgs := used_msgs q;
            put_wait_q := put_wait_q q ++ [caller];
            get_wait_q := get_wait_q q |})
    end.

(** Modelled from the spec: "symmetric - if count > 0, pop, decrement,
    wake one producer waiter, return success; else block on the consumer
    Wait Queue"; a non-blocking receive that finds nothing returns
    [-ENOMSG] (section 6).  The components are: what happens to the
    caller, the message received, the producer woken. *)
Definition k_msgq_get (caller : tid) (t : k_timeout_t) (q : k_msgq)
  : outcome * option msg * option tid * k_msgq :=
  if (0 <? used_msgs q)%nat then
    (Return SUCCESS, Some (slot q (read_idx q)), head (put_wait_q q),
     {| max_msgs := max_msgs q; buffer := buffer q;
        read_idx := (read_idx q + 1) mod max_msgs q;
        write_idx := write_idx q;
        used_msgs := pred (used_msgs q);
        put_wait_q := tail (put_wait_q q);
        get_wait_q := get_wait_q q |})
  else
    match t with
    | K_NO_WAIT => (Return NO_MSG, None, None, q)
    | _ =>
        (Pend t, None, None,
         {| max_msgs := max_msgs q; buffer := buffer q;
            read_idx := read_idx q; write_idx := write_idx q;
            used_msgs := used_msgs q;
            put_wait_q := put_wait_q q;
            get_wait_q := get_wait_q q ++ [caller] |})
    end.

(** Structural invariant of the ring (section 3: 0 <= count <= capacity). *)
Definition msgq_wf (q : k_msgq) : Prop :=
  length (buffer q) = max_msgs q
  /\ (read_idx q < max_msgs q)%nat
  /\ write_idx q = ((read_idx q + used_msgs q) mod max_msgs q)%nat
  /\ (used_msgs q <= max_msgs q)%nat.

(** The queued messages, oldest first. *)
Definition contents (q : k_msgq) : list msg :=
  map (fun i => slot q ((read_idx q + i) mod max_msgs q)) (seq 0 (used_msgs q)).

(** A producer putting [ms] one after the other, each put completing
    (returning success) before the next begins; [None] as soon as a put
    does not complete. *)
Fixpoint put_all (caller : tid) (t : k_timeout_t) (ms : list msg) (q : k_msgq)
  : option k_msgq :=
  match ms with
  | [] => Some q
  | m :: rest =>
      match k_msgq_put caller m t q with
      | (Return SUCCESS, _, q') => put_all caller t rest q'
      | _ => None
      end
  end.

(** [n] successive gets and what each returned. *)
Fixpoint get_n (n : nat) (caller : tid) (t : k_timeout_t) (q : k_msgq)
  : list (outcome * option msg) * k_msgq :=
  match n with
  | O => ([], q)
  | S k =>
      let '(o, m, _, q1) := k_msgq_get caller t q in
      let '(rs, q2) := get_n k caller t q1 in
      ((o, m) :: rs, q2)
  end.

(** Puts and gets in any order.  The result lists the messages the puts
    stored and the messages the gets handed out, each in call order. *)
Inductive op : Type :=
| Put (caller : tid) (m : msg) (t : k_timeout_t)
| Get (caller : tid) (t : k_timeout_t).

Fixpoint run (ops : list op) (q : k_msgq) : list msg * list msg * k_msgq :=
  match ops with
  | [] => ([], [], q)
  | Put c m t :: rest =>
      let '(o, _, q1) := k_msgq_put c m t q in
      let '(ins, outs, q2) := run rest q1 in
      (match o with Return SUCCESS => m :: ins | _ => ins end, outs, q2)
  | Get c t :: rest =>
      let '(_, r, _, q1) := k_msgq_get c t q in
      let '(ins, outs, q2) := run rest q1 in
      (ins, match r with Some m => m :: outs | None => outs end, q2)
  end.

End Msgq.

(** ** The STM32 Ethernet driver (drivers/ethernet/eth_stm32_hal.c) *)

Module Eth.

(** Compile-time configuration: the [CONFIG_*] switches the source
    branches on, and the sizes that come from the HAL and Kconfig
    headers. *)
Record config : Type := mk_config {
  CONFIG_SOC_SERIES_STM32H7X : bool;
  CONFIG_NET_VLAN : bool;
  CONFIG_ETH_STM32_HAL_RANDOM_MAC : bool;
  CONFIG_NET_L2_CANBUS_ETH_TRANSLATOR : bool;
  ETH_TX_BUF_SIZE : Z;
  ETH_RX_DESC_CNT : nat;
  CONFIG_ETH_STM32_CARRIER_CHECK_RX_IDLE_TIMEOUT_MS : N
}.

Inductive HAL_StatusTypeDef : Type :=
| HAL_OK
| HAL_ERROR
| HAL_BUSY
| HAL_TIMEOUT.

Definition is_HAL_OK (r : HAL_StatusTypeDef) : bool :=
  match r with HAL_OK => true | _ => false end.

Definition is_HAL_TIMEOUT (r : HAL_StatusTypeDef) : bool :=
  match r with HAL_TIMEOUT => true | _ => false end.

(** errno.h *)
Definition EIO : Z := 5.
Definition EAGAIN : Z := 11.
Definition EINVAL : Z := 22.

Definition UINT_MAX : N := 4294967295.

(** Register and descriptor bits (STM32 HAL headers; [PHY_*] as in the
    source).  The OWN bit is bit 31 of the descriptor's status word. *)
Definition ETH_DMATXDESC_OWN : Z := 0x80000000.
Definition ETH_DMARXDESC_OWN : Z := 0x80000000.
Definition ETH_DMASR_TUS : Z := 0x20.
Definition ETH_DMASR_RBUS : Z := 0x80.
Definition PHY_BSR : Z := 0x0001.
Definition PHY_LINKED_STATUS : Z := 0x0004.

(** Kernel objects embedded in [struct eth_stm32_hal_dev_data]. *)
Inductive kobj : Type :=
| tx_mutex
| rx_int_sem
| rx_thread_data.     (* the [struct k_thread rx_thread] member *)

Inductive thread_entry : Type :=
| entry_rx_thread.

(** Calls into the kernel. *)
Inductive kcall : Type :=
| k_mutex_init (m : kobj)
| k_mutex_lock (m : kobj) (t : k_timeout_t)
| k_mutex_unlock (m : kobj)
| k_sem_init (s : kobj) (initial_count limit : N)
| k_sem_take (s : kobj) (t : k_timeout_t)
| k_sem_give (s : kobj)
| k_thread_create (th : kobj) (entry : thread_entry) (delay : k_timeout_t)
| k_yield
| k_sleep (t : k_timeout_t).

(** Accesses to the DMA descriptors, the DMA buffers and the MAC's DMA
    registers. *)
Inductive hw_access : Type :=
| tx_desc_read                  (* a field of the first TX descriptor *)
| tx_buffer_write (len : Z)     (* net_pkt_read() into the TX DMA buffer *)
| DMASR_read
| DMASR_write (v : Z)
| DMATPDR_write (v : Z).

(** Calls into the vendor HAL. *)
Inductive hal_call : Type :=
| HAL_ETH_Init
| HAL_ETH_Start
| HAL_ETH_Start_IT
| HAL_ETH_DescAssignMemory (i : nat)
| HAL_ETH_DMATxDescListInit
| HAL_ETH_DMARxDescListInit
| HAL_ETH_TransmitFrame (len : Z)
| HAL_ETH_Transmit (len : Z)
| HAL_ETH_ReadPHYRegister (reg : Z)
| HAL_ETH_IRQHandler
| HAL_ETH_SetMDIOClockRange
| HAL_ETH_GetMACConfig
| HAL_ETH_SetMACConfig
| HAL_ETH_GetMACFilterConfig
| HAL_ETH_SetMACFilterConfig
| MACFFR_update.

(** Calls into the network stack, the clock driver and the driver's own
    receive routine. *)
Inductive sys_call : Type :=
| device_get_binding
| clock_control_on
| generate_mac
| set_mac_to_translator_addr
| enable_canbus_eth_translator_filter
| net_pkt_get_len
| net_eth_carrier_on
| net_eth_carrier_off
| eth_rx_returned (got_packet : bool)
| net_recv_data (res : Z)
| eth_stats_update_errors_rx
| net_pkt_unref
| LOG_ERR
| LOG_DBG.

Inductive event : Type :=
| Kernel (c : kcall)
| Hw (a : hw_access)
| Hal (c : hal_call)
| Sys (c : sys_call).

Definition lock_tx : event := Kernel (k_mutex_lock tx_mutex K_FOREVER).
Definition unlock_tx : event := Kernel (k_mutex_unlock tx_mutex).

(** *** eth_tx *)

(** What the packet, the DMA engine and the HAL answer during one call:
    the packet length, the successive values of the status word of the first
    TX descriptor ([Status], [DESC3] on H7X) as the polling loop reads them,
    the result of [net_pkt_read], of the HAL transmit call, and the DMA
    status register read afterwards. *)
Record tx_env : Type := mk_tx_env {
  total_len : Z;
  tx_desc_status : list Z;
  net_pkt_read_rc : Z;
  hal_transmit_ret : HAL_StatusTypeDef;
  tx_DMASR : Z
}.

(** [IS_ETH_DMATXDESC_OWN(dma_tx_desc) != (uint32_t)RESET] *)
Definition IS_ETH_DMATXDESC_OWN (st : Z) : bool :=
  negb (Z.land st ETH_DMATXDESC_OWN =? 0).

(** [while (IS_ETH_DMATXDESC_OWN(dma_tx_desc) != RESET) k_yield();]
    The flag tells whether the descriptor was seen free; it is [false]
    when the observed reads end with the DMA engine still owning it (the
    loop is still spinning). *)
Fixpoint wait_tx_desc (reads : list Z) : list event * bool :=
  match reads with
  | [] => ([], false)
  | st :: rest =>
      if IS_ETH_DMATXDESC_OWN st then
        let '(tr, free) := wait_tx_desc rest in
        (Hw tx_desc_read :: Kernel k_yield :: tr, free)
      else ([Hw tx_desc_read], true)
  end.

(** The [error:] label: unlock and return [res]. *)
Definition tx_exit (tr : list event) (res : Z) : list event * option Z :=
  (tr ++ [unlock_tx], Some res).

Definition eth_tx (cfg : config) (env : tx_env) : list event * option Z :=
  let tr := [lock_tx; Sys net_pkt_get_len] in
  if ETH_TX_BUF_SIZE cfg <? total_len env then
    tx_exit (tr ++ [Sys LOG_ERR]) (- EIO)
  else
    let '(spin, free) := wait_tx_desc (tx_desc_status env) in
    let tr := tr ++ spin in
    if negb free then (tr, None)
    else
      (* dma_buffer: dma_tx_buffer[0] on H7X, dma_tx_desc->Buffer1Addr
         otherwise *)
      let tr := if CONFIG_SOC_SERIES_STM32H7X cfg then tr
                else tr ++ [Hw tx_desc_read] in
      let tr := tr ++ [Hw (tx_buffer_write (total_len env))] in
      if negb (net_pkt_read_rc env =? 0) then tx_exit tr (- EIO)
      else
        let tr := tr ++ [Hal (if CONFIG_SOC_SERIES_STM32H7X cfg
                              then HAL_ETH_Transmit (total_len env)
                              else HAL_ETH_TransmitFrame (total_len env))] in
        if negb (is_HAL_OK (hal_transmit_ret env)) then
          tx_exit (tr ++ [Sys LOG_ERR]) (- EIO)
        else if CONFIG_SOC_SERIES_STM32H7X cfg then tx_exit tr 0
        else
          let tr := tr ++ [Hw DMASR_read] in
          if negb (Z.land (tx_DMASR env) ETH_DMASR_TUS =? 0) then
            tx_exit (tr ++ [Hw (DMASR_write ETH_DMASR_TUS);
                            Hw (DMATPDR_write 0)]) (- EIO)
          else tx_exit tr 0.

(** Whether the call came back to its caller. *)
Definition returned (r : option Z) : bool :=
  match r with Some _ => true | None => false end.

(** The unlock at the exit, present when the call returned. *)
Definition exit_unlock (r : option Z) : list event :=
  match r with Some _ => [unlock_tx] | None => [] end.

(** Events that lock or unlock some mutex. *)
Definition is_mutex_call (e : event) : bool :=
  match e with
  | Kernel (k_mutex_lock _ _) | Kernel (k_mutex_unlock _) => true
  | _ => false
  end.

Definition no_mutex_call (tr : list event) : bool :=
  forallb (fun e => negb (is_mutex_call e)) tr.

Definition is_lock_tx (e : event) : bool :=
  match e with Kernel (k_mutex_lock tx_mutex K_FOREVER) => true | _ => false end.

Definition is_unlock_tx (e : event) : bool :=
  match e with Kernel (k_mutex_unlock tx_mutex) => true | _ => false end.

Definition count_events (f : event -> bool) (tr : list event) : nat :=
  length (List.filter f tr).

Definition is_hw_access (e : event) : bool :=
  match e with Hw _ => true | _ => false end.

(** Copying into the DMA buffer, or starting a transmission. *)
Definition is_tx_copy_or_start (e : event) : bool :=
  match e with
  | Hw (tx_buffer_write _)
  | Hal (HAL_ETH_Transmit _) | Hal (HAL_ETH_TransmitFrame _) => true
  | _ => false
  end.

(** *** eth_rx (the branch compiled without [CONFIG_SOC_SERIES_STM32H7X]) *)

Record ETH_DMADescTypeDef : Type := mk_desc {
  Status : Z;
  ControlBufferSize : Z;
  Buffer1Addr : Z;
  Buffer2NextDescAddr : Z
}.

(** [heth->RxFrameInfos]: first segment descriptor, number of segments,
    frame length and buffer address. *)
Record ETH_DMARxFrameInfos : Type := mk_frame_infos {
  FSRxDesc : Z;
  LSRxDesc : Z;
  SegCount : nat;                 (* uint32_t, used as a loop bound only *)
  rx_length : Z;
  rx_buffer : Z
}.

Inductive dma_reg : Type := REG_DMASR | REG_DMARPDR.

(** The part of [ETH_HandleTypeDef] and of the device behind it that
    [eth_rx] touches: the frame information, the RX descriptors in memory
    (by address), the DMA status register as read, and the register
    writes issued, in program order. *)
Record ETH_HandleTypeDef : Type := mk_heth {
  RxFrameInfos : ETH_DMARxFrameInfos;
  rx_desc_mem : gmap Z ETH_DMADescTypeDef;
  DMASR : Z;
  reg_writes : list (dma_reg * Z)
}.

Record net_pkt : Type := mk_pkt {
  pkt_len : Z;
  pkt_src : Z;                  (* the DMA buffer the data was copied from *)
  pkt_vlan_tci : option Z
}.

(** What the network stack and the frame decide during one call: whether
    [net_pkt_rx_alloc_with_buffer] succeeds, the result of [net_pkt_write],
    and the VLAN TCI if the frame carries a VLAN header. *)
Record rx_env : Type := mk_rx_env {
  alloc_ok : bool;
  net_pkt_write_rc : Z;
  frame_vlan_tci : option Z
}.

(** [Returns pkt]: the function returned [pkt] ([None] is NULL).
    [Faults]: it dereferenced an invalid pointer. *)
Inductive rx_outcome : Type :=
| Returns (pkt : option net_pkt)
| Faults.

Record rx_result : Type := mk_rx_result {
  rx_heth : ETH_HandleTypeDef;
  rx_vlan_tag : Z;
  rx_error_counted : bool;      (* eth_stats_update_errors_rx was called *)
  rx_outcome_of : rx_outcome
}.

(** [dma_rx_desc->Status |= ETH_DMARXDESC_OWN] *)
Definition give_to_dma (d : ETH_DMADescTypeDef) : ETH_DMADescTypeDef :=
  {| Status := Z.lor (Status d) ETH_DMARXDESC_OWN;
     ControlBufferSize := ControlBufferSize d;
     Buffer1Addr := Buffer1Addr d;
     Buffer2NextDescAddr := Buffer2NextDescAddr d |}.

(** The loop [for (i = 0; i < SegCount; i++)] over the descriptor chain;
    [None] when a descriptor pointer leads outside the descriptors. *)
Fixpoint release_descs (n : nat) (p : Z) (mem : gmap Z ETH_DMADescTypeDef)
  : option (gmap Z ETH_DMADescTypeDef) :=
  match n with
  | O => Some mem
  | S k =>
      match mem !! p with
      | None => None
      | Some d =>
          release_descs k (Buffer2NextDescAddr d) (<[p := give_to_dma d]> mem)
      end
  end.

Definition set_rx_state (heth : ETH_HandleTypeDef)
    (mem : gmap Z ETH_DMADescTypeDef) (segs : nat) : ETH_HandleTypeDef :=
  {| RxFrameInfos :=
       {| FSRxDesc := FSRxDesc (RxFrameInfos heth);
          LSRxDesc := LSRxDesc (RxFrameInfos heth);
          SegCount := segs;
          rx_length := rx_length (RxFrameInfos heth);
          rx_buffer := rx_buffer (RxFrameInfos heth) |};
     rx_desc_mem := mem;
     DMASR := DMASR heth;
     reg_writes := reg_writes heth |}.

Definition write_regs (heth : ETH_HandleTypeDef) (ws : list (dma_reg * Z))
  : ETH_HandleTypeDef :=
  {| RxFrameInfos := RxFrameInfos heth;
     rx_desc_mem := rx_desc_mem heth;
     DMASR := DMASR heth;
     reg_writes := reg_writes heth ++ ws |}.

Section WithHAL.

(** The vendor's [HAL_ETH_GetReceivedFrame_IT]: its status and the
    handle as it leaves it. *)
Variable HAL_ETH_GetReceivedFrame_IT :
  ETH_HandleTypeDef -> HAL_StatusTypeDef * ETH_HandleTypeDef.

Definition eth_rx (cfg : config) (env : rx_env)
    (heth : ETH_HandleTypeDef) (vlan_tag : Z) : rx_result :=
  let '(hal_ret, heth) := HAL_ETH_GetReceivedFrame_IT heth in
  if negb (is_HAL_OK hal_ret) then
    (* no frame available *)
    {| rx_heth := heth; rx_vlan_tag := vlan_tag;
       rx_error_counted := false; rx_outcome_of := Returns None |}
  else
    let total_len := rx_length (RxFrameInfos heth) in
    let dma_buffer := rx_buffer (RxFrameInfos heth) in
    let pkt :=
      if alloc_ok env then
        if net_pkt_write_rc env =? 0 then
          Some {| pkt_len := total_len; pkt_src := dma_buffer;
                  pkt_vlan_tci := None |}
        else None             (* net_pkt_unref(pkt); pkt = NULL *)
      else None in
    (* release_desc: *)
    match release_descs (SegCount (RxFrameInfos heth))
            (FSRxDesc (RxFrameInfos heth)) (rx_desc_mem heth) with
    | None =>
        {| rx_heth := heth; rx_vlan_tag := vlan_tag;
           rx_error_counted := false; rx_outcome_of := Faults |}
    | Some mem =>
        let heth := set_rx_state heth mem 0 in
        let heth :=
          if negb (Z.land (DMASR heth) ETH_DMASR_RBUS =? 0) then
            write_regs heth [(REG_DMASR, ETH_DMASR_RBUS); (REG_DMARPDR, 0)]
          else heth in
        if CONFIG_NET_VLAN cfg then
          match pkt with
          | None =>
              (* NET_ETH_HDR(pkt) with pkt == NULL *)
              {| rx_heth := heth; rx_vlan_tag := vlan_tag;
                 rx_error_counted := false; rx_outcome_of := Faults |}
          | Some p =>
              match frame_vlan_tci env with
              | Some tci =>
                  {| rx_heth := heth; rx_vlan_tag := Z.land tci 0xfff;
                     rx_error_counted := false;
                     rx_outcome_of :=
                       Returns (Some {| pkt_len := pkt_len p;
                                        pkt_src := pkt_src p;
                                        pkt_vlan_tci := Some tci |}) |}
              | None =>
                  {| rx_heth := heth; rx_vlan_tag := vlan_tag;
                     rx_error_counted := false;
                     rx_outcome_of := Returns (Some p) |}
              end
          end
        else
          {| rx_heth := heth; rx_vlan_tag := vlan_tag;
             rx_error_counted := match pkt with None => true | _ => false end;
             rx_outcome_of := Returns pkt |}
    end.

End WithHAL.

(** The addresses of the [n] descriptors of the chain starting at [p]. *)
Fixpoint desc_chain (n : nat) (p : Z) (mem : gmap Z ETH_DMADescTypeDef)
  : option (list Z) :=
  match n with
  | O => Some []
  | S k =>
      match mem !! p with
      | None => None
      | Some d =>
          match desc_chain k (Buffer2NextDescAddr d) mem with
          | None => None
          | Some rest => Some (p :: rest)
          end
      end
  end.

(** The descriptor at [a] exists and has its OWN bit (bit 31) set. *)
Definition dma_owns (mem : gmap Z ETH_DMADescTypeDef) (a : Z) : bool :=
  match mem !! a with
  | Some d => Z.testbit (Status d) 31
  | None => false
  end.

(** A frame of two segments in a ring of three descriptors at addresses
    0x100, 0x110, 0x120, as the HAL reports it. *)
Definition sample_handle : ETH_HandleTypeDef :=
  {| RxFrameInfos := {| FSRxDesc := 0x110; LSRxDesc := 0x120; SegCount := 2;
                        rx_length := 1600; rx_buffer := 0x2000 |};
     rx_desc_mem :=
       <[0x100 := mk_desc 0x80000000 1524 0x1000 0x110]>
       (<[0x110 := mk_desc 0x00000200 1524 0x2000 0x120]>
       (<[0x120 := mk_desc 0x00000100 1524 0x3000 0x100]> ∅));
     DMASR := 0x80;
     reg_writes := [] |}.

Definition sample_HAL (h : ETH_HandleTypeDef)
  : HAL_StatusTypeDef * ETH_HandleTypeDef := (HAL_OK, sample_handle).

(** *** rx_thread *)

(** What one turn of the [while (1)] loop is given: the result of
    [k_sem_take], the results of [net_recv_data] for the packets [eth_rx]
    returns before it returns NULL, and the PHY status read. *)
Record rx_iter : Type := mk_rx_iter {
  sem_take_res : Z;
  rx_frames : list Z;
  phy_read_ret : HAL_StatusTypeDef;
  phy_status : Z
}.

Definition rx_idle_timeout (cfg : config) : k_timeout_t :=
  K_MSEC (CONFIG_ETH_STM32_CARRIER_CHECK_RX_IDLE_TIMEOUT_MS cfg).

(** [while ((pkt = eth_rx(dev, &vlan_tag)) != NULL) { ... }]; a call of
    [eth_rx] is the one event [eth_rx_returned], what it calls on its own
    is left out here ([EthObs.rx_receive] runs it in full). *)
Fixpoint rx_loop (frames : list Z) : list event :=
  match frames with
  | [] => [Sys (eth_rx_returned false)]
  | res :: rest =>
      Sys (eth_rx_returned true) :: Sys (net_recv_data res)
      :: (if res <? 0
          then [Sys eth_stats_update_errors_rx; Sys LOG_ERR; Sys net_pkt_unref]
          else [])
      ++ rx_loop rest
  end.

(** [if (dev_data->link_up != true) { link_up = true; net_eth_carrier_on(); }] *)
Definition carrier_on (link_up : bool) : list event * bool :=
  if negb link_up then ([Sys net_eth_carrier_on], true) else ([], link_up).

(** [if (dev_data->link_up != false) { link_up = false; net_eth_carrier_off(); }] *)
Definition carrier_off (link_up : bool) : list event * bool :=
  if link_up then ([Sys net_eth_carrier_off], false) else ([], link_up).

Definition rx_thread_iteration (cfg : config) (i : rx_iter) (link_up : bool)
  : list event * bool :=
  let take := Kernel (k_sem_take rx_int_sem (rx_idle_timeout cfg)) in
  if sem_take_res i =? 0 then
    let '(evs, link_up) := carrier_on link_up in
    (take :: evs ++ rx_loop (rx_frames i), link_up)
  else if sem_take_res i =? - EAGAIN then
    let read := Hal (HAL_ETH_ReadPHYRegister PHY_BSR) in
    if is_HAL_OK (phy_read_ret i) then
      let '(evs, link_up) :=
        if Z.land (phy_status i) PHY_LINKED_STATUS =? PHY_LINKED_STATUS
        then carrier_on link_up
        else carrier_off link_up in
      (take :: read :: evs, link_up)
    else ([take; read], link_up)
  else ([take], link_up).

(** The first turns of the endless loop. *)
Fixpoint rx_thread (cfg : config) (iters : list rx_iter) (link_up : bool)
  : list event * bool :=
  match iters with
  | [] => ([], link_up)
  | i :: rest =>
      let '(tr, link_up) := rx_thread_iteration cfg i link_up in
      let '(tr', link_up) := rx_thread cfg rest link_up in
      (tr ++ tr', link_up)
  end.

(** The carrier states reported to the network stack, in order
    ([true] for carrier-on). *)
Fixpoint carrier_reports (tr : list event) : list bool :=
  match tr with
  | [] => []
  | Sys net_eth_carrier_on :: rest => true :: carrier_reports rest
  | Sys net_eth_carrier_off :: rest => false :: carrier_reports rest
  | _ :: rest => carrier_reports rest
  end.

(** Every report differs from the state before it. *)
Fixpoint alternates (prev : bool) (reports : list bool) : bool :=
  match reports with
  | [] => true
  | r :: rest => Bool.eqb r (negb prev) && alternates r rest
  end.

Fixpoint kernel_calls (tr : list event) : list kcall :=
  match tr with
  | [] => []
  | Kernel c :: rest => c :: kernel_calls rest
  | _ :: rest => kernel_calls rest
  end.

Definition calls_eth_rx (tr : list event) : bool :=
  existsb (fun e => match e with Sys (eth_rx_returned _) => true | _ => false end) tr.

(** *** eth_isr and the receive-complete callback *)

(** The callbacks [HAL_ETH_IRQHandler] may fire.  The driver defines the
    receive-complete one; the others keep the HAL's weak (empty)
    defaults. *)
Inductive hal_callback : Type :=
| RxCplt
| TxCplt
| ErrorCb.

Definition HAL_ETH_RxCpltCallback : list event :=
  [Kernel (k_sem_give rx_int_sem)].

Definition run_callback (cb : hal_callback) : list event :=
  match cb with
  | RxCplt => HAL_ETH_RxCpltCallback
  | TxCplt | ErrorCb => []
  end.

(** [eth_isr] only calls [HAL_ETH_IRQHandler]; [fired] are the callbacks
    the HAL decides to invoke from it. *)
Definition eth_isr (fired : list hal_callback) : list event :=
  Hal HAL_ETH_IRQHandler :: concat (map run_callback fired).

Definition is_give_rx_int_sem (c : kcall) : bool :=
  match c with k_sem_give rx_int_sem => true | _ => false end.

(** *** eth_initialize *)

Record init_env : Type := mk_init_env {
  pclken_ret : Z;
  pclken_tx_ret : Z;
  pclken_rx_ret : Z;
  pclken_ptp_ret : Z;
  hal_init_ret : HAL_StatusTypeDef;
  desc_assign_ret : nat -> HAL_StatusTypeDef;
  hal_start_ret : HAL_StatusTypeDef
}.

Definition disable_mcast_filter (cfg : config) : list event :=
  if CONFIG_SOC_SERIES_STM32H7X cfg then
    [Hal HAL_ETH_GetMACFilterConfig; Hal HAL_ETH_SetMACFilterConfig;
     Kernel (k_sleep (K_MSEC 1))]
  else
    [Hal MACFFR_update; Kernel (k_sleep (K_MSEC 1)); Hal MACFFR_update].

(** [for (i = 0; i < ETH_RX_DESC_CNT; i++) HAL_ETH_DescAssignMemory(...)],
    leaving at the first failure. *)
Fixpoint assign_rx_memory (n i : nat) (ret : nat -> HAL_StatusTypeDef)
  : list event * bool :=
  match n with
  | O => ([], true)
  | S k =>
      if is_HAL_OK (ret i) then
        let '(tr, ok) := assign_rx_memory k (S i) ret in
        (Hal (HAL_ETH_DescAssignMemory i) :: tr, ok)
      else ([Hal (HAL_ETH_DescAssignMemory i); Sys LOG_ERR], false)
  end.

(** [ret = clock_control_on(..); ret |= clock_control_on(..); ...] *)
Definition clocks_ret (cfg : config) (env : init_env) : Z :=
  let ret := Z.lor (Z.lor (pclken_ret env) (pclken_tx_ret env))
               (pclken_rx_ret env) in
  if CONFIG_SOC_SERIES_STM32H7X cfg then ret
  else Z.lor ret (pclken_ptp_ret env).

(** From [HAL_ETH_Start] to [return 0]. *)
Definition init_finish (cfg : config) (env : init_env) (tr : list event)
    (link_up : bool) : list event * Z * bool :=
  (tr
   ++ (if negb (is_HAL_OK (hal_start_ret env)) then [Sys LOG_ERR] else [])
   ++ disable_mcast_filter cfg
   ++ (if CONFIG_NET_L2_CANBUS_ETH_TRANSLATOR cfg
       then [Sys enable_canbus_eth_translator_filter] else [])
   ++ (if CONFIG_SOC_SERIES_STM32H7X cfg
       then [Hal HAL_ETH_SetMDIOClockRange; Hal HAL_ETH_GetMACConfig;
             Hal HAL_ETH_SetMACConfig]
       else [])
   ++ [Sys LOG_DBG],
   0, link_up).

(** The result is the events, the return value, and [dev_data->link_up]
    afterwards. *)
Definition eth_initialize (cfg : config) (env : init_env) (link_up : bool)
  : list event * Z * bool :=
  let tr := Sys device_get_binding
            :: repeat (Sys clock_control_on)
                 (if CONFIG_SOC_SERIES_STM32H7X cfg then 3 else 4) in
  if negb (clocks_ret cfg env =? 0) then (tr ++ [Sys LOG_ERR], - EIO, link_up)
  else
    let tr := tr
              ++ (if CONFIG_ETH_STM32_HAL_RANDOM_MAC cfg
                  then [Sys generate_mac] else [])
              ++ (if CONFIG_NET_L2_CANBUS_ETH_TRANSLATOR cfg
                  then [Sys set_mac_to_translator_addr] else [])
              ++ [Hal HAL_ETH_Init] in
    if negb (is_HAL_TIMEOUT (hal_init_ret env))
       && negb (is_HAL_OK (hal_init_ret env)) then
      (tr ++ [Sys LOG_ERR], - EINVAL, link_up)
    else
      let tr := if is_HAL_TIMEOUT (hal_init_ret env)
                then tr ++ [Sys LOG_ERR] else tr in
      let link_up := false in
      let tr := tr ++ [Kernel (k_mutex_init tx_mutex);
                       Kernel (k_sem_init rx_int_sem 0 UINT_MAX);
                       Kernel (k_thread_create rx_thread_data entry_rx_thread
                                 K_NO_WAIT)] in
      if CONFIG_SOC_SERIES_STM32H7X cfg then
        let '(atr, ok) :=
          assign_rx_memory (ETH_RX_DESC_CNT cfg) 0 (desc_assign_ret env) in
        if negb ok then (tr ++ atr, - EINVAL, link_up)
        else init_finish cfg env (tr ++ atr ++ [Hal HAL_ETH_Start_IT]) link_up
      else
        init_finish cfg env
          (tr ++ [Hal HAL_ETH_DMATxDescListInit;
                  Hal HAL_ETH_DMARxDescListInit; Hal HAL_ETH_Start])
          link_up.

Definition is_thread_create (c : kcall) : bool :=
  match c with k_thread_create _ _ _ => true | _ => false end.

(** Number of threads created in a run. *)
Definition thread_creates (tr : list event) : nat :=
  length (List.filter is_thread_create (kernel_calls tr)).

(** The three kernel calls that set the receive worker up. *)
Definition worker_setup : list kcall :=
  [k_mutex_init tx_mutex; k_sem_init rx_int_sem 0 UINT_MAX;
   k_thread_create rx_thread_data entry_rx_thread K_NO_WAIT].

(** Initialisation gets past its two early exits. *)
Definition init_proceeds (cfg : config) (env : init_env) : bool :=
  (clocks_ret cfg env =? 0)
  && (is_HAL_OK (hal_init_ret env) || is_HAL_TIMEOUT (hal_init_ret env)).

End Eth.

(** ** The driver's semaphore calls in the kernel model *)

(** What a semaphore call recorded by the driver does when it reaches the
    semaphore [s]: the fate of the caller and the semaphore afterwards. *)
Definition sem_call (p : Sem.limit_policy) (caller : tid) (c : Eth.kcall)
    (s : Sem.k_sem) : option (outcome * Sem.k_sem) :=
  match c with
  | Eth.k_sem_take _ t =>
      let '(e, s') := Sem.k_sem_take caller t s in Some (Sem.take_outcome e, s')
  | Eth.k_sem_give _ =>
      let '(e, s') := Sem.k_sem_give s in Some (Sem.give_outcome p e, s')
  | _ => None
  end.

Definition never_blocks (p : Sem.limit_policy) (caller : tid) (c : Eth.kcall)
    (s : Sem.k_sem) : bool :=
  match sem_call p caller c s with
  | Some (o, _) => negb (blocks o)
  | None => false
  end.

(** ** The driver's address, filter and interface set-up
    (drivers/ethernet/eth_stm32_hal.c, continued) *)

Module EthAux.

(** A store into a [uint8_t] and into a 32-bit register. *)
Definition u8 (x : Z) : Z := x mod 256.
Definition u32 (x : Z) : Z := x mod 2 ^ 32.

(** [mac_addr[i]] of a [uint8_t mac_addr[6]]. *)
Definition byte_at (mac : list Z) (i : nat) : Z := default 0 (mac !! i).

Definition is_mac (mac : list Z) : Prop :=
  length mac = 6%nat /\ Forall (fun b => 0 <= b < 256) mac.

Section Translator.

(** [NET_CAN_ETH_TRANSLATOR_ADDR] of net/can.h. *)
Variable NET_CAN_ETH_TRANSLATOR_ADDR : Z.

(** [mac_addr[4] = (mac_addr[4] & 0xC0) | (NET_CAN_ETH_TRANSLATOR_ADDR >> 8);
     mac_addr[5] = NET_CAN_ETH_TRANSLATOR_ADDR & 0xFF;] *)
Definition set_mac_to_translator_addr (mac_addr : list Z) : list Z :=
  let mac_addr :=
    <[4%nat := u8 (Z.lor (Z.land (byte_at mac_addr 4) 0xC0)
                     (Z.shiftr NET_CAN_ETH_TRANSLATOR_ADDR 8))]> mac_addr in
  <[5%nat := u8 (Z.land NET_CAN_ETH_TRANSLATOR_ADDR 0xFF)]> mac_addr.

End Translator.

(** The 14-bit link layer address held in the last two bytes. *)
Definition low14 (mac : list Z) : Z :=
  Z.land (byte_at mac 4) 0x3F * 256 + byte_at mac 5.

(** [(mac_addr[3] << 24) | (mac_addr[2] << 16) | (mac_addr[1] << 8) | mac_addr[0]]
    as stored in a 32-bit address register. *)
Definition mac_low_reg (mac : list Z) : Z :=
  u32 (Z.lor (Z.lor (Z.lor (Z.shiftl (byte_at mac 3) 24)
                       (Z.shiftl (byte_at mac 2) 16))
                (Z.shiftl (byte_at mac 1) 8))
         (byte_at mac 0)).

(** [(mac_addr[5] << 8) | mac_addr[4]] *)
Definition mac_high_reg (mac : list Z) : Z :=
  u32 (Z.lor (Z.shiftl (byte_at mac 5) 8) (byte_at mac 4)).

(** The MAC address registers and the frame filter register of the
    peripheral ([heth->Instance]). *)
Record ETH_TypeDef : Type := mk_regs {
  MACA0HR : Z;
  MACA0LR : Z;
  MACA1HR : Z;
  MACA1LR : Z;
  MACFFR : Z
}.

Section Filter.

(** [ETH_MACA1HR_AE | ETH_MACA1HR_MBC_HBits15_8 | ETH_MACA1HR_MBC_HBits7_0]
    (on H7X the [ETH_MACAHR_*] counterparts): a constant of the HAL. *)
Variable MACA1HR_FILTER : Z.

Definition enable_canbus_eth_translator_filter (regs : ETH_TypeDef)
    (mac_addr : list Z) : ETH_TypeDef :=
  {| MACA0HR := MACA0HR regs; MACA0LR := MACA0LR regs;
     MACA1HR := MACA1HR_FILTER;
     MACA1LR := mac_low_reg mac_addr;
     MACFFR := MACFFR regs |}.

End Filter.

(** Reading the address bytes back from the two registers. *)
Definition mac_of_regs (hr lr : Z) : list Z :=
  [Z.land lr 0xFF; Z.land (Z.shiftr lr 8) 0xFF; Z.land (Z.shiftr lr 16) 0xFF;
   Z.land (Z.shiftr lr 24) 0xFF; Z.land hr 0xFF; Z.land (Z.shiftr hr 8) 0xFF].

(** *** eth_stm32_hal_set_config *)

(** [enum ethernet_config_type] of net/ethernet.h: the one enumerator the
    function handles, and the others by their value. *)
Inductive ethernet_config_type : Type :=
| ETHERNET_CONFIG_TYPE_MAC_ADDRESS
| ETHERNET_CONFIG_TYPE_other (value : Z).

Record set_config_state : Type := mk_scs {
  dev_mac_addr : list Z;          (* dev_data->mac_addr *)
  instance : ETH_TypeDef          (* heth->Instance *)
}.

Section SetConfig.

(** errno.h *)
Variable ENOTSUP : Z.

(** [config_mac] is [config->mac_address.addr], six bytes. *)
Definition eth_stm32_hal_set_config (type : ethernet_config_type)
    (config_mac : list Z) (st : set_config_state) : Z * set_config_state :=
  match type with
  | ETHERNET_CONFIG_TYPE_MAC_ADDRESS =>
      (* memcpy(dev_data->mac_addr, config->mac_address.addr, 6) *)
      let mac := take 6 config_mac ++ drop 6 (dev_mac_addr st) in
      (0, {| dev_mac_addr := mac;
             instance :=
               {| MACA0HR := mac_high_reg mac; MACA0LR := mac_low_reg mac;
                  MACA1HR := MACA1HR (instance st);
                  MACA1LR := MACA1LR (instance st);
                  MACFFR := MACFFR (instance st) |} |})
  | _ => (- ENOTSUP, st)
  end.

End SetConfig.

(** *** disable_mcast_filter (the branch without H7X) *)

Section McastFilter.

(** HAL constants: the multicast filter modes of [MACFFR]. *)
Variables ETH_MULTICASTFRAMESFILTER_PERFECTHASHTABLE
          ETH_MULTICASTFRAMESFILTER_HASHTABLE
          ETH_MULTICASTFRAMESFILTER_PERFECT
          ETH_MULTICASTFRAMESFILTER_NONE : Z.

Definition mcast_filter_mask : Z :=
  Z.lor (Z.lor ETH_MULTICASTFRAMESFILTER_PERFECTHASHTABLE
           ETH_MULTICASTFRAMESFILTER_HASHTABLE)
    ETH_MULTICASTFRAMESFILTER_PERFECT.

(** [tmp = MACFFR; tmp &= ~(PERFECTHASHTABLE | HASHTABLE | PERFECT);
     tmp |= NONE; MACFFR = tmp; tmp = MACFFR; k_sleep(K_MSEC(1)); MACFFR = tmp;]
    on 32-bit values; the register holds what was written to it. *)
Definition disable_mcast_filter_regs (regs : ETH_TypeDef) : ETH_TypeDef :=
  let tmp := MACFFR regs in
  let tmp := Z.land tmp (u32 (Z.lnot mcast_filter_mask)) in
  let tmp := Z.lor tmp ETH_MULTICASTFRAMESFILTER_NONE in
  let regs1 := {| MACA0HR := MACA0HR regs; MACA0LR := MACA0LR regs;
                  MACA1HR := MACA1HR regs; MACA1LR := MACA1LR regs;
                  MACFFR := tmp |} in
  let tmp := MACFFR regs1 in
  {| MACA0HR := MACA0HR regs1; MACA0LR := MACA0LR regs1;
     MACA1HR := MACA1HR regs1; MACA1LR := MACA1LR regs1;
     MACFFR := tmp |}.

End McastFilter.

(** *** eth_iface_init and eth0_irq_config *)

Inductive iface_event : Type :=
| IRQ_CONNECT_eth_isr
| irq_enable
| net_if_set_link_addr (iface : nat) (mac : list Z)
| ethernet_init (iface : nat)
| net_if_flag_set_NO_AUTO_START (iface : nat).

Definition eth0_irq_config : list iface_event :=
  [IRQ_CONNECT_eth_isr; irq_enable].

(** [dev_iface] is [dev_data->iface] ([None] for NULL); the interface being
    initialised is not NULL (asserted by the source). *)
Definition eth_iface_init (mac : list Z) (iface : nat) (dev_iface : option nat)
    : list iface_event * option nat :=
  let '(evs, dev_iface) :=
    match dev_iface with
    | None => (eth0_irq_config, Some iface)   (* DEV_CFG(dev)->config_func() *)
    | Some _ => ([], dev_iface)
    end in
  (evs ++ [net_if_set_link_addr iface mac; ethernet_init iface;
           net_if_flag_set_NO_AUTO_START iface],
   dev_iface).

(** The network stack initialising the main interface and then the VLAN
    interfaces of the device, one after the other. *)
Fixpoint init_ifaces (mac : list Z) (ifaces : list nat) (dev_iface : option nat)
    : list iface_event * option nat :=
  match ifaces with
  | [] => ([], dev_iface)
  | i :: rest =>
      let '(tr, dev_iface) := eth_iface_init mac i dev_iface in
      let '(tr', dev_iface) := init_ifaces mac rest dev_iface in
      (tr ++ tr', dev_iface)
  end.

Definition is_irq_enable (e : iface_event) : bool :=
  match e with irq_enable => true | _ => false end.

Definition is_irq_event (e : iface_event) : bool :=
  match e with IRQ_CONNECT_eth_isr | irq_enable => true | _ => false end.

Definition per_iface_setup (mac : list Z) (iface : nat) : list iface_event :=
  [net_if_set_link_addr iface mac; ethernet_init iface;
   net_if_flag_set_NO_AUTO_START iface].

End EthAux.

(** ** Observations on the driver's runs *)

Module EthObs.
Import Eth.

Definition is_k_yield (e : event) : bool :=
  match e with Kernel k_yield => true | _ => false end.

Definition is_tx_buffer_write (e : event) : bool :=
  match e with Hw (tx_buffer_write _) => true | _ => false end.

(** The copies into the DMA buffer and the transmit calls of a run, in
    order. *)
Definition tx_data_events (tr : list event) : list event :=
  List.filter is_tx_copy_or_start tr.

(** The status words read while the DMA engine still owned the
    descriptor. *)
Fixpoint leading_busy (reads : list Z) : list Z :=
  match reads with
  | [] => []
  | st :: rest =>
      if IS_ETH_DMATXDESC_OWN st then st :: leading_busy rest else []
  end.

(** The HAL's transmit call of the configuration. *)
Definition hal_transmit (cfg : config) (len : Z) : event :=
  Hal (if CONFIG_SOC_SERIES_STM32H7X cfg
       then HAL_ETH_Transmit len else HAL_ETH_TransmitFrame len).

(** Receive loop bookkeeping. *)
Definition is_net_recv_data (e : event) : bool :=
  match e with Sys (net_recv_data _) => true | _ => false end.

Definition is_net_pkt_unref (e : event) : bool :=
  match e with Sys net_pkt_unref => true | _ => false end.

Definition is_rx_error_count (e : event) : bool :=
  match e with Sys eth_stats_update_errors_rx => true | _ => false end.

Definition is_eth_rx_call (e : event) : bool :=
  match e with Sys (eth_rx_returned _) => true | _ => false end.

Definition is_phy_read (e : event) : bool :=
  match e with Hal (HAL_ETH_ReadPHYRegister _) => true | _ => false end.

(** Walking a run with the carrier state the network stack has been told
    ([up] at the start): is every packet handed to [net_recv_data] handed
    over while that state is "on"? *)
Fixpoint delivered_while_up (up : bool) (tr : list event) : bool :=
  match tr with
  | [] => true
  | Sys net_eth_carrier_on :: rest => delivered_while_up true rest
  | Sys net_eth_carrier_off :: rest => delivered_while_up false rest
  | Sys (net_recv_data _) :: rest => up && delivered_while_up up rest
  | _ :: rest => delivered_while_up up rest
  end.

(** The carrier state after a run. *)
Definition carrier_after (up : bool) (tr : list event) : bool :=
  List.last (carrier_reports tr) up.

(** The descriptor indices passed to [HAL_ETH_DescAssignMemory]. *)
Fixpoint assigned_indices (tr : list event) : list nat :=
  match tr with
  | [] => []
  | Hal (HAL_ETH_DescAssignMemory i) :: rest => i :: assigned_indices rest
  | _ :: rest => assigned_indices rest
  end.

Definition is_hal_start (e : event) : bool :=
  match e with Hal HAL_ETH_Start | Hal HAL_ETH_Start_IT => true | _ => false end.

Definition is_RxCplt (cb : hal_callback) : bool :=
  match cb with RxCplt => true | _ => false end.

(** Membership in a list of descriptor addresses. *)
Definition in_chain (a : Z) (addrs : list Z) : bool := existsb (Z.eqb a) addrs.

(** The packet [eth_rx] builds when allocation and copy succeed. *)
Definition rx_packet (heth : ETH_HandleTypeDef) (tci : option Z) : net_pkt :=
  {| pkt_len := rx_length (RxFrameInfos heth);
     pkt_src := rx_buffer (RxFrameInfos heth);
     pkt_vlan_tci := tci |}.

Definition rx_packet_ok (env : rx_env) : bool :=
  alloc_ok env && (net_pkt_write_rc env =? 0).

Definition rbus_set (heth : ETH_HandleTypeDef) : bool :=
  negb (Z.land (DMASR heth) ETH_DMASR_RBUS =? 0).

(** The frames whose hand-over to the stack failed. *)
Definition refused (frames : list Z) : list Z :=
  List.filter (fun res => res <? 0) frames.

(** *** The receive loop with [eth_rx] run in full *)

(** In [Eth.rx_loop] a call of [eth_rx] is the single event
    [eth_rx_returned]; here the loop of [rx_thread] runs [eth_rx] itself,
    so that what [eth_rx] calls on its own is part of the trace. *)

(** What is decided outside the driver during one pass of the loop: the
    answers [eth_rx] gets from the network stack, and the result of
    [net_recv_data] if the pass has a packet to deliver. *)
Record rx_pass : Type := mk_rx_pass {
  pass_env : rx_env;
  recv_res : Z
}.

(** A call of [eth_rx] as it went: its inputs, whether the HAL handed a
    frame over, and its result. *)
Record rx_call : Type := mk_rx_call {
  call_pass : rx_pass;
  call_frame : bool;
  call_result : rx_result
}.

Inductive loop_end : Type :=
| Loop_exits        (* [eth_rx] returned NULL *)
| Loop_faults       (* [eth_rx] dereferenced an invalid pointer *)
| Loop_goes_on.     (* the passes given are used up, the loop is still running *)

Record rx_run : Type := mk_rx_run {
  run_trace : list event;
  run_calls : list rx_call;
  run_end : loop_end
}.

Definition got_packet (c : rx_call) : bool :=
  match rx_outcome_of (call_result c) with
  | Returns (Some _) => true
  | _ => false
  end.

(** [net_pkt_rx_alloc_with_buffer] was called and returned a packet. *)
Definition allocated (c : rx_call) : bool :=
  call_frame c && alloc_ok (pass_env (call_pass c)).

(** [net_pkt_write] was called and failed. *)
Definition copy_failed (c : rx_call) : bool :=
  allocated c && negb (net_pkt_write_rc (pass_env (call_pass c)) =? 0).

Definition error_counted (c : rx_call) : bool :=
  rx_error_counted (call_result c).

(** The stack kept the packet of this call. *)
Definition accepted (c : rx_call) : bool :=
  got_packet c && negb (recv_res (call_pass c) <? 0).

(** The stack refused the packet of this call. *)
Definition turned_down (c : rx_call) : bool :=
  got_packet c && (recv_res (call_pass c) <? 0).

(** The call faulted with a packet allocated and filled. *)
Definition lost_in_fault (c : rx_call) : bool :=
  allocated c && negb (copy_failed c)
  && match rx_outcome_of (call_result c) with Faults => true | _ => false end.

Definition count_calls (f : rx_call -> bool) (cs : list rx_call) : nat :=
  length (List.filter f cs).

(** The results of [net_recv_data] in a trace, in order. *)
Fixpoint recv_results (tr : list event) : list Z :=
  match tr with
  | [] => []
  | Sys (net_recv_data res) :: rest => res :: recv_results rest
  | _ :: rest => recv_results rest
  end.

Section RxLoop.

Variable HAL_ETH_GetReceivedFrame_IT :
  ETH_HandleTypeDef -> HAL_StatusTypeDef * ETH_HandleTypeDef.

(** The calls [eth_rx] itself makes into the log and the network stack, in
    program order: [LOG_ERR] on a failed allocation, [LOG_ERR] and
    [net_pkt_unref] on a failed copy (lines 331-343), and
    [eth_stats_update_errors_rx] when it is about to return NULL after
    having taken a frame (lines 397-399). *)
Definition eth_rx_calls (cfg : config) (env : rx_env)
    (heth : ETH_HandleTypeDef) (vlan_tag : Z) : list event :=
  if negb (is_HAL_OK (HAL_ETH_GetReceivedFrame_IT heth).1) then []
  else
    (if negb (alloc_ok env) then [Sys LOG_ERR]
     else if negb (net_pkt_write_rc env =? 0)
          then [Sys LOG_ERR; Sys net_pkt_unref]
          else [])
    ++ (if rx_error_counted
             (eth_rx HAL_ETH_GetReceivedFrame_IT cfg env heth vlan_tag)
        then [Sys eth_stats_update_errors_rx] else []).

(** What the loop body does with a packet (lines 434-441). *)
Definition deliver (res : Z) : list event :=
  Sys (net_recv_data res)
  :: (if res <? 0
      then [Sys eth_stats_update_errors_rx; Sys LOG_ERR; Sys net_pkt_unref]
      else []).

(** [while ((pkt = eth_rx(dev, &vlan_tag)) != NULL) { ... }], one pass per
    element of [passes]; the handle and [vlan_tag] go from one call of
    [eth_rx] to the next. *)
Fixpoint rx_receive (cfg : config) (passes : list rx_pass)
    (heth : ETH_HandleTypeDef) (vlan_tag : Z) : rx_run :=
  match passes with
  | [] => {| run_trace := []; run_calls := []; run_end := Loop_goes_on |}
  | p :: rest =>
      let r := eth_rx HAL_ETH_GetReceivedFrame_IT cfg (pass_env p) heth vlan_tag in
      let own := eth_rx_calls cfg (pass_env p) heth vlan_tag in
      let call :=
        {| call_pass := p;
           call_frame := is_HAL_OK (HAL_ETH_GetReceivedFrame_IT heth).1;
           call_result := r |} in
      match rx_outcome_of r with
      | Faults =>
          {| run_trace := own; run_calls := [call]; run_end := Loop_faults |}
      | Returns None =>
          {| run_trace := own ++ [Sys (eth_rx_returned false)];
             run_calls := [call]; run_end := Loop_exits |}
      | Returns (Some _) =>
          let k := rx_receive cfg rest (rx_heth r) (rx_vlan_tag r) in
          {| run_trace := own ++ Sys (eth_rx_returned true)
                          :: deliver (recv_res p) ++ run_trace k;
             run_calls := call :: run_calls k;
             run_end := run_end k |}
      end
  end.

End RxLoop.

End EthObs.

(** ** The benchmarks' own loops
    (tests/benchmarks/timing_info/src/msg_passing_bench.c, semaphore_bench.c) *)

Module Bench.

Definition INT_MAX : Z := 2147483647.

(** [thread_producer_get_msgq_w_cxt_switch]:
    [while (1) { if (status == 0) data_to_send++;
                 status = k_msgq_put(&benchmark_q_get, &data_to_send, K_MSEC(20)); }]
    run against the statuses the successive puts return.  Each turn is
    logged as the value offered and the status returned; the result is
    [None] when the increment would leave the range of [int]. *)
Fixpoint producer_loop (puts : list Z) (status data_to_send : Z)
    : option (list (Z * Z) * (Z * Z)) :=
  match puts with
  | [] => Some ([], (status, data_to_send))
  | r :: rest =>
      if (status =? 0) && (INT_MAX <=? data_to_send) then None
      else
        let data_to_send :=
          if status =? 0 then data_to_send + 1 else data_to_send in
        match producer_loop rest r data_to_send with
        | Some (log, st) => Some ((data_to_send, r) :: log, st)
        | None => None
        end
  end.

(** [int status = 0;] before the loop. *)
Definition thread_producer_get_msgq_w_cxt_switch (puts : list Z)
    (data_to_send : Z) : option (list (Z * Z) * (Z * Z)) :=
  producer_loop puts 0 data_to_send.

(** The values the queue accepted, in order. *)
Definition accepted (log : list (Z * Z)) : list Z :=
  map fst (List.filter (fun e => snd e =? 0) log).

Definition consecutive_from (d : Z) (k : nat) : list Z :=
  map (fun j => d + Z.of_nat j) (seq 0 k).

(** Number of puts that returned 0. *)
Definition zero_statuses (puts : list Z) : nat :=
  length (List.filter (fun r => r =? 0) puts).

(** One sample of [mutex_bench]: the uptime before and after the
    lock/unlock pair, and what [CALCULATE_CYCLES(mutex, lock)] and
    [CALCULATE_CYCLES(mutex, unlock)] evaluate to for it. *)
Record sample : Type := mk_sample {
  before : Z;
  after : Z;
  lock_cycles : Z;
  unlock_cycles : Z
}.

Definition u64 (x : Z) : Z := x mod 2 ^ 64.
Definition u32 (x : Z) : Z := x mod 2 ^ 32.

(** The accumulators [count], [mutex_lock_diff], [mutex_unlock_diff]. *)
Record totals : Type := mk_totals {
  count : Z;
  mutex_lock_diff : Z;
  mutex_unlock_diff : Z
}.

(** The body of the [for] loop after the two measurements:
    [if (after - before) continue; count++; ..._diff += CALCULATE_CYCLES(...)]. *)
Definition mutex_bench_step (t : totals) (s : sample) : totals :=
  if negb (after s - before s =? 0) then t
  else {| count := u32 (count t + 1);
          mutex_lock_diff := u64 (mutex_lock_diff t + lock_cycles s);
          mutex_unlock_diff := u64 (mutex_unlock_diff t + unlock_cycles s) |}.

(** [mutex_bench] over its samples (1000 in the source): the two averages
    it prints, or [None] where it divides by a zero [count]. *)
Definition mutex_bench (samples : list sample) : option (Z * Z) :=
  let t := fold_left mutex_bench_step samples (mk_totals 0 0 0) in
  if count t =? 0 then None
  else Some (u32 (mutex_lock_diff t / count t),
             u32 (mutex_unlock_diff t / count t)).

Definition tick_free (s : sample) : bool := after s - before s =? 0.

(** The accumulators hold a [uint32_t] and two [uint64_t]. *)
Definition totals_in_range (t : totals) : Prop :=
  0 <= count t < 2 ^ 32
  /\ 0 <= mutex_lock_diff t < 2 ^ 64 /\ 0 <= mutex_unlock_diff t < 2 ^ 64.

Definition sum_of (f : sample -> Z) (l : list sample) : Z :=
  fold_right (fun s acc => f s + acc) 0 l.

End Bench.

(** ** Device MMIO regions (include/sys/device_mmio.h) *)

Module DeviceMmio.

(** The configuration switches the header branches on, and the width in
    bits of [uintptr_t], [size_t] and [mm_reg_t] on the target. *)
Record mmio_config : Type := mk_mmio_config {
  CONFIG_MMU : bool;
  CONFIG_PCIE : bool;
  uintptr_bits : Z
}.

(** Conversion to the unsigned types of the header. *)
Definition to_uintptr_t (c : mmio_config) (v : Z) : Z := v mod 2 ^ uintptr_bits c.
Definition to_uint32_t (v : Z) : Z := v mod 2 ^ 32.

(** [#if defined(CONFIG_MMU) || defined(CONFIG_PCIE)] *)
Definition DEVICE_MMIO_IS_IN_RAM (c : mmio_config) : bool :=
  CONFIG_MMU c || CONFIG_PCIE c.

(** [struct z_device_mmio_rom]: physical address and size when the linear
    address is kept in RAM, the linear address itself otherwise. *)
Inductive z_device_mmio_rom : Type :=
| rom_region (phys_addr size : Z)
| rom_linear (addr : Z).

(** The initializer stores the device-tree values in members of type
    [uintptr_t], [size_t] and [mm_reg_t]. *)
Definition Z_DEVICE_MMIO_ROM_INITIALIZER (c : mmio_config)
    (DT_INST_REG_ADDR DT_INST_REG_SIZE : Z) : z_device_mmio_rom :=
  if DEVICE_MMIO_IS_IN_RAM c
  then rom_region (to_uintptr_t c DT_INST_REG_ADDR)
                  (to_uintptr_t c DT_INST_REG_SIZE)
  else rom_linear (to_uintptr_t c DT_INST_REG_ADDR).

(** A device with named regions: the [DEVICE_MMIO_NAMED_ROM] members of
    its config_info and the [DEVICE_MMIO_NAMED_RAM] members of its dev_data,
    by member (a number stands for the member name). *)
Record device : Type := mk_device {
  config_info : gmap nat z_device_mmio_rom;
  driver_data : gmap nat Z
}.

Record map_request : Type := mk_request {
  req_phys : Z;
  req_size : Z;
  req_flags : Z
}.

Section WithKernel.

(** [k_mem_map(linear_addr, phys_addr, size, flags)], with [flags] a
    [uint32_t]: the linear address the kernel picks for a region.
    [K_MEM_PERM_RW] is the access flag of sys/mem_manage.h. *)
Variable k_mem_map : Z -> Z -> Z -> Z.
Variable K_MEM_PERM_RW : Z.

(** [device_map(virt_addr, phys_addr, size, flags)]: the value stored to
    [*virt_addr] and the mapping requested from the kernel, if any.  The
    arguments are converted to the parameter types ([uintptr_t], [size_t],
    [uint32_t]), and [flags | K_MEM_PERM_RW] to the [uint32_t] parameter of
    [k_mem_map]. *)
Definition device_map (c : mmio_config) (phys_addr size flags : Z)
    : Z * list map_request :=
  let phys_addr := to_uintptr_t c phys_addr in
  let size := to_uintptr_t c size in
  let flags := to_uint32_t flags in
  if CONFIG_MMU c then
    let map_flags := to_uint32_t (Z.lor flags K_MEM_PERM_RW) in
    (k_mem_map phys_addr size map_flags,
     [mk_request phys_addr size map_flags])
  else (phys_addr, []).

(** [DEVICE_MMIO_NAMED_MAP(device, name, flags)]; [None] where the macro
    does not apply (no such member). *)
Definition DEVICE_MMIO_NAMED_MAP (c : mmio_config) (dev : device) (name : nat)
    (flags : Z) : option (device * list map_request) :=
  if DEVICE_MMIO_IS_IN_RAM c then
    match config_info dev !! name with
    | Some (rom_region phys_addr size) =>
        let '(virt, reqs) := device_map c phys_addr size flags in
        Some ({| config_info := config_info dev;
                 driver_data := <[name := virt]> (driver_data dev) |}, reqs)
    | _ => None
    end
  else Some (dev, []).

(** [DEVICE_MMIO_NAMED_GET(device, name)] *)
Definition DEVICE_MMIO_NAMED_GET (c : mmio_config) (dev : device) (name : nat)
    : option Z :=
  if DEVICE_MMIO_IS_IN_RAM c then driver_data dev !! name
  else
    match config_info dev !! name with
    | Some (rom_linear addr) => Some addr
    | _ => None
    end.

End WithKernel.

(** [DEVICE_MMIO_NAMED_ROM_INIT(name, instance)] on a config_info. *)
Definition DEVICE_MMIO_NAMED_ROM_INIT (c : mmio_config) (name : nat)
    (reg_addr reg_size : Z) (rom : gmap nat z_device_mmio_rom)
    : gmap nat z_device_mmio_rom :=
  <[name := Z_DEVICE_MMIO_ROM_INITIALIZER c reg_addr reg_size]> rom.

End DeviceMmio.

(** * Properties *)

(** ** Semaphore *)

Section SemFacts.
Import Sem.

Lemma take_level c t s e s' :
  sem_inv s -> k_sem_take c t s = (e, s') ->
  sem_inv s' /\ level s' = level s + delta (TakeE e) /\ limit s' = limit s
  /\ (count s' <= count s)%N.
Proof.
  unfold k_sem_take, sem_inv, level. intros Hinv H.
  destruct (0 <? count s)%N eqn:Hc.
  - apply N.ltb_lt in Hc. inversion H; subst; clear H. cbn.
    destruct Hinv as [Hz | Hq]; [lia |]. rewrite Hq. cbn.
    repeat split; auto; lia.
  - apply N.ltb_ge in Hc.
    destruct t; inversion H; subst; clear H; cbn;
      rewrite ?length_app; cbn; repeat split; auto; try lia; left; lia.
Qed.

Lemma give_level s e s' :
  sem_inv s -> k_sem_give s = (e, s') ->
  sem_inv s' /\ level s' = level s + delta (GiveE e) /\ limit s' = limit s
  /\ (count s' <= N.max (count s) (limit s))%N.
Proof.
  unfold k_sem_give, sem_inv, level. intros Hinv H.
  destruct (wait_q s) as [| w rest] eqn:Hq.
  - destruct (count s <? limit s)%N eqn:Hc.
    + apply N.ltb_lt in Hc. inversion H; subst; clear H. cbn.
      repeat split; auto; lia.
    + inversion H; subst; clear H. rewrite Hq. cbn.
      repeat split; auto; lia.
  - destruct Hinv as [Hz | Hn]; [| discriminate].
    inversion H; subst; clear H. cbn. repeat split; auto; lia.
Qed.

Lemma step_level o s e s' :
  sem_inv s -> step o s = (e, s') ->
  sem_inv s' /\ level s' = level s + delta e /\ limit s' = limit s
  /\ (count s' <= N.max (count s) (limit s))%N.
Proof.
  intros Hinv H. destruct o as [c t |]; cbn in H.
  - destruct (k_sem_take c t s) as [e0 s0] eqn:Ht. inversion H; subst.
    destruct (take_level _ _ _ _ _ Hinv Ht) as (? & ? & ? & ?).
    repeat split; auto; lia.
  - destruct (k_sem_give s) as [e0 s0] eqn:Hg. inversion H; subst.
    exact (give_level _ _ _ Hinv Hg).
Qed.

Lemma replay_level ops : forall s es s',
  sem_inv s -> replay ops s = (es, s') ->
  sem_inv s' /\ level s' = level s + balance es /\ limit s' = limit s
  /\ (count s' <= N.max (count s) (limit s))%N.
Proof.
  induction ops as [| o ops IH]; intros s es s' Hinv H; cbn in H.
  - inversion H; subst. cbn. repeat split; auto; lia.
  - destruct (step o s) as [e s1] eqn:Hs.
    destruct (replay ops s1) as [es1 s2] eqn:Hr.
    inversion H; subst; clear H.
    destruct (step_level _ _ _ _ Hinv Hs) as (Hi1 & Hl1 & Hm1 & Hb1).
    destruct (IH _ _ _ Hi1 Hr) as (Hi2 & Hl2 & Hm2 & Hb2).
    cbn [balance foldr]. fold (balance es1).
    split; [exact Hi2 |]. split; [lia |]. split; [congruence | lia].
Qed.

Lemma level_count s : sem_inv s -> Z.of_N (count s) = Z.max 0 (level s).
Proof.
  unfold sem_inv, level. intros [Hz | Hq].
  - rewrite Hz. lia.
  - rewrite Hq. cbn. lia.
Qed.

(** Replays with timeouts. *)



Lemma timeout_eqb_refl t : timeout_eqb t t = true.
Proof. destruct t; cbn; auto. apply N.eqb_refl. Qed.






(** A replay without timeouts is a replay of the calls alone. *)
Lemma run_calls_replay ops : forall st,
  sem (run (map Call ops) st).2 = (replay ops (sem st)).2
  /\ map did (run (map Call ops) st).1 = map Did (replay ops (sem st)).1.
Proof.
  induction ops as [| o ops IH]; intros st; cbn [map run replay]; [auto |].
  assert (Hs : (tstep (Call o) st).1 = Did (step o (sem st)).1
               /\ sem (tstep (Call o) st).2 = (step o (sem st)).2).
  { destruct o as [c t |]; cbn [tstep step].
    - destruct (k_sem_take c t (sem st)); auto.
    - destruct (k_sem_give (sem st)); auto. }
  destruct (tstep (Call o) st) as [m st1]. destruct (step o (sem st)) as [e s1].
  cbn [fst snd] in Hs. destruct Hs as [-> <-].
  specialize (IH st1). destruct (run (map Call ops) st1) as [log st2].
  destruct (replay ops (sem st1)) as [es s2]. cbn [fst snd map did] in *.
  destruct IH as [-> ->]. auto.
Qed.


Lemma step_effect_kind o s :
  match (step o s).1 with
  | GiveE _ => is_give o = true
  | TakeE _ => is_give o = false
  end.
Proof.
  destruct o as [c t |]; cbn.
  - destruct (k_sem_take c t s). reflexivity.
  - destruct (k_sem_give s). reflexivity.
Qed.

Lemma replay_effective_balance ops : forall s,
  forallb effective (replay ops s).1 = true ->
  balance (replay ops s).1 = gives ops - takes ops.
Proof.
  unfold gives, takes.
  induction ops as [| o ops IH]; intros s H; cbn [replay] in *; [reflexivity |].
  pose proof (step_effect_kind o s) as Hk.
  destruct (step o s) as [e s1]. specialize (IH s1).
  destruct (replay ops s1) as [es s2]. cbn [fst snd] in *.
  cbn [forallb] in H. apply andb_prop in H as [He Hes].
  cbn [balance foldr List.filter]. fold (balance es). rewrite (IH Hes).
  destruct e as [[| | t] | [w | |]]; cbn in He; try discriminate;
    rewrite Hk; cbn [negb length delta]; lia.
Qed.

(** When no give is dropped at the maximum and no take is refused, a
    semaphore that starts at 0 ends at gives minus takes, clamped at 0. *)
Lemma sem_replay_predicted (l : N) (ops : list op) :
  forallb effective (replay ops (K_SEM_DEFINE 0 l)).1 = true ->
  Z.of_N (count (replay ops (K_SEM_DEFINE 0 l)).2) = predicted_count ops.
Proof.
  intros Heff. unfold predicted_count.
  rewrite <- (replay_effective_balance _ _ Heff).
  destruct (replay ops (K_SEM_DEFINE 0 l)) as [es s'] eqn:Hr.
  assert (Hinv : sem_inv (K_SEM_DEFINE 0 l)) by (right; reflexivity).
  destruct (replay_level _ _ _ _ Hinv Hr) as (Hi & Hl & _ & _).
  cbn [fst snd]. rewrite (level_count _ Hi), Hl. reflexivity.
Qed.


(** Two more inputs on which the stated formula is off. *)
Example mbox_sem_starts_at_one :
  Z.of_N (count (replay [] mbox_sem).2) = 1 /\ predicted_count [] = 0.
Proof. split; reflexivity. Qed.

Example refused_take_then_give :
  Z.of_N (count (replay [Take 7%nat K_NO_WAIT; Give] sem_bench).2) = 1
  /\ predicted_count [Take 7%nat K_NO_WAIT; Give] = 0.
Proof. split; reflexivity. Qed.

(** A take on [sem_bench] that waits 10 ms and times out, then a give: the
    waiter gets TIMEOUT, and the give finds nobody waiting and counts. *)
Example timed_take_expires :
  let r := run [Call (Take 3%nat (K_MSEC 10)); Timeout_of 3%nat; Call Give]
             (start sem_bench) in
  map did r.1 = [Did (TakeE (Queued (K_MSEC 10))); Timed_out 3%nat;
                 Did (GiveE Incremented)]
  /\ map wakes (map did r.1) = [None; Some (3%nat, TIMEOUT); None]
  /\ count (sem r.2) = 1%N.
Proof. repeat split; reflexivity. Qed.

(** A thread waiting forever has no timeout to fire. *)
Example forever_take_never_expires :
  let r := run [Call (Take 3%nat K_FOREVER); Timeout_of 3%nat; Call Give]
             (start sem_bench) in
  map did r.1 = [Did (TakeE (Queued K_FOREVER)); No_timeout 3%nat;
                 Did (GiveE (Handed_off 3%nat))]
  /\ map wakes (map did r.1) = [None; None; Some (3%nat, SUCCESS)]
  /\ count (sem r.2) = 0%N.
Proof. repeat split; reflexivity. Qed.

End SemFacts.

(** ** Mutex *)

Section MutexFacts.
Import Mutex.

Variables (t : tid) (d : k_timeout_t).

Lemma lock_owned p k saved q :
  k_mutex_lock t d (owned_by p t k saved q)
    = (Return SUCCESS, owned_by p t (S k) saved q).
Proof. unfold k_mutex_lock, owned_by. cbn. now rewrite Nat.eqb_refl. Qed.

Lemma lock_n_owned p saved q n : forall k,
  lock_n n t d (owned_by p t k saved q)
    = (repeat (Return SUCCESS) n, owned_by p t (k + n) saved q).
Proof.
  induction n as [| n IH]; intros k; cbn [lock_n repeat].
  - now rewrite Nat.add_0_r.
  - rewrite lock_owned, IH. do 2 f_equal. lia.
Qed.

Lemma unlock_owned_deep p k saved q :
  k_mutex_unlock t (owned_by p t (S (S k)) saved q)
    = (SUCCESS, None, owned_by p t (S k) saved q).
Proof. unfold k_mutex_unlock, owned_by. cbn. now rewrite Nat.eqb_refl. Qed.

Lemma unlock_n_owned p saved q n : forall k,
  unlock_n n t (owned_by p t (S k + n) saved q)
    = (repeat SUCCESS n, owned_by p t (S k) saved q).
Proof.
  induction n as [| n IH]; intros k; cbn [unlock_n repeat].
  - now rewrite Nat.add_0_r.
  - replace (S k + S n)%nat with (S (S (k + n))) by lia.
    rewrite unlock_owned_deep.
    replace (S (k + n)) with (S k + n)%nat by lia.
    now rewrite IH.
Qed.

Lemma unlock_n_app a b : forall s,
  unlock_n (a + b) t s
    = let '(r1, s1) := unlock_n a t s in
      let '(r2, s2) := unlock_n b t s1 in
      (r1 ++ r2, s2).
Proof.
  induction a as [| a IH]; intros s; cbn [unlock_n Nat.add].
  - destruct (unlock_n b t s). reflexivity.
  - destruct (k_mutex_unlock t s) as [[r w] s1]. rewrite IH.
    destruct (unlock_n a t s1) as [r1 s2].
    destruct (unlock_n b t s2) as [r2 s3]. reflexivity.
Qed.

Lemma set_prio_same p x : set_prio p t (p t) x = p x.
Proof.
  unfold set_prio. destruct (Nat.eqb_spec x t); congruence.
Qed.

(** With "forever" a lock never fails: the caller owns the mutex at once
    or is pended without a timeout. *)
Lemma lock_forever_never_fails (caller : tid) (s : state) :
  (k_mutex_lock caller K_FOREVER s).1 = Return SUCCESS
  \/ (k_mutex_lock caller K_FOREVER s).1 = Pend K_FOREVER.
Proof.
  unfold k_mutex_lock. destruct (owner (mutex s)) as [o |]; [| now left].
  destruct (Nat.eqb o caller); [now left | now right].
Qed.

(** C4.  On a mutex that is unowned (nobody waiting), [n >= 1] locks by one
    thread followed by [n] unlocks all return success; after the locks the
    thread owns it at depth [n], after the unlocks it is unowned at depth 0
    with every priority as before; one more unlock by that thread fails
    with the not-owner error and changes nothing. *)
Theorem mutex_recursive_lock_unlock (n : nat) (p : tid -> Z) (m : k_mutex) :
  (1 <= n)%nat ->
  owner m = None -> wait_q m = [] ->
  let s0 := {| prio := p; mutex := m |} in
  let s1 := (lock_n n t d s0).2 in
  let s2 := (unlock_n n t s1).2 in
  (lock_n n t d s0).1 = repeat (Return SUCCESS) n
  /\ owner (mutex s1) = Some t /\ lock_count (mutex s1) = n
  /\ (unlock_n n t s1).1 = repeat SUCCESS n
  /\ owner (mutex s2) = None /\ lock_count (mutex s2) = 0%nat
  /\ wait_q (mutex s2) = []
  /\ (forall x, prio s2 x = p x)
  /\ k_mutex_unlock t s2 = (NOT_OWNER, None, s2).
Proof.
  intros Hn Hown Hq. destruct n as [| n]; [lia |]. clear Hn. cbn zeta.
  assert (Hl : lock_n (S n) t d {| prio := p; mutex := m |}
               = (repeat (Return SUCCESS) (S n),
                  owned_by p t (1 + n) (p t) [])).
  { cbn [lock_n]. unfold k_mutex_lock at 1. cbn [mutex prio].
    rewrite Hown, Hq. fold (owned_by p t 1 (p t) []).
    now rewrite lock_n_owned. }
  rewrite Hl. cbn [fst snd].
  assert (Hu : unlock_n (S n) t (owned_by p t (1 + n) (p t) [])
               = (repeat SUCCESS (S n),
                  {| prio := set_prio p t (p t);
                     mutex := {| owner := None; lock_count := 0;
                                 owner_orig_prio := p t; wait_q := [] |} |})).
  { replace (S n) with (n + 1)%nat at 1 by lia.
    rewrite unlock_n_app, unlock_n_owned. cbn [unlock_n].
    unfold k_mutex_unlock, owned_by. cbn. rewrite Nat.eqb_refl. cbn.
    f_equal. rewrite <- repeat_cons. reflexivity. }
  rewrite Hu. cbn [fst snd].
  repeat split; try reflexivity.
  intros x. cbn. apply set_prio_same.
Qed.

End MutexFacts.

(** The benchmark's thread locking [mutex0] three times with
    [K_MSEC(100)], then unlocking three times. *)
Lemma mutex_recursive_lock_unlock_witness :
  (1 <= 3)%nat
  /\ let s0 := {| Mutex.prio := fun _ => 2; Mutex.mutex := Mutex.K_MUTEX_DEFINE |} in
     let s2 := (Mutex.unlock_n 3 1%nat (Mutex.lock_n 3 1%nat (K_MSEC 100) s0).2).2 in
     Mutex.owner (Mutex.mutex s2) = None
     /\ Mutex.k_mutex_unlock 1%nat s2 = (NOT_OWNER, None, s2).
Proof.
  split; [lia |].
  pose proof (mutex_recursive_lock_unlock 1%nat (K_MSEC 100) 3 (fun _ => 2)
                Mutex.K_MUTEX_DEFINE ltac:(lia) eq_refl eq_refl) as H.
  cbn zeta in H. split; apply H.
Defined.

(** ** Message queue *)

Section MsgqFacts.
Import Msgq.

Lemma mod_wrap (a n : nat) :
  (0 < n)%nat -> (a < 2 * n)%nat ->
  (a mod n = if (a <? n)%nat then a else a - n)%nat.
Proof.
  intros Hn Ha. destruct (Nat.ltb_spec a n) as [Hlt | Hge].
  - apply Nat.mod_small; lia.
  - replace a with ((a - n) + 1 * n)%nat at 1 by lia.
    rewrite Nat.Div0.mod_add. apply Nat.mod_small. lia.
Qed.

Lemma ring_distinct (r i j n : nat) :
  (r < n)%nat -> (i < j)%nat -> (j < n)%nat ->
  ((r + i) mod n <> (r + j) mod n)%nat.
Proof.
  intros Hr Hij Hj. rewrite !mod_wrap by lia.
  destruct (Nat.ltb_spec (r + i) n), (Nat.ltb_spec (r + j) n); lia.
Qed.

Lemma put_spec c m t q :
  msgq_wf q -> (used_msgs q < max_msgs q)%nat ->
  exists q',
    k_msgq_put c m t q = (Return SUCCESS, head (get_wait_q q), q')
    /\ msgq_wf q' /\ contents q' = contents q ++ [m]
    /\ max_msgs q' = max_msgs q.
Proof.
  intros (Hlen & Hr & Hw & Hu) Hlt. unfold k_msgq_put.
  destruct (Nat.ltb_spec (used_msgs q) (max_msgs q)) as [_ | ?]; [| lia].
  eexists. split; [reflexivity |]. split; [| split; [| reflexivity]].
  - unfold msgq_wf; cbn. rewrite length_insert.
    repeat split; auto; try lia.
    rewrite Hw, Nat.Div0.add_mod_idemp_l. f_equal. lia.
  - unfold contents; cbn [used_msgs read_idx max_msgs].
    rewrite seq_S, map_app. cbn [Nat.add map]. f_equal.
    + apply map_ext_in. intros i Hi. apply in_seq in Hi.
      unfold slot; cbn [buffer]. rewrite list_lookup_insert_ne; [reflexivity |].
      rewrite Hw. intros Heq. symmetry in Heq. revert Heq.
      apply ring_distinct; lia.
    + unfold slot; cbn [buffer]. rewrite <- Hw.
      rewrite list_lookup_insert_eq; [reflexivity |].
      rewrite Hw. unfold msg in *. rewrite Hlen.
      apply Nat.mod_upper_bound. lia.
Qed.

Lemma get_spec c t q :
  msgq_wf q -> (0 < used_msgs q)%nat ->
  exists m q',
    k_msgq_get c t q = (Return SUCCESS, Some m, head (put_wait_q q), q')
    /\ msgq_wf q' /\ contents q = m :: contents q'
    /\ max_msgs q' = max_msgs q.
Proof.
  intros (Hlen & Hr & Hw & Hu) Hpos. unfold k_msgq_get.
  destruct (Nat.ltb_spec 0 (used_msgs q)) as [_ | ?]; [| lia].
  eexists _, _. split; [reflexivity |].
  destruct (used_msgs q) as [| u] eqn:Hused; [lia |].
  split; [| split; [| reflexivity]].
  - unfold msgq_wf; cbn [max_msgs buffer read_idx write_idx used_msgs pred].
    repeat split; auto; try lia.
    + apply Nat.mod_upper_bound. lia.
    + rewrite Hw, Nat.Div0.add_mod_idemp_l. f_equal. lia.
  - unfold contents; cbn [used_msgs read_idx max_msgs]. rewrite Hused.
    cbn [pred seq map]. f_equal.
    + unfold slot. rewrite Nat.add_0_r, Nat.mod_small by lia. reflexivity.
    + rewrite <- seq_shift, map_map. apply map_ext. intros i.
      unfold slot; cbn [buffer]. rewrite Nat.Div0.add_mod_idemp_l.
      do 3 f_equal. lia.
Qed.

Lemma put_all_contents c t ms : forall q q',
  msgq_wf q -> put_all c t ms q = Some q' ->
  msgq_wf q' /\ contents q' = contents q ++ ms
  /\ max_msgs q' = max_msgs q.
Proof.
  induction ms as [| m ms IH]; intros q q' Hwf H; cbn [put_all] in H.
  - inversion H; subst. now rewrite app_nil_r.
  - destruct (Nat.ltb_spec (used_msgs q) (max_msgs q)) as [Hlt | Hge].
    + destruct (put_spec c m t q Hwf Hlt) as (q1 & Hput & Hwf1 & Hc1 & Hm1).
      rewrite Hput in H. destruct (IH _ _ Hwf1 H) as (Hwf' & Hc' & Hm').
      split; [exact Hwf' |]. split; [| congruence].
      rewrite Hc', Hc1, <- app_assoc. reflexivity.
    + exfalso. unfold k_msgq_put in H.
      destruct (Nat.ltb_spec (used_msgs q) (max_msgs q)); [lia |].
      destruct t; discriminate.
Qed.

Lemma contents_length q : length (contents q) = used_msgs q.
Proof. unfold contents. now rewrite length_map, length_seq. Qed.

Lemma get_n_contents c t ms : forall q rest,
  msgq_wf q -> contents q = ms ++ rest ->
  (get_n (length ms) c t q).1 = map (fun m => (Return SUCCESS, Some m)) ms
  /\ msgq_wf (get_n (length ms) c t q).2
  /\ contents (get_n (length ms) c t q).2 = rest.
Proof.
  induction ms as [| m ms IH]; intros q rest Hwf Hc; cbn [length get_n map].
  - cbn. auto.
  - assert (Hpos : (0 < used_msgs q)%nat).
    { rewrite <- contents_length, Hc. cbn. lia. }
    destruct (get_spec c t q Hwf Hpos) as (m' & q1 & Hget & Hwf1 & Hc1 & _).
    rewrite Hget. rewrite Hc1 in Hc. cbn in Hc. inversion Hc; subst m'.
    destruct (IH q1 rest Hwf1 ltac:(assumption)) as (Ho & Hwf' & Hc').
    destruct (get_n (length ms) c t q1) as [rs q2]. cbn [fst snd] in *.
    rewrite Ho. auto.
Qed.

(** A put on a full queue and a get on an empty one leave the ring alone. *)
Lemma put_full_ring c m t q :
  (max_msgs q <= used_msgs q)%nat ->
  exists o w q',
    k_msgq_put c m t q = (o, w, q') /\ o <> Return SUCCESS
    /\ (msgq_wf q -> msgq_wf q') /\ contents q' = contents q.
Proof.
  intros Hfull. unfold k_msgq_put.
  destruct (Nat.ltb_spec (used_msgs q) (max_msgs q)); [lia |].
  destruct t; eexists _, _, _; (split; [reflexivity |]);
    (split; [discriminate |]);
    (split; [unfold msgq_wf; cbn; tauto | reflexivity]).
Qed.

Lemma get_empty_ring c t q :
  used_msgs q = 0%nat ->
  exists o w q',
    k_msgq_get c t q = (o, None, w, q')
    /\ (msgq_wf q -> msgq_wf q') /\ contents q' = contents q.
Proof.
  intros Hempty. unfold k_msgq_get.
  destruct (Nat.ltb_spec 0 (used_msgs q)); [lia |].
  destruct t; eexists _, _, _; (split; [reflexivity |]);
    (split; [unfold msgq_wf; cbn; tauto | reflexivity]).
Qed.

(** FIFO for any interleaving: what was in the queue followed by what the
    puts stored is what the gets handed out followed by what is left. *)
Lemma msgq_fifo_interleaved ops : forall q,
  msgq_wf q ->
  msgq_wf (run ops q).2
  /\ contents q ++ (run ops q).1.1 = (run ops q).1.2 ++ contents (run ops q).2.
Proof.
  induction ops as [| [c m t | c t] ops IH]; intros q Hwf; cbn [run].
  - cbn. now rewrite app_nil_r.
  - destruct (Nat.ltb_spec (used_msgs q) (max_msgs q)) as [Hlt | Hge].
    + destruct (put_spec c m t q Hwf Hlt) as (q1 & Hput & Hwf1 & Hc1 & _).
      rewrite Hput. destruct (IH q1 Hwf1) as [Hwf2 Hc2].
      destruct (run ops q1) as [[ins outs] q2]. cbn [fst snd] in *.
      split; [exact Hwf2 |]. rewrite <- Hc2, Hc1, <- app_assoc. reflexivity.
    + destruct (put_full_ring c m t q Hge) as (o & w & q1 & Hput & Ho & Hwf1 & Hc1).
      rewrite Hput. destruct (IH q1 (Hwf1 Hwf)) as [Hwf2 Hc2].
      destruct (run ops q1) as [[ins outs] q2]. cbn [fst snd] in *.
      split; [exact Hwf2 |]. rewrite <- Hc1.
      destruct o as [[] | ?]; try exact Hc2. congruence.
  - destruct (Nat.eq_dec (used_msgs q) 0%nat) as [Hz | Hnz].
    + destruct (get_empty_ring c t q Hz) as (o & w & q1 & Hget & Hwf1 & Hc1).
      rewrite Hget. destruct (IH q1 (Hwf1 Hwf)) as [Hwf2 Hc2].
      destruct (run ops q1) as [[ins outs] q2]. cbn [fst snd] in *.
      split; [exact Hwf2 |]. now rewrite <- Hc1.
    + destruct (get_spec c t q Hwf ltac:(lia)) as (m & q1 & Hget & Hwf1 & Hc1 & _).
      rewrite Hget. destruct (IH q1 Hwf1) as [Hwf2 Hc2].
      destruct (run ops q1) as [[ins outs] q2]. cbn [fst snd] in *.
      split; [exact Hwf2 |]. rewrite Hc1. cbn [app]. now rewrite Hc2.
Qed.

(** C5.  On a well-formed queue holding no message, if the puts of
    [m1, ..., mk] each complete with success one after the other, the next
    [k] gets succeed and return [m1, ..., mk] in that order (and leave the
    queue empty again). *)
Theorem msgq_fifo (producer consumer : tid) (tp tg : k_timeout_t)
    (ms : list msg) (q q' : k_msgq) :
  msgq_wf q -> used_msgs q = 0%nat ->
  put_all producer tp ms q = Some q' ->
  (get_n (length ms) consumer tg q').1
    = map (fun m => (Return SUCCESS, Some m)) ms
  /\ used_msgs (get_n (length ms) consumer tg q').2 = 0%nat.
Proof.
  intros Hwf Hempty Hput.
  destruct (put_all_contents _ _ _ _ _ Hwf Hput) as (Hwf' & Hc & _).
  assert (Hq : contents q = []).
  { unfold contents. now rewrite Hempty. }
  rewrite Hq in Hc. cbn in Hc.
  destruct (get_n_contents consumer tg ms q' [] Hwf') as (Ho & _ & Hc').
  { now rewrite app_nil_r. }
  split; [exact Ho |]. rewrite <- contents_length, Hc'. reflexivity.
Qed.

(** C6.  A put with "no-wait" on a queue whose count equals its capacity
    returns WOULD_BLOCK at once: the caller is not pended, no timeout is
    armed, nobody is woken, and the queue (ring, indices, count, both wait
    queues) is what it was. *)
Theorem msgq_put_full_no_wait (caller : tid) (m : msg) (q : k_msgq) :
  used_msgs q = max_msgs q ->
  k_msgq_put caller m K_NO_WAIT q = (Return WOULD_BLOCK, None, q)
  /\ blocks (k_msgq_put caller m K_NO_WAIT q).1.1 = false
  /\ arms_timeout (k_msgq_put caller m K_NO_WAIT q).1.1 = false.
Proof.
  intros Hfull. unfold k_msgq_put. rewrite Hfull, Nat.ltb_irrefl. auto.
Qed.

End MsgqFacts.

(** [benchmark_q_get] (capacity 3) receiving three successive values of
    [data_to_send]. *)
Lemma msgq_fifo_witness :
  exists q',
    Msgq.put_all 1%nat (K_MSEC 20) [1; 2; 3] Msgq.benchmark_q_get = Some q'
    /\ (Msgq.get_n 3 2%nat (K_MSEC 300) q').1
       = [(Return SUCCESS, Some 1); (Return SUCCESS, Some 2);
          (Return SUCCESS, Some 3)].
Proof.
  eexists. split; [reflexivity |].
  refine (proj1 (msgq_fifo 1%nat 2%nat (K_MSEC 20) (K_MSEC 300) [1; 2; 3]
                   Msgq.benchmark_q_get _ _ _ _)).
  - unfold Msgq.msgq_wf; cbn. repeat split; lia.
  - reflexivity.
  - reflexivity.
Defined.

(** [benchmark_q_get] filled to its capacity, then one more put with
    [K_NO_WAIT]. *)
Lemma msgq_put_full_no_wait_witness :
  let full := {| Msgq.max_msgs := 3; Msgq.buffer := [1; 2; 3];
                 Msgq.read_idx := 0; Msgq.write_idx := 0;
                 Msgq.used_msgs := 3;
                 Msgq.put_wait_q := []; Msgq.get_wait_q := [] |} in
  Msgq.put_all 1%nat (K_MSEC 20) [1; 2; 3] Msgq.benchmark_q_get = Some full
  /\ Msgq.k_msgq_put 1%nat 4 K_NO_WAIT full = (Return WOULD_BLOCK, None, full).
Proof.
  cbn zeta. split; [reflexivity |].
  apply (msgq_put_full_no_wait 1%nat 4). reflexivity.
Defined.

(** ** Ethernet driver: transmit path *)

Section EthTxFacts.
Import Eth.

Lemma wait_tx_desc_spec reads :
  no_mutex_call (wait_tx_desc reads).1 = true
  /\ (wait_tx_desc reads).2
     = existsb (fun st => negb (IS_ETH_DMATXDESC_OWN st)) reads.
Proof.
  induction reads as [| st rest [IHt IHf]]; cbn [wait_tx_desc existsb].
  - auto.
  - destruct (IS_ETH_DMATXDESC_OWN st); cbn [negb orb]; [| auto].
    destruct (wait_tx_desc rest) as [tr free]. cbn in *. auto.
Qed.

Lemma no_mutex_call_app a b :
  no_mutex_call (a ++ b) = no_mutex_call a && no_mutex_call b.
Proof. apply forallb_app. Qed.

Lemma tx_exit_shape body res :
  no_mutex_call body = true ->
  exists body',
    (tx_exit (lock_tx :: body) res).1
      = lock_tx :: body' ++ exit_unlock (tx_exit (lock_tx :: body) res).2
    /\ no_mutex_call body' = true.
Proof. intros H. exists body. cbn. auto. Qed.

Lemma eth_tx_shape (cfg : config) (env : tx_env) :
  (exists body,
    (eth_tx cfg env).1 = lock_tx :: body ++ exit_unlock (eth_tx cfg env).2
    /\ no_mutex_call body = true)
  /\ returned (eth_tx cfg env).2
     = (ETH_TX_BUF_SIZE cfg <? total_len env)
       || existsb (fun st => negb (IS_ETH_DMATXDESC_OWN st)) (tx_desc_status env).
Proof.
  unfold eth_tx.
  destruct (ETH_TX_BUF_SIZE cfg <? total_len env) eqn:Hbig.
  { split; [| reflexivity]. cbn [app]. apply tx_exit_shape. reflexivity. }
  destruct (wait_tx_desc_spec (tx_desc_status env)) as [Hnm Hfree].
  destruct (wait_tx_desc (tx_desc_status env)) as [spin free].
  cbn [fst snd] in Hnm, Hfree. rewrite <- Hfree. cbn [orb app].
  destruct free; cbn [negb].
  2:{ split; [| reflexivity]. exists (Sys net_pkt_get_len :: spin).
      cbn. rewrite app_nil_r. auto. }
  assert (Hret : forall tr res, returned (tx_exit tr res).2 = true)
    by reflexivity.
  destruct (CONFIG_SOC_SERIES_STM32H7X cfg);
    destruct (net_pkt_read_rc env =? 0); cbn [negb];
    try destruct (is_HAL_OK (hal_transmit_ret env)); cbn [negb];
    try destruct (Z.land (tx_DMASR env) ETH_DMASR_TUS =? 0); cbn [negb];
    (split; [| apply Hret]);
    cbn [app]; apply tx_exit_shape;
    cbn [no_mutex_call forallb is_mutex_call negb andb];
    fold (no_mutex_call (spin ++ [Hw tx_desc_read]));
    rewrite ?forallb_app; fold (no_mutex_call spin); rewrite ?Hnm;
    reflexivity.
Qed.

Lemma no_mutex_call_counts body :
  no_mutex_call body = true ->
  count_events is_lock_tx body = 0%nat /\ count_events is_unlock_tx body = 0%nat.
Proof.
  unfold count_events.
  induction body as [| e body IH]; cbn [no_mutex_call forallb]; [auto |].
  intros H. apply andb_prop in H as [He Hb]. destruct (IH Hb) as [Hl Hu].
  destruct e as [[] | | |]; cbn in He; try discriminate; cbn; auto.
Qed.

Lemma count_events_app f a b :
  count_events f (a ++ b) = (count_events f a + count_events f b)%nat.
Proof. unfold count_events. now rewrite List.filter_app, length_app. Qed.

(** C2.  Whatever the packet, the DMA engine and the HAL answer, the
    events of a call of [eth_tx] start with the lock of [tx_mutex] (with
    [K_FOREVER]); no other mutex call follows except the one unlock of
    [tx_mutex] that ends every run that returns, so all descriptor, buffer
    and register accesses lie between the two: one lock, and one unlock on
    every return path, success or error.  The call returns exactly when the
    packet is too big or the descriptor is seen free. *)
Theorem eth_tx_holds_tx_mutex (cfg : config) (env : tx_env) :
  (exists body,
    (eth_tx cfg env).1 = lock_tx :: body ++ exit_unlock (eth_tx cfg env).2
    /\ no_mutex_call body = true)
  /\ count_events is_lock_tx (eth_tx cfg env).1 = 1%nat
  /\ count_events is_unlock_tx (eth_tx cfg env).1
     = (if returned (eth_tx cfg env).2 then 1 else 0)%nat
  /\ returned (eth_tx cfg env).2
     = (ETH_TX_BUF_SIZE cfg <? total_len env)
       || existsb (fun st => negb (IS_ETH_DMATXDESC_OWN st)) (tx_desc_status env).
Proof.
  destruct (eth_tx_shape cfg env) as [(body & Htr & Hnm) Hret].
  split; [exists body; auto |].
  destruct (no_mutex_call_counts body Hnm) as [Hl Hu].
  rewrite Htr. change (lock_tx :: body ++ exit_unlock (eth_tx cfg env).2)
    with ([lock_tx] ++ body ++ exit_unlock (eth_tx cfg env).2).
  rewrite !count_events_app, Hl, Hu.
  split; [| split; [| exact Hret]];
    destruct (eth_tx cfg env).2; reflexivity.
Qed.

(** C9.  A packet longer than [ETH_TX_BUF_SIZE] makes [eth_tx] return
    [-EIO] after nothing but lock, length query, log and unlock: no copy
    into the DMA buffer, no hardware access, no transmit call. *)
Theorem eth_tx_too_big (cfg : config) (env : tx_env) :
  ETH_TX_BUF_SIZE cfg < total_len env ->
  eth_tx cfg env
    = ([lock_tx; Sys net_pkt_get_len; Sys LOG_ERR; unlock_tx], Some (- EIO))
  /\ forallb (fun e => negb (is_tx_copy_or_start e || is_hw_access e))
       (eth_tx cfg env).1 = true.
Proof.
  intros Hbig. unfold eth_tx.
  destruct (Z.ltb_spec (ETH_TX_BUF_SIZE cfg) (total_len env)); [| lia].
  split; reflexivity.
Qed.

End EthTxFacts.

(** ** Ethernet driver: receive path *)

Section EthRxFacts.
Import Eth.

Implicit Types mem : gmap Z ETH_DMADescTypeDef.

Lemma give_to_dma_owns d : Z.testbit (Status (give_to_dma d)) 31 = true.
Proof.
  unfold give_to_dma; cbn [Status]. rewrite Z.lor_spec. apply orb_true_r.
Qed.

Lemma dma_owns_insert mem p d a :
  mem !! p = Some d ->
  dma_owns mem a = true ->
  dma_owns (<[p := give_to_dma d]> mem) a = true.
Proof.
  unfold dma_owns. intros Hp Ha.
  destruct (decide (p = a)) as [-> | Hne].
  - rewrite lookup_insert_eq. apply give_to_dma_owns.
  - rewrite lookup_insert_ne by done. exact Ha.
Qed.

Lemma release_descs_keeps n : forall p mem mem' a,
  release_descs n p mem = Some mem' ->
  dma_owns mem a = true -> dma_owns mem' a = true.
Proof.
  induction n as [| n IH]; intros p mem mem' a H Ha; cbn in H.
  - now inversion H; subst.
  - destruct (mem !! p) as [d |] eqn:Hp; [| discriminate].
    eapply IH; [exact H |]. now apply dma_owns_insert.
Qed.

(** Handing a descriptor to the DMA engine leaves the chain as it is. *)
Lemma desc_chain_insert n : forall q mem p d,
  mem !! p = Some d ->
  desc_chain n q (<[p := give_to_dma d]> mem) = desc_chain n q mem.
Proof.
  induction n as [| n IH]; intros q mem p d Hp; cbn; [reflexivity |].
  destruct (decide (p = q)) as [-> | Hne].
  - rewrite lookup_insert_eq, Hp. cbn. now rewrite IH.
  - rewrite lookup_insert_ne by done.
    destruct (mem !! q) as [dq |]; [| reflexivity]. now rewrite IH.
Qed.

Lemma release_descs_chain n : forall p mem addrs,
  desc_chain n p mem = Some addrs ->
  exists mem',
    release_descs n p mem = Some mem'
    /\ forallb (dma_owns mem') addrs = true
    /\ length addrs = n.
Proof.
  induction n as [| n IH]; intros p mem addrs H; cbn in H |- *.
  - inversion H; subst. eauto.
  - destruct (mem !! p) as [d |] eqn:Hp; [| discriminate].
    destruct (desc_chain n (Buffer2NextDescAddr d) mem) as [rest |] eqn:Hc;
      [| discriminate].
    inversion H; subst; clear H.
    rewrite <- (desc_chain_insert n _ mem p d Hp) in Hc.
    destruct (IH _ _ _ Hc) as (mem' & Hrel & Hown & Hlen).
    exists mem'. split; [exact Hrel |]. split; [| cbn; lia].
    cbn [forallb]. rewrite Hown, andb_true_r.
    eapply release_descs_keeps; [exact Hrel |].
    unfold dma_owns. rewrite lookup_insert_eq. apply give_to_dma_owns.
Qed.

Variable HAL_ETH_GetReceivedFrame_IT :
  ETH_HandleTypeDef -> HAL_StatusTypeDef * ETH_HandleTypeDef.

(** C8.  When the HAL hands a frame to [eth_rx] (status [HAL_OK]) and the
    [SegCount] descriptors of the frame are chained from [FSRxDesc], the
    handle [eth_rx] leaves behind has the OWN bit set on each of them and
    [SegCount = 0], whether or not the packet allocation and the copy
    succeed, in every configuration.  What a failed allocation or copy then
    does depends on [CONFIG_NET_VLAN]: without it [eth_rx] returns NULL and
    counts a receive error; with it the VLAN block reads the Ethernet
    header through the NULL packet ([NET_ETH_HDR(pkt)], lines 377-379)
    before the [if (!pkt)] of line 397 is reached, so NULL is never
    returned and no error is counted. *)
Theorem eth_rx_releases_descriptors (cfg : config) (env : rx_env)
    (heth heth1 : ETH_HandleTypeDef) (vlan_tag : Z) (addrs : list Z) :
  HAL_ETH_GetReceivedFrame_IT heth = (HAL_OK, heth1) ->
  desc_chain (SegCount (RxFrameInfos heth1)) (FSRxDesc (RxFrameInfos heth1))
    (rx_desc_mem heth1) = Some addrs ->
  let r := eth_rx HAL_ETH_GetReceivedFrame_IT cfg env heth vlan_tag in
  length addrs = SegCount (RxFrameInfos heth1)
  /\ forallb (dma_owns (rx_desc_mem (rx_heth r))) addrs = true
  /\ SegCount (RxFrameInfos (rx_heth r)) = 0%nat
  /\ (alloc_ok env && (net_pkt_write_rc env =? 0) = false ->
      rx_outcome_of r = (if CONFIG_NET_VLAN cfg then Faults else Returns None)
      /\ rx_error_counted r = negb (CONFIG_NET_VLAN cfg)).
Proof.
  intros Hhal Hchain. cbn zeta. unfold eth_rx. rewrite Hhal. cbn [is_HAL_OK negb].
  destruct (release_descs_chain _ _ _ _ Hchain) as (mem' & Hrel & Hown & Hlen).
  rewrite Hrel. split; [exact Hlen |].
  destruct (negb (Z.land (DMASR (set_rx_state heth1 mem' 0)) ETH_DMASR_RBUS =? 0));
    destruct (CONFIG_NET_VLAN cfg);
    destruct (alloc_ok env); destruct (net_pkt_write_rc env =? 0);
    try destruct (frame_vlan_tci env);
    cbn; (split; [exact Hown |]); (split; [reflexivity |]);
    intros; try discriminate; auto.
Qed.

End EthRxFacts.

(** The two-segment sample frame on a build with [CONFIG_NET_VLAN], with
    the packet allocation failing: both descriptors go back to the DMA
    engine and [SegCount] is cleared, but the call does not return NULL. *)
Lemma eth_rx_releases_descriptors_witness :
  let cfg := Eth.mk_config false true false false 1524 4 500 in
  let env := Eth.mk_rx_env false 0 None in
  let r := Eth.eth_rx Eth.sample_HAL cfg env Eth.sample_handle 0 in
  Eth.dma_owns (Eth.rx_desc_mem Eth.sample_handle) 0x110 = false
  /\ forallb (Eth.dma_owns (Eth.rx_desc_mem (Eth.rx_heth r))) [0x110; 0x120] = true
  /\ Eth.SegCount (Eth.RxFrameInfos (Eth.rx_heth r)) = 0%nat
  /\ Eth.rx_outcome_of r = Eth.Faults
  /\ Eth.rx_outcome_of r <> Eth.Returns None
  /\ Eth.rx_error_counted r = false.
Proof.
  cbn zeta.
  pose proof (eth_rx_releases_descriptors Eth.sample_HAL
                (Eth.mk_config false true false false 1524 4 500)
                (Eth.mk_rx_env false 0 None)
                Eth.sample_handle Eth.sample_handle 0 [0x110; 0x120]
                eq_refl ltac:(vm_compute; reflexivity)) as H.
  cbn zeta in H. destruct H as (_ & Hown & Hseg & Hret).
  destruct (Hret eq_refl) as [Hout Herr].
  cbn [Eth.CONFIG_NET_VLAN negb] in Hout, Herr.
  split; [vm_compute; reflexivity |].
  split; [exact Hown |]. split; [exact Hseg |].
  split; [exact Hout |]. split; [rewrite Hout; discriminate | exact Herr].
Defined.

(** ** Ethernet driver: receive thread, interrupt, initialisation *)

Section EthThreadFacts.
Import Eth.

Lemma carrier_reports_app a b :
  carrier_reports (a ++ b) = carrier_reports a ++ carrier_reports b.
Proof.
  induction a as [| e a IH]; [reflexivity |].
  destruct e as [c | h | c | []]; cbn; rewrite ?IH; reflexivity.
Qed.

Lemma carrier_reports_rx_loop frames : carrier_reports (rx_loop frames) = [].
Proof.
  induction frames as [| res rest IH]; [reflexivity |].
  cbn. destruct (res <? 0); cbn; exact IH.
Qed.

Lemma last_cons (x : bool) l : forall d, List.last (x :: l) d = List.last l x.
Proof.
  revert x. induction l as [| y l IH]; intros x d; [reflexivity |].
  change (List.last (x :: y :: l) d) with (List.last (y :: l) d).
  now rewrite !IH.
Qed.

Lemma alternates_app a : forall prev b,
  alternates prev (a ++ b) = alternates prev a && alternates (List.last a prev) b.
Proof.
  induction a as [| r a IH]; intros prev b; [reflexivity |].
  cbn [app alternates]. now rewrite IH, andb_assoc, last_cons.
Qed.

Lemma last_app_default (a b : list bool) : forall d,
  List.last (a ++ b) d = List.last b (List.last a d).
Proof.
  induction a as [| x a IH]; intros d; [reflexivity |].
  cbn [app]. now rewrite !last_cons, IH.
Qed.

(** One turn of the loop reports the carrier exactly when it changes
    [link_up], and reports the new value. *)
Lemma rx_thread_iteration_reports cfg i link_up :
  carrier_reports (rx_thread_iteration cfg i link_up).1
    = if Bool.eqb link_up (rx_thread_iteration cfg i link_up).2
      then [] else [(rx_thread_iteration cfg i link_up).2].
Proof.
  unfold rx_thread_iteration, carrier_on, carrier_off.
  destruct (sem_take_res i =? 0).
  - destruct link_up; cbn; rewrite carrier_reports_rx_loop; reflexivity.
  - destruct (sem_take_res i =? - EAGAIN); [| destruct link_up; reflexivity].
    destruct (is_HAL_OK (phy_read_ret i)); [| destruct link_up; reflexivity].
    destruct (Z.land (phy_status i) PHY_LINKED_STATUS =? PHY_LINKED_STATUS);
      destruct link_up; reflexivity.
Qed.

Lemma rx_thread_reports cfg iters : forall link_up,
  alternates link_up (carrier_reports (rx_thread cfg iters link_up).1) = true
  /\ (rx_thread cfg iters link_up).2
     = List.last (carrier_reports (rx_thread cfg iters link_up).1) link_up.
Proof.
  induction iters as [| i rest IH]; intros link_up; cbn [rx_thread].
  - auto.
  - pose proof (rx_thread_iteration_reports cfg i link_up) as Hi.
    destruct (rx_thread_iteration cfg i link_up) as [tr l1]. cbn [fst snd] in Hi.
    destruct (IH l1) as [Ha Hl].
    destruct (rx_thread cfg rest l1) as [tr' l2]. cbn [fst snd] in *.
    rewrite carrier_reports_app, alternates_app, last_app_default, Hi.
    destruct link_up, l1; cbn [Bool.eqb List.last alternates negb andb];
      rewrite Ha; auto.
Qed.

(** C10.  In a turn of [rx_thread]'s loop the carrier is reported exactly
    when [link_up] changes, and the report is the new value (carrier-on
    only from [link_up = false], carrier-off only from [true]); over any
    number of turns the reports alternate, starting opposite to the
    initial [link_up], and [link_up] ends as the last report. *)
Theorem rx_thread_carrier_alternates (cfg : config) (i : rx_iter)
    (iters : list rx_iter) (link_up : bool) :
  carrier_reports (rx_thread_iteration cfg i link_up).1
    = (if Bool.eqb link_up (rx_thread_iteration cfg i link_up).2
       then [] else [(rx_thread_iteration cfg i link_up).2])
  /\ alternates link_up (carrier_reports (rx_thread cfg iters link_up).1) = true
  /\ (rx_thread cfg iters link_up).2
     = List.last (carrier_reports (rx_thread cfg iters link_up).1) link_up.
Proof.
  split; [apply rx_thread_iteration_reports | apply rx_thread_reports].
Qed.

Lemma kernel_calls_app a b :
  kernel_calls (a ++ b) = kernel_calls a ++ kernel_calls b.
Proof.
  induction a as [| e a IH]; [reflexivity |].
  destruct e; cbn; rewrite ?IH; reflexivity.
Qed.

Lemma kernel_calls_callbacks fired :
  forallb is_give_rx_int_sem (kernel_calls (concat (map run_callback fired)))
    = true.
Proof.
  induction fired as [| cb rest IH]; [reflexivity |].
  cbn [map concat]. rewrite kernel_calls_app, forallb_app, IH.
  destruct cb; reflexivity.
Qed.

(** C3.  Whatever callbacks the HAL fires from [HAL_ETH_IRQHandler], the
    only kernel calls made by [eth_isr] and by [HAL_ETH_RxCpltCallback]
    are [k_sem_give] on [rx_int_sem]; and a [k_sem_give] returns to its
    caller at once, whatever the state of the semaphore and whichever way
    the maximum is handled. *)
Theorem eth_isr_only_gives (fired : list hal_callback)
    (p : Sem.limit_policy) (caller : tid) (s : Sem.k_sem) :
  forallb is_give_rx_int_sem (kernel_calls (eth_isr fired)) = true
  /\ kernel_calls HAL_ETH_RxCpltCallback = [k_sem_give rx_int_sem]
  /\ never_blocks p caller (k_sem_give rx_int_sem) s = true.
Proof.
  split; [| split].
  - unfold eth_isr. cbn [kernel_calls]. apply kernel_calls_callbacks.
  - reflexivity.
  - unfold never_blocks, sem_call.
    destruct (Sem.k_sem_give s) as [e s']. reflexivity.
Qed.

Lemma kernel_calls_rx_loop frames : kernel_calls (rx_loop frames) = [].
Proof.
  induction frames as [| res rest IH]; [reflexivity |].
  cbn. destruct (res <? 0); cbn; exact IH.
Qed.

Lemma calls_eth_rx_rx_loop frames : calls_eth_rx (rx_loop frames) = true.
Proof. destruct frames; reflexivity. Qed.

Lemma rx_thread_iteration_kernel_calls cfg i link_up :
  kernel_calls (rx_thread_iteration cfg i link_up).1
    = [k_sem_take rx_int_sem (rx_idle_timeout cfg)]
  /\ calls_eth_rx (rx_thread_iteration cfg i link_up).1 = (sem_take_res i =? 0).
Proof.
  unfold rx_thread_iteration, carrier_on, carrier_off, calls_eth_rx.
  destruct (sem_take_res i =? 0).
  - destruct link_up; cbn [negb fst kernel_calls app existsb orb];
      rewrite ?kernel_calls_rx_loop; (split; [reflexivity |]);
      apply calls_eth_rx_rx_loop.
  - destruct (sem_take_res i =? - EAGAIN); [| split; reflexivity].
    destruct (is_HAL_OK (phy_read_ret i)); [| split; reflexivity].
    destruct (Z.land (phy_status i) PHY_LINKED_STATUS =? PHY_LINKED_STATUS);
      destruct link_up; split; reflexivity.
Qed.

Lemma assign_rx_memory_kernel_calls ret n : forall i,
  kernel_calls (assign_rx_memory n i ret).1 = [].
Proof.
  induction n as [| n IH]; intros i; cbn [assign_rx_memory]; [reflexivity |].
  destruct (is_HAL_OK (ret i)); [| reflexivity].
  specialize (IH (S i)). destruct (assign_rx_memory n (S i) ret). exact IH.
Qed.

Lemma eth_initialize_kernel_calls cfg env link_up :
  exists sleeps,
    kernel_calls (eth_initialize cfg env link_up).1.1
      = (if init_proceeds cfg env then worker_setup ++ sleeps else [])
    /\ List.filter is_thread_create sleeps = [].
Proof.
  unfold eth_initialize, init_proceeds, init_finish, disable_mcast_filter.
  destruct (clocks_ret cfg env =? 0); cbn [negb andb].
  2:{ exists []. split; [| reflexivity]. cbn [fst].
      rewrite kernel_calls_app. destruct (CONFIG_SOC_SERIES_STM32H7X cfg);
        reflexivity. }
  pose proof (assign_rx_memory_kernel_calls (desc_assign_ret env)
                (ETH_RX_DESC_CNT cfg) 0) as Hassign.
  destruct (assign_rx_memory (ETH_RX_DESC_CNT cfg) 0 (desc_assign_ret env))
    as [atr ok]. cbn [fst] in Hassign.
  destruct (hal_init_ret env); cbn [is_HAL_OK is_HAL_TIMEOUT negb andb orb];
    try (exists []; split; [| reflexivity]; cbn [fst];
         rewrite !kernel_calls_app;
         destruct (CONFIG_SOC_SERIES_STM32H7X cfg),
           (CONFIG_ETH_STM32_HAL_RANDOM_MAC cfg),
           (CONFIG_NET_L2_CANBUS_ETH_TRANSLATOR cfg); reflexivity);
    (destruct (CONFIG_SOC_SERIES_STM32H7X cfg);
     [ destruct ok; [exists [k_sleep (K_MSEC 1)] | exists []]
     | exists [k_sleep (K_MSEC 1)] ]);
    (split; [| reflexivity]);
    cbn [negb fst]; rewrite !kernel_calls_app, ?Hassign;
    destruct (CONFIG_ETH_STM32_HAL_RANDOM_MAC cfg),
      (CONFIG_NET_L2_CANBUS_ETH_TRANSLATOR cfg),
      (is_HAL_OK (hal_start_ret env)); reflexivity.
Qed.

(** C7 (as amended).  [eth_initialize] creates the receive thread at most
    once: exactly once, right after initialising [tx_mutex] and
    [rx_int_sem] (count 0, limit [UINT_MAX]), when the clocks come on and
    [HAL_ETH_Init] succeeds or times out, and not at all on its two early
    exits.  Every turn of that thread makes one kernel call, the
    [k_sem_take] on [rx_int_sem] with the idle timeout, which comes first,
    and it calls [eth_rx] exactly when the take returned 0.  The callback
    gives that same semaphore.  On the freshly initialised semaphore the
    take pends the worker with its timeout armed, and the next give hands
    the semaphore to it. *)
Theorem eth_initialize_rx_worker (cfg : config) (env : init_env)
    (link_up : bool) (i : rx_iter) (l : bool) (worker : tid)
    (p : Sem.limit_policy) :
  let tr := (eth_initialize cfg env link_up).1.1 in
  let take := k_sem_take rx_int_sem (rx_idle_timeout cfg) in
  let waiting := Sem.mk_sem 0 UINT_MAX [worker] in
  thread_creates tr = (if init_proceeds cfg env then 1 else 0)%nat
  /\ firstn 3 (kernel_calls tr)
     = (if init_proceeds cfg env then worker_setup else [])
  /\ head (rx_thread_iteration cfg i l).1 = Some (Kernel take)
  /\ kernel_calls (rx_thread_iteration cfg i l).1 = [take]
  /\ calls_eth_rx (rx_thread_iteration cfg i l).1 = (sem_take_res i =? 0)
  /\ kernel_calls HAL_ETH_RxCpltCallback = [k_sem_give rx_int_sem]
  /\ sem_call p worker take (Sem.K_SEM_DEFINE 0 UINT_MAX)
     = Some (Pend (rx_idle_timeout cfg), waiting)
  /\ arms_timeout (Pend (rx_idle_timeout cfg)) = true
  /\ Sem.k_sem_give waiting
     = (Sem.Handed_off worker, Sem.K_SEM_DEFINE 0 UINT_MAX).
Proof.
  cbn zeta.
  destruct (eth_initialize_kernel_calls cfg env link_up) as (sleeps & Hk & Hs).
  destruct (rx_thread_iteration_kernel_calls cfg i l) as [Hcalls Hrx].
  repeat split; try reflexivity; try assumption.
  - unfold thread_creates. rewrite Hk.
    destruct (init_proceeds cfg env); [| reflexivity].
    rewrite List.filter_app, Hs. reflexivity.
  - rewrite Hk. destruct (init_proceeds cfg env); reflexivity.
  - unfold rx_thread_iteration, carrier_on, carrier_off.
    destruct (sem_take_res i =? 0); [destruct (negb l); reflexivity |].
    destruct (sem_take_res i =? - EAGAIN); [| reflexivity].
    destruct (is_HAL_OK (phy_read_ret i)); [| reflexivity].
    destruct (Z.land (phy_status i) PHY_LINKED_STATUS =? PHY_LINKED_STATUS);
      [destruct (negb l) | destruct l]; reflexivity.
Qed.

End EthThreadFacts.

(** C7 as stated fails when a clock cannot be enabled: [eth_initialize]
    returns [-EIO] before it reaches [k_thread_create]. *)
Lemma eth_initialize_clock_failure_counterexample :
  let cfg := Eth.mk_config false false false false 1524 4 500 in
  let env := Eth.mk_init_env (- Eth.EIO) 0 0 0 Eth.HAL_OK
               (fun _ => Eth.HAL_OK) Eth.HAL_OK in
  (Eth.eth_initialize cfg env false).1.2 = - Eth.EIO
  /\ Eth.thread_creates (Eth.eth_initialize cfg env false).1.1 <> 1%nat.
Proof. cbn zeta. split; [reflexivity | vm_compute; discriminate]. Qed.

(** A 2000-byte packet against 1524-byte transmit buffers. *)
Lemma eth_tx_too_big_witness :
  let cfg := Eth.mk_config false false false false 1524 4 500 in
  let env := Eth.mk_tx_env 2000 [0] 0 Eth.HAL_OK 0 in
  Eth.ETH_TX_BUF_SIZE cfg < Eth.total_len env
  /\ (Eth.eth_tx cfg env).2 = Some (- Eth.EIO).
Proof.
  cbn zeta. split; [reflexivity |].
  rewrite (proj1 (eth_tx_too_big
                    (Eth.mk_config false false false false 1524 4 500)
                    (Eth.mk_tx_env 2000 [0] 0 Eth.HAL_OK 0)
                    ltac:(reflexivity))).
  reflexivity.
Defined.

(** ** Worked runs *)

(** [semaphore_bench]: give then take on [sem_bench] without a context
    switch. *)
Example sem_bench_give_take :
  Sem.replay [Sem.Give; Sem.Take 0%nat (K_MSEC 10)] Sem.sem_bench
    = ([Sem.GiveE Sem.Incremented; Sem.TakeE Sem.Taken], Sem.sem_bench).
Proof. reflexivity. Qed.

(** [thread_sem1_give_test] waits on [sem_bench_1]; the give of
    [thread_sem0_give_test] hands the semaphore over without touching the
    counter. *)
Example sem_take_then_give_hands_off :
  Sem.replay [Sem.Take 5%nat (K_MSEC 1000); Sem.Give] Sem.sem_bench_1
    = ([Sem.TakeE (Sem.Queued (K_MSEC 1000)); Sem.GiveE (Sem.Handed_off 5%nat)],
       Sem.sem_bench_1).
Proof. reflexivity. Qed.

(** A second thread locking an owned mutex boosts the owner and waits. *)
Example mutex_priority_inheritance :
  let p := fun x : tid => if Nat.eqb x 1 then 5 else 2 in
  let s1 := (Mutex.k_mutex_lock 1%nat K_FOREVER
               {| Mutex.prio := p; Mutex.mutex := Mutex.K_MUTEX_DEFINE |}).2 in
  let r := Mutex.k_mutex_lock 2%nat K_FOREVER s1 in
  r.1 = Pend K_FOREVER
  /\ Mutex.prio r.2 1%nat = 2
  /\ Mutex.wait_q (Mutex.mutex r.2) = [2%nat]
  /\ (Mutex.k_mutex_unlock 1%nat r.2).1 = (SUCCESS, Some 2%nat)
  /\ Mutex.prio (Mutex.k_mutex_unlock 1%nat r.2).2 1%nat = 5
  /\ Mutex.owner (Mutex.mutex (Mutex.k_mutex_unlock 1%nat r.2).2) = Some 2%nat.
Proof. cbn. repeat split; reflexivity. Qed.

(** [benchmark_q_get] holds three messages; the fourth put with
    [K_MSEC(20)] pends the producer. *)
Example benchmark_q_get_fourth_put :
  (Msgq.run [Msgq.Put 1%nat 1 (K_MSEC 20); Msgq.Put 1%nat 2 (K_MSEC 20);
             Msgq.Put 1%nat 3 (K_MSEC 20)] Msgq.benchmark_q_get).1.1 = [1; 2; 3]
  /\ forall q, Msgq.put_all 1%nat (K_MSEC 20) [1; 2; 3] Msgq.benchmark_q_get = Some q ->
       (Msgq.k_msgq_put 1%nat 4 (K_MSEC 20) q).1.1 = Pend (K_MSEC 20).
Proof.
  split; [reflexivity |]. intros q H. inversion H; subst. reflexivity.
Qed.

(** The ring wraps: after two puts and two gets the next three puts use
    slots 2, 0, 1 and come out in order. *)
Example msgq_wraps_around :
  (Msgq.run [Msgq.Put 1%nat 10 K_NO_WAIT; Msgq.Put 1%nat 11 K_NO_WAIT;
             Msgq.Get 2%nat K_NO_WAIT; Msgq.Get 2%nat K_NO_WAIT;
             Msgq.Put 1%nat 12 K_NO_WAIT; Msgq.Put 1%nat 13 K_NO_WAIT;
             Msgq.Put 1%nat 14 K_NO_WAIT;
             Msgq.Get 2%nat K_NO_WAIT; Msgq.Get 2%nat K_NO_WAIT;
             Msgq.Get 2%nat K_NO_WAIT] Msgq.benchmark_q_get).1.2
    = [10; 11; 12; 13; 14].
Proof. reflexivity. Qed.

(** A transmit on the non-H7X path: the descriptor is busy once, then the
    frame goes out. *)
Example eth_tx_success_run :
  Eth.eth_tx (Eth.mk_config false false false false 1524 4 500)
    (Eth.mk_tx_env 60 [0x80000000; 0] 0 Eth.HAL_OK 0)
  = ([Eth.lock_tx; Eth.Sys Eth.net_pkt_get_len;
      Eth.Hw Eth.tx_desc_read; Eth.Kernel Eth.k_yield; Eth.Hw Eth.tx_desc_read;
      Eth.Hw Eth.tx_desc_read; Eth.Hw (Eth.tx_buffer_write 60);
      Eth.Hal (Eth.HAL_ETH_TransmitFrame 60); Eth.Hw Eth.DMASR_read;
      Eth.unlock_tx], Some 0).
Proof. reflexivity. Qed.

(** Transmit underflow: the flag is cleared, transmission resumed, and the
    call fails with [-EIO] after unlocking. *)
Example eth_tx_underflow_run :
  Eth.eth_tx (Eth.mk_config false false false false 1524 4 500)
    (Eth.mk_tx_env 60 [0] 0 Eth.HAL_OK 0x20)
  = ([Eth.lock_tx; Eth.Sys Eth.net_pkt_get_len; Eth.Hw Eth.tx_desc_read;
      Eth.Hw Eth.tx_desc_read; Eth.Hw (Eth.tx_buffer_write 60);
      Eth.Hal (Eth.HAL_ETH_TransmitFrame 60); Eth.Hw Eth.DMASR_read;
      Eth.Hw (Eth.DMASR_write 0x20); Eth.Hw (Eth.DMATPDR_write 0);
      Eth.unlock_tx], Some (-5)).
Proof. reflexivity. Qed.

(** The descriptor never comes free within the observed reads: the call is
    still spinning, holding the mutex. *)
Example eth_tx_spinning_run :
  Eth.eth_tx (Eth.mk_config false false false false 1524 4 500)
    (Eth.mk_tx_env 60 [0x80000000] 0 Eth.HAL_OK 0)
  = ([Eth.lock_tx; Eth.Sys Eth.net_pkt_get_len;
      Eth.Hw Eth.tx_desc_read; Eth.Kernel Eth.k_yield], None).
Proof. reflexivity. Qed.

(** With VLAN support compiled in, a failed allocation reaches
    [NET_ETH_HDR(pkt)] with a NULL packet; the descriptors have been
    released by then. *)
Example eth_rx_vlan_alloc_failure :
  let r := Eth.eth_rx Eth.sample_HAL
             (Eth.mk_config false true false false 1524 4 500)
             (Eth.mk_rx_env false 0 None) Eth.sample_handle 0 in
  Eth.rx_outcome_of r = Eth.Faults
  /\ forallb (Eth.dma_owns (Eth.rx_desc_mem (Eth.rx_heth r))) [0x110; 0x120] = true
  /\ Eth.reg_writes (Eth.rx_heth r)
     = [(Eth.REG_DMASR, 0x80); (Eth.REG_DMARPDR, 0)].
Proof. vm_compute. repeat split; reflexivity. Qed.

(** Link comes up on the first interrupt, stays up over a second one and
    an idle check with the link bit set, goes down on an idle check with
    the link bit clear. *)
Example rx_thread_run :
  let cfg := Eth.mk_config false false false false 1524 4 500 in
  let run := Eth.rx_thread cfg
               [Eth.mk_rx_iter 0 [0] Eth.HAL_OK 0;
                Eth.mk_rx_iter 0 [] Eth.HAL_OK 0;
                Eth.mk_rx_iter (-11) [] Eth.HAL_OK 0x4;
                Eth.mk_rx_iter (-11) [] Eth.HAL_OK 0x0;
                Eth.mk_rx_iter (-11) [] Eth.HAL_ERROR 0x4] false in
  Eth.carrier_reports run.1 = [true; false] /\ run.2 = false.
Proof. split; reflexivity. Qed.

(** A successful initialisation on the non-H7X path. *)
Example eth_initialize_success_run :
  let cfg := Eth.mk_config false false false false 1524 4 500 in
  let env := Eth.mk_init_env 0 0 0 0 Eth.HAL_OK (fun _ => Eth.HAL_OK) Eth.HAL_OK in
  Eth.kernel_calls (Eth.eth_initialize cfg env true).1.1
    = Eth.worker_setup ++ [Eth.k_sleep (K_MSEC 1)]
  /\ (Eth.eth_initialize cfg env true).1.2 = 0
  /\ (Eth.eth_initialize cfg env true).2 = false.
Proof. repeat split; reflexivity. Qed.

(** On H7X a failing [HAL_ETH_DescAssignMemory] ends initialisation with
    [-EINVAL] after the receive thread has been created. *)
Example eth_initialize_h7_assign_failure :
  let cfg := Eth.mk_config true false false false 1524 4 500 in
  let env := Eth.mk_init_env 0 0 0 0 Eth.HAL_OK
               (fun i => if Nat.eqb i 2 then Eth.HAL_ERROR else Eth.HAL_OK)
               Eth.HAL_OK in
  Eth.kernel_calls (Eth.eth_initialize cfg env true).1.1 = Eth.worker_setup
  /\ (Eth.eth_initialize cfg env true).1.2 = -22.
Proof. split; reflexivity. Qed.

(** * Further properties of the sources *)

(** ** MAC address bytes and address registers *)

Section EthAuxFacts.
Import EthAux.

Lemma land_shiftl_small (hi lo k : Z) :
  0 <= k -> 0 <= lo < 2 ^ k -> Z.land (Z.shiftl hi k) lo = 0.
Proof.
  intros Hk Hlo. apply Z.bits_inj'. intros n Hn.
  rewrite Z.land_spec, Z.bits_0.
  destruct (Z.lt_ge_cases n k) as [Hlt | Hge].
  - now rewrite Z.shiftl_spec_low.
  - assert (Z.testbit lo n = false) as ->; [| apply andb_false_r].
    destruct (Z.eq_dec lo 0) as [-> | Hnz]; [apply Z.bits_0 |].
    apply Z.bits_above_log2; [lia |].
    assert (Z.log2 lo < k) by (apply Z.log2_lt_pow2; lia). lia.
Qed.

Lemma lor_mul_pow2_small (q lo k : Z) :
  0 <= k -> 0 <= lo < 2 ^ k -> Z.lor (q * 2 ^ k) lo = q * 2 ^ k + lo.
Proof.
  intros Hk Hlo. rewrite <- Z.shiftl_mul_pow2 by lia.
  pose proof (land_shiftl_small q lo k Hk Hlo) as Hd.
  rewrite (Z.add_nocarry_lxor _ _ Hd). symmetry. now apply Z.lxor_lor.
Qed.

Lemma is_mac_inv mac :
  is_mac mac ->
  exists a b c d e f,
    mac = [a; b; c; d; e; f]
    /\ 0 <= a < 256 /\ 0 <= b < 256 /\ 0 <= c < 256
    /\ 0 <= d < 256 /\ 0 <= e < 256 /\ 0 <= f < 256.
Proof.
  intros [Hlen Hb].
  destruct mac as [| a [| b [| c [| d [| e [| f [| g mac]]]]]]];
    try discriminate Hlen.
  exists a, b, c, d, e, f. split; [reflexivity |].
  repeat match goal with
         | H : Forall _ (_ :: _) |- _ => inversion H; subst; clear H
         end.
  repeat split; lia.
Qed.

Ltac pow2_lia :=
  change (2 ^ 8) with 256 in *; change (2 ^ 16) with 65536 in *;
  change (2 ^ 24) with 16777216 in *; change (2 ^ 32) with 4294967296 in *;
  lia.

Lemma mac_low_reg_value a b c d e f :
  0 <= a < 256 -> 0 <= b < 256 -> 0 <= c < 256 -> 0 <= d < 256 ->
  mac_low_reg [a; b; c; d; e; f] = d * 2 ^ 24 + c * 2 ^ 16 + b * 2 ^ 8 + a.
Proof.
  intros Ha Hb Hc Hd. unfold mac_low_reg, byte_at, u32.
  cbn [lookup list_lookup default from_option id].
  rewrite !Z.shiftl_mul_pow2 by lia.
  rewrite (lor_mul_pow2_small d (c * 2 ^ 16) 24) by pow2_lia.
  replace (d * 2 ^ 24 + c * 2 ^ 16) with ((d * 2 ^ 8 + c) * 2 ^ 16)
    by pow2_lia.
  rewrite (lor_mul_pow2_small _ (b * 2 ^ 8) 16) by pow2_lia.
  replace ((d * 2 ^ 8 + c) * 2 ^ 16 + b * 2 ^ 8)
    with ((d * 2 ^ 16 + c * 2 ^ 8 + b) * 2 ^ 8) by pow2_lia.
  rewrite (lor_mul_pow2_small _ a 8) by pow2_lia.
  rewrite Z.mod_small by pow2_lia. pow2_lia.
Qed.

Lemma mac_high_reg_value a b c d e f :
  0 <= e < 256 -> 0 <= f < 256 ->
  mac_high_reg [a; b; c; d; e; f] = f * 2 ^ 8 + e.
Proof.
  intros He Hf. unfold mac_high_reg, byte_at, u32.
  cbn [lookup list_lookup default from_option id].
  rewrite Z.shiftl_mul_pow2 by lia.
  rewrite (lor_mul_pow2_small f e 8) by pow2_lia.
  apply Z.mod_small. pow2_lia.
Qed.

Lemma mac_of_regs_value a b c d e f :
  0 <= a < 256 -> 0 <= b < 256 -> 0 <= c < 256 ->
  0 <= d < 256 -> 0 <= e < 256 -> 0 <= f < 256 ->
  mac_of_regs (f * 2 ^ 8 + e) (d * 2 ^ 24 + c * 2 ^ 16 + b * 2 ^ 8 + a)
    = [a; b; c; d; e; f].
Proof.
  intros Ha Hb Hc Hd He Hf. unfold mac_of_regs.
  change 0xFF with (Z.ones 8). rewrite !Z.land_ones by lia.
  rewrite !Z.shiftr_div_pow2 by lia.
  change (2 ^ 8) with 256; change (2 ^ 16) with 65536;
    change (2 ^ 24) with 16777216.
  repeat f_equal; Z.div_mod_to_equations; lia.
Qed.

Lemma land_assoc_const (x c1 c2 : Z) : Z.land (Z.land x c1) c2 = Z.land x (Z.land c1 c2).
Proof. now rewrite Z.land_assoc. Qed.

Lemma land_63_small h : 0 <= h < 64 -> Z.land h 0x3F = h.
Proof.
  intros Hh. change 0x3F with (Z.ones 6). rewrite Z.land_ones by lia.
  apply Z.mod_small. change (2 ^ 6) with 64. lia.
Qed.

(** The byte the translator writes to [mac_addr[4]]: the two top bits of
    the old byte, the upper six bits of the address. *)
Lemma translator_byte4 e h :
  0 <= h < 64 ->
  u8 (Z.lor (Z.land e 0xC0) h) = Z.lor (Z.land e 0xC0) h
  /\ Z.land (Z.lor (Z.land e 0xC0) h) 0xC0 = Z.land e 0xC0
  /\ Z.land (Z.lor (Z.land e 0xC0) h) 0x3F = h.
Proof.
  intros Hh. pose proof (land_63_small h Hh) as H63.
  assert (Hc0 : Z.land h 0xC0 = 0).
  { rewrite <- H63, land_assoc_const. change (Z.land 0x3F 0xC0) with 0.
    apply Z.land_0_r. }
  assert (Hff : Z.land h 0xFF = h).
  { rewrite <- H63, land_assoc_const. reflexivity. }
  split; [| split].
  - unfold u8. change 256 with (2 ^ 8). rewrite <- Z.land_ones by lia.
    change (Z.ones 8) with 0xFF.
    rewrite Z.land_lor_distr_l, land_assoc_const, Hff. reflexivity.
  - rewrite Z.land_lor_distr_l, land_assoc_const, Hc0.
    change (Z.land 0xC0 0xC0) with 0xC0. apply Z.lor_0_r.
  - rewrite Z.land_lor_distr_l, land_assoc_const, H63.
    change (Z.land 0xC0 0x3F) with 0. rewrite Z.land_0_r. apply Z.lor_0_l.
Qed.

(** X1.  [set_mac_to_translator_addr] leaves the first four bytes alone,
    keeps the two top bits of the fifth, and puts the 14-bit translator
    address into the remaining 14 bits; applying it twice is applying it
    once. *)
Theorem set_mac_to_translator_addr_spec (ADDR : Z) (mac : list Z) :
  is_mac mac -> 0 <= ADDR < 2 ^ 14 ->
  let mac' := set_mac_to_translator_addr ADDR mac in
  is_mac mac'
  /\ take 4 mac' = take 4 mac
  /\ Z.land (byte_at mac' 4) 0xC0 = Z.land (byte_at mac 4) 0xC0
  /\ low14 mac' = ADDR
  /\ set_mac_to_translator_addr ADDR mac' = mac'.
Proof.
  intros Hmac Haddr. cbn zeta.
  destruct (is_mac_inv mac Hmac) as (a & b & c & d & e & f & -> & Ha & Hb & Hc & Hd & He & Hf).
  change (2 ^ 14) with 16384 in Haddr.
  assert (Hh : 0 <= Z.shiftr ADDR 8 < 64).
  { rewrite Z.shiftr_div_pow2 by lia. change (2 ^ 8) with 256.
    Z.div_mod_to_equations. lia. }
  destruct (translator_byte4 e _ Hh) as (H8 & Htop & Hlow).
  assert (Hlo : u8 (Z.land ADDR 0xFF) = ADDR mod 256).
  { unfold u8. change 0xFF with (Z.ones 8). rewrite Z.land_ones by lia.
    change (2 ^ 8) with 256. apply Z.mod_mod. lia. }
  unfold set_mac_to_translator_addr, low14. unfold byte_at.
  cbn [lookup list_lookup default from_option id insert list_insert take].
  rewrite !H8, !Htop, !Hlow, !Hlo. rewrite H8.
  split; [| split; [reflexivity | split; [reflexivity | split; [| reflexivity]]]].
  - split; [reflexivity |].
    repeat match goal with
           | |- Forall _ (_ :: _) => constructor
           | |- Forall _ [] => constructor
           end; try lia.
    + rewrite <- H8. unfold u8. apply Z.mod_pos_bound. lia.
    + apply Z.mod_pos_bound. lia.
  - rewrite Z.shiftr_div_pow2 by lia. change (2 ^ 8) with 256.
    Z.div_mod_to_equations. lia.
Qed.

Lemma set_mac_to_translator_addr_spec_witness :
  let mac := [0x00; 0x80; 0xE1; 0x12; 0xC5; 0x77] in
  EthAux.set_mac_to_translator_addr 0x3DF0 mac = [0x00; 0x80; 0xE1; 0x12; 0xFD; 0xF0]
  /\ EthAux.low14 (EthAux.set_mac_to_translator_addr 0x3DF0 mac) = 0x3DF0.
Proof.
  cbn zeta. split; [reflexivity |].
  refine (proj1 (proj2 (proj2 (proj2
    (set_mac_to_translator_addr_spec 0x3DF0 [0x00; 0x80; 0xE1; 0x12; 0xC5; 0x77] _ _))))).
  - split; [reflexivity |].
    repeat match goal with
           | |- Forall _ (_ :: _) => constructor
           | |- Forall _ [] => constructor
           end; lia.
  - change (2 ^ 14) with 16384. lia.
Defined.

(** X2.  Setting the MAC address returns 0, stores the six bytes in
    [dev_data->mac_addr] and encodes them in [MACA0HR]/[MACA0LR] so that
    every byte can be read back; the other registers are untouched.  Every
    other configuration type is refused with [-ENOTSUP] and changes
    nothing. *)
Theorem eth_stm32_hal_set_config_mac (ENOTSUP : Z) (mac : list Z)
    (st : set_config_state) (type : ethernet_config_type) :
  is_mac mac -> length (dev_mac_addr st) = 6%nat ->
  let r := eth_stm32_hal_set_config ENOTSUP ETHERNET_CONFIG_TYPE_MAC_ADDRESS mac st in
  r.1 = 0
  /\ dev_mac_addr r.2 = mac
  /\ mac_of_regs (MACA0HR (instance r.2)) (MACA0LR (instance r.2)) = mac
  /\ 0 <= MACA0HR (instance r.2) < 2 ^ 16
  /\ 0 <= MACA0LR (instance r.2) < 2 ^ 32
  /\ MACA1HR (instance r.2) = MACA1HR (instance st)
  /\ MACA1LR (instance r.2) = MACA1LR (instance st)
  /\ MACFFR (instance r.2) = MACFFR (instance st)
  /\ (if type is ETHERNET_CONFIG_TYPE_MAC_ADDRESS then True
      else eth_stm32_hal_set_config ENOTSUP type mac st = (- ENOTSUP, st)).
Proof.
  intros Hmac Hlen. cbn zeta.
  destruct (is_mac_inv mac Hmac)
    as (a & b & c & d & e & f & -> & Ha & Hb & Hc & Hd & He & Hf).
  assert (Hmem : take 6 [a; b; c; d; e; f] ++ drop 6 (dev_mac_addr st)
                 = [a; b; c; d; e; f]).
  { rewrite drop_ge by lia. reflexivity. }
  unfold eth_stm32_hal_set_config. cbn [fst snd dev_mac_addr instance].
  rewrite Hmem. cbn [MACA0HR MACA0LR MACA1HR MACA1LR MACFFR].
  rewrite (mac_low_reg_value a b c d e f), (mac_high_reg_value a b c d e f)
    by assumption.
  repeat split; try reflexivity; try pow2_lia.
  - now apply mac_of_regs_value.
  - destruct type; reflexivity.
Qed.

(** X3.  The address filter programmed for the CAN translator holds the
    first four address bytes, which [set_mac_to_translator_addr] never
    changes: enabling the filter before or after rewriting the last 14 bits
    programs the same [MACA1LR], and nothing but filter 1 is written. *)
Theorem translator_filter_low_bytes (ADDR FILTER : Z) (regs : ETH_TypeDef)
    (mac : list Z) :
  is_mac mac ->
  let r := enable_canbus_eth_translator_filter FILTER regs mac in
  MACA1LR (enable_canbus_eth_translator_filter FILTER regs
             (set_mac_to_translator_addr ADDR mac)) = MACA1LR r
  /\ take 4 (mac_of_regs 0 (MACA1LR r)) = take 4 mac
  /\ MACA1HR r = FILTER
  /\ MACA0HR r = MACA0HR regs /\ MACA0LR r = MACA0LR regs
  /\ MACFFR r = MACFFR regs.
Proof.
  intros Hmac. cbn zeta.
  destruct (is_mac_inv mac Hmac)
    as (a & b & c & d & e & f & -> & Ha & Hb & Hc & Hd & He & Hf).
  unfold enable_canbus_eth_translator_filter. cbn [MACA1LR MACA1HR MACA0HR MACA0LR MACFFR].
  split; [reflexivity |]. split; [| repeat split].
  rewrite (mac_low_reg_value a b c d e f) by assumption.
  pose proof (mac_of_regs_value a b c d 0 0 Ha Hb Hc Hd) as H.
  change (0 * 2 ^ 8 + 0) with 0 in H. rewrite H by lia. reflexivity.
Qed.

Lemma eth_stm32_hal_set_config_mac_witness :
  let mac := [0x00; 0x80; 0xE1; 0x12; 0x34; 0x56] in
  let st := mk_scs [0; 0; 0; 0; 0; 0] (mk_regs 0 0 0 0 0) in
  MACA0LR (instance (eth_stm32_hal_set_config 134
                       ETHERNET_CONFIG_TYPE_MAC_ADDRESS mac st).2) = 0x12E18000
  /\ mac_of_regs
       (MACA0HR (instance (eth_stm32_hal_set_config 134
                             ETHERNET_CONFIG_TYPE_MAC_ADDRESS mac st).2))
       (MACA0LR (instance (eth_stm32_hal_set_config 134
                             ETHERNET_CONFIG_TYPE_MAC_ADDRESS mac st).2)) = mac.
Proof.
  cbn zeta. split; [reflexivity |].
  refine (proj1 (proj2 (proj2
    (eth_stm32_hal_set_config_mac 134 [0x00; 0x80; 0xE1; 0x12; 0x34; 0x56]
       (mk_scs [0; 0; 0; 0; 0; 0] (mk_regs 0 0 0 0 0))
       (ETHERNET_CONFIG_TYPE_other 1) _ _)))).
  - split; [reflexivity |].
    repeat match goal with
           | |- Forall _ (_ :: _) => constructor
           | |- Forall _ [] => constructor
           end; lia.
  - reflexivity.
Defined.

Lemma translator_filter_low_bytes_witness :
  let mac := [0x00; 0x80; 0xE1; 0x12; 0x34; 0x56] in
  MACA1LR (enable_canbus_eth_translator_filter 0x80003000 (mk_regs 0 0 0 0 0)
             (set_mac_to_translator_addr 0x3DF0 mac)) = 0x12E18000.
Proof.
  cbn zeta.
  assert (Hm : is_mac [0x00; 0x80; 0xE1; 0x12; 0x34; 0x56]).
  { split; [reflexivity |].
    repeat match goal with
           | |- Forall _ (_ :: _) => constructor
           | |- Forall _ [] => constructor
           end; lia. }
  rewrite (proj1 (translator_filter_low_bytes 0x3DF0 0x80003000
                    (mk_regs 0 0 0 0 0) [0x00; 0x80; 0xE1; 0x12; 0x34; 0x56] Hm)).
  reflexivity.
Defined.

(** ** Multicast filter register *)

Lemma testbit_small (x k n : Z) :
  0 <= x < 2 ^ k -> k <= n -> Z.testbit x n = false.
Proof.
  intros Hx Hn.
  destruct (Z.eq_dec x 0) as [-> | Hnz]; [apply Z.bits_0 |].
  destruct (Z.lt_ge_cases k 0) as [Hk | Hk].
  { rewrite Z.pow_neg_r in Hx by lia. lia. }
  apply Z.bits_above_log2; [lia |].
  assert (Z.log2 x < k) by (apply Z.log2_lt_pow2; lia). lia.
Qed.

Lemma bounded_by_bits (x k : Z) :
  0 <= k -> 0 <= x -> (forall n, k <= n -> Z.testbit x n = false) -> x < 2 ^ k.
Proof.
  intros Hk Hx Hbits.
  assert (Heq : x mod 2 ^ k = x).
  { apply Z.bits_inj'. intros n Hn.
    destruct (Z.lt_ge_cases n k) as [Hlt | Hge].
    - now apply Z.mod_pow2_bits_low.
    - rewrite Z.mod_pow2_bits_high by lia. symmetry. now apply Hbits. }
  rewrite <- Heq. apply Z.mod_pos_bound. apply Z.pow_pos_nonneg; lia.
Qed.

Section McastFacts.
Variables PHT HT PF NONE : Z.

Lemma disable_mcast_filter_bit regs n :
  0 <= MACFFR regs < 2 ^ 32 -> 0 <= n ->
  Z.testbit (MACFFR (disable_mcast_filter_regs PHT HT PF NONE regs)) n
    = (Z.testbit (MACFFR regs) n
       && negb (Z.testbit (mcast_filter_mask PHT HT PF) n))
      || Z.testbit NONE n.
Proof.
  intros Ht Hn. unfold disable_mcast_filter_regs. cbn [MACFFR].
  rewrite Z.lor_spec, Z.land_spec. f_equal. unfold u32.
  destruct (Z.lt_ge_cases n 32) as [Hlt | Hge].
  - rewrite Z.mod_pow2_bits_low by lia. now rewrite Z.lnot_spec by lia.
  - rewrite Z.mod_pow2_bits_high by lia.
    rewrite (testbit_small (MACFFR regs) 32 n) by lia. reflexivity.
Qed.

Lemma disable_mcast_filter_range regs :
  0 <= MACFFR regs < 2 ^ 32 -> 0 <= NONE < 2 ^ 32 ->
  0 <= MACFFR (disable_mcast_filter_regs PHT HT PF NONE regs) < 2 ^ 32.
Proof.
  intros Ht HN.
  assert (Hpos : 0 <= MACFFR (disable_mcast_filter_regs PHT HT PF NONE regs)).
  { unfold disable_mcast_filter_regs. cbn [MACFFR].
    apply Z.lor_nonneg. split; [| lia]. apply Z.land_nonneg. left. lia. }
  split; [exact Hpos |].
  apply bounded_by_bits; [lia | exact Hpos |].
  intros n Hn. rewrite disable_mcast_filter_bit by lia.
  rewrite (testbit_small (MACFFR regs) 32 n), (testbit_small NONE 32 n) by lia.
  reflexivity.
Qed.

(** X4.  On the 32-bit filter register, [disable_mcast_filter] sets every
    bit of [ETH_MULTICASTFRAMESFILTER_NONE], clears the other bits of the
    three filter modes, keeps all remaining bits, touches no other
    register, and doing it again changes nothing. *)
Theorem disable_mcast_filter_regs_spec (regs : ETH_TypeDef) (n : Z) :
  0 <= MACFFR regs < 2 ^ 32 -> 0 <= NONE < 2 ^ 32 -> 0 <= n ->
  let r := disable_mcast_filter_regs PHT HT PF NONE regs in
  Z.land (MACFFR r) NONE = NONE
  /\ Z.testbit (MACFFR r) n
     = (if Z.testbit NONE n then true
        else if Z.testbit (mcast_filter_mask PHT HT PF) n then false
        else Z.testbit (MACFFR regs) n)
  /\ 0 <= MACFFR r < 2 ^ 32
  /\ disable_mcast_filter_regs PHT HT PF NONE r = r
  /\ MACA0HR r = MACA0HR regs /\ MACA0LR r = MACA0LR regs
  /\ MACA1HR r = MACA1HR regs /\ MACA1LR r = MACA1LR regs.
Proof.
  intros Ht HN Hn. cbn zeta.
  pose proof (disable_mcast_filter_range regs Ht HN) as Hr.
  split; [| split; [| split; [exact Hr | split; [| repeat split]]]].
  - apply Z.bits_inj'. intros k Hk.
    rewrite Z.land_spec, disable_mcast_filter_bit by lia.
    destruct (Z.testbit NONE k);
      [rewrite orb_true_r; reflexivity | apply andb_false_r].
  - rewrite disable_mcast_filter_bit by lia.
    destruct (Z.testbit NONE n), (Z.testbit (mcast_filter_mask PHT HT PF) n),
      (Z.testbit (MACFFR regs) n); reflexivity.
  - assert (Hm : MACFFR (disable_mcast_filter_regs PHT HT PF NONE
                           (disable_mcast_filter_regs PHT HT PF NONE regs))
                 = MACFFR (disable_mcast_filter_regs PHT HT PF NONE regs)).
    { apply Z.bits_inj'. intros k Hk.
      rewrite (disable_mcast_filter_bit
                 (disable_mcast_filter_regs PHT HT PF NONE regs)) by lia.
      rewrite disable_mcast_filter_bit by lia.
      destruct (Z.testbit NONE k), (Z.testbit (mcast_filter_mask PHT HT PF) k),
        (Z.testbit (MACFFR regs) k); reflexivity. }
    revert Hm. unfold disable_mcast_filter_regs.
    cbn [MACFFR MACA0HR MACA0LR MACA1HR MACA1LR]. intros Hm. now rewrite Hm.
Qed.

End McastFacts.

End EthAuxFacts.

(** The filter modes of the F4/F7 HAL on a register with hash filtering
    switched on. *)
Lemma disable_mcast_filter_regs_spec_witness :
  let regs := EthAux.mk_regs 0 0 0 0 0x80000405 in
  EthAux.MACFFR (EthAux.disable_mcast_filter_regs 0x404 0x4 0x0 0x10 regs)
    = 0x80000011
  /\ Z.land (EthAux.MACFFR (EthAux.disable_mcast_filter_regs 0x404 0x4 0x0 0x10 regs))
       0x10 = 0x10.
Proof.
  cbn zeta. split; [reflexivity |].
  apply (disable_mcast_filter_regs_spec 0x404 0x4 0x0 0x10
           (EthAux.mk_regs 0 0 0 0 0x80000405) 0); cbn; lia.
Defined.

(** ** Interface initialisation *)

Section IfaceFacts.
Import EthAux.

Lemma init_ifaces_set mac ifaces : forall i0,
  init_ifaces mac ifaces (Some i0)
    = (concat (map (per_iface_setup mac) ifaces), Some i0).
Proof.
  induction ifaces as [| i rest IH]; intros i0; cbn [init_ifaces map concat];
    [reflexivity |].
  unfold eth_iface_init. rewrite IH. reflexivity.
Qed.

Lemma per_iface_setup_no_irq mac ifaces :
  List.filter is_irq_event (concat (map (per_iface_setup mac) ifaces)) = []
  /\ List.filter (fun e => negb (is_irq_event e))
       (concat (map (per_iface_setup mac) ifaces))
     = concat (map (per_iface_setup mac) ifaces).
Proof.
  induction ifaces as [| i rest [IH1 IH2]]; [split; reflexivity |].
  cbn [map concat per_iface_setup app List.filter is_irq_event negb].
  rewrite IH1, IH2. split; reflexivity.
Qed.

Lemma init_ifaces_fresh mac first others :
  init_ifaces mac (first :: others) None
    = (eth0_irq_config ++ concat (map (per_iface_setup mac) (first :: others)),
       Some first).
Proof.
  cbn [init_ifaces]. unfold eth_iface_init. rewrite init_ifaces_set.
  cbn [map concat]. fold (per_iface_setup mac first).
  now rewrite <- app_assoc.
Qed.

Lemma filter_irq_enable_event l :
  List.filter is_irq_enable l
    = List.filter is_irq_enable (List.filter is_irq_event l).
Proof.
  induction l as [| e l IHl]; [reflexivity |].
  destruct e; cbn; rewrite <- ?IHl; reflexivity.
Qed.

(** X5.  However many interfaces of the device are initialised (the main
    one, then VLAN interfaces), the interrupt is connected and enabled
    exactly once, at the very start of the first initialisation;
    [dev_data->iface] becomes the first interface and stays it; and every
    interface gets its link address, [ethernet_init] and the
    [NET_IF_NO_AUTO_START] flag, in call order. *)
Theorem eth_iface_init_irq_once (mac : list Z) (first : nat) (others more : list nat) :
  let r := init_ifaces mac (first :: others) None in
  r.2 = Some first
  /\ r.1 = eth0_irq_config
           ++ concat (map (per_iface_setup mac) (first :: others))
  /\ List.filter is_irq_event r.1 = eth0_irq_config
  /\ length (List.filter is_irq_enable r.1) = 1%nat
  /\ init_ifaces mac more r.2
     = (concat (map (per_iface_setup mac) more), Some first).
Proof.
  cbn zeta. rewrite init_ifaces_fresh. cbn [fst snd].
  destruct (per_iface_setup_no_irq mac (first :: others)) as [Hno _].
  assert (Hf : List.filter is_irq_event
                 (eth0_irq_config
                  ++ concat (map (per_iface_setup mac) (first :: others)))
               = eth0_irq_config).
  { rewrite List.filter_app, Hno. reflexivity. }
  split; [reflexivity |]. split; [reflexivity |]. split; [exact Hf |].
  split; [| apply init_ifaces_set].
  rewrite filter_irq_enable_event, Hf. reflexivity.
Qed.

End IfaceFacts.

(** ** Transmit path, continued *)

Section EthTxMore.
Import Eth EthObs.

Lemma wait_tx_desc_obs reads :
  tx_data_events (wait_tx_desc reads).1 = []
  /\ existsb is_tx_buffer_write (wait_tx_desc reads).1 = false
  /\ count_events is_k_yield (wait_tx_desc reads).1 = length (leading_busy reads)
  /\ forallb IS_ETH_DMATXDESC_OWN (leading_busy reads) = true
  /\ (if (wait_tx_desc reads).2
      then exists st rest,
             reads = leading_busy reads ++ st :: rest
             /\ IS_ETH_DMATXDESC_OWN st = false
      else reads = leading_busy reads).
Proof.
  induction reads as [| st rest (IH1 & IH2 & IH3 & IH4 & IH5)];
    cbn [wait_tx_desc leading_busy].
  - repeat split; reflexivity.
  - destruct (IS_ETH_DMATXDESC_OWN st) eqn:Hown.
    + destruct (wait_tx_desc rest) as [tr free]. cbn [fst snd] in *.
      unfold tx_data_events, count_events in *.
      cbn [List.filter is_tx_copy_or_start is_k_yield existsb
             is_tx_buffer_write orb length forallb andb app].
      rewrite IH1, IH2, IH3, IH4, Hown.
      repeat split; try reflexivity.
      destruct free.
      * destruct IH5 as (st' & rest' & Heq & Hfree).
        exists st', rest'. split; [congruence | exact Hfree].
      * congruence.
    + cbn. repeat split; try reflexivity. exists st, rest. auto.
Qed.

Lemma existsb_app_false {A} (f : A -> bool) a b :
  existsb f a = false -> existsb f (a ++ b) = existsb f b.
Proof. intros H. now rewrite existsb_app, H. Qed.

(** X6.  [eth_tx] hands the frame to the hardware at most once, copy
    first: the copies and transmit calls of any run are a prefix of "one
    copy, one transmit call", both of the packet's length.  It returns
    nothing but 0 and [-EIO]; when it returns 0 the copy and the transmit
    call both happened, the packet fits the buffer, and copy and HAL call
    succeeded. *)
Theorem eth_tx_sends_at_most_once (cfg : config) (env : tx_env) :
  let r := eth_tx cfg env in
  let sent := [Hw (tx_buffer_write (total_len env));
               hal_transmit cfg (total_len env)] in
  (exists k, tx_data_events r.1 = take k sent)
  /\ (r.2 = None \/ r.2 = Some 0 \/ r.2 = Some (- EIO))
  /\ (r.2 = Some 0 ->
      tx_data_events r.1 = sent
      /\ total_len env <= ETH_TX_BUF_SIZE cfg
      /\ net_pkt_read_rc env = 0
      /\ hal_transmit_ret env = HAL_OK).
Proof.
  cbn zeta. unfold eth_tx, tx_exit, hal_transmit.
  destruct (Z.ltb_spec (ETH_TX_BUF_SIZE cfg) (total_len env)) as [Hbig | Hfit].
  { split; [exists 0%nat; reflexivity |]. split; [auto |]. discriminate. }
  destruct (wait_tx_desc_obs (tx_desc_status env)) as (Hd & _).
  destruct (wait_tx_desc (tx_desc_status env)) as [spin free].
  cbn [fst snd] in Hd. unfold tx_data_events in *.
  destruct free; cbn [negb].
  2:{ split; [exists 0%nat; cbn; rewrite Hd; reflexivity |].
      split; [auto |]. discriminate. }
  destruct (Z.eqb_spec (net_pkt_read_rc env) 0) as [Hrd | Hrd]; cbn [negb].
  2:{ split; [exists 1%nat | split; [auto | discriminate]].
      destruct (CONFIG_SOC_SERIES_STM32H7X cfg); cbn [fst];
        rewrite !List.filter_app; cbn; rewrite Hd; reflexivity. }
  assert (Hok : hal_transmit_ret env = HAL_OK
                \/ is_HAL_OK (hal_transmit_ret env) = false)
    by (destruct (hal_transmit_ret env); auto).
  destruct Hok as [Hok | Hok]; rewrite Hok; cbn [is_HAL_OK negb].
  - destruct (CONFIG_SOC_SERIES_STM32H7X cfg);
      try destruct (Z.land (tx_DMASR env) ETH_DMASR_TUS =? 0); cbn [negb fst snd];
      (split; [exists 2%nat | split; [auto |]]);
      rewrite ?List.filter_app; cbn; rewrite ?Hd; try reflexivity;
      intros H; try discriminate H; repeat split; auto.
  - destruct (CONFIG_SOC_SERIES_STM32H7X cfg); cbn [fst snd];
      (split; [exists 2%nat | split; [auto | discriminate]]);
      rewrite !List.filter_app; cbn; rewrite Hd; reflexivity.
Qed.

(** X7.  [eth_tx] copies into the DMA buffer only after it has read the
    descriptor's status with the OWN bit clear; it yielded once for every
    status read before that one, each of which had OWN set. *)
Theorem eth_tx_copies_only_when_free (cfg : config) (env : tx_env) :
  existsb is_tx_buffer_write (eth_tx cfg env).1 = true ->
  exists st rest,
    tx_desc_status env = leading_busy (tx_desc_status env) ++ st :: rest
    /\ forallb IS_ETH_DMATXDESC_OWN (leading_busy (tx_desc_status env)) = true
    /\ IS_ETH_DMATXDESC_OWN st = false
    /\ count_events is_k_yield (eth_tx cfg env).1
       = length (leading_busy (tx_desc_status env))
    /\ total_len env <= ETH_TX_BUF_SIZE cfg.
Proof.
  unfold eth_tx, tx_exit.
  destruct (Z.ltb_spec (ETH_TX_BUF_SIZE cfg) (total_len env)) as [Hbig | Hfit].
  { cbn. discriminate. }
  destruct (wait_tx_desc_obs (tx_desc_status env)) as (_ & Hw & Hy & Hb & Hf).
  destruct (wait_tx_desc (tx_desc_status env)) as [spin free].
  cbn [fst snd] in Hw, Hy, Hf.
  destruct free; cbn [negb].
  2:{ cbn. rewrite Hw. discriminate. }
  intros _. destruct Hf as (st & rest & Heq & Hfree).
  exists st, rest. repeat split; try assumption.
  rewrite <- Hy. unfold count_events in *.
  destruct (CONFIG_SOC_SERIES_STM32H7X cfg);
    destruct (net_pkt_read_rc env =? 0); cbn [negb];
    try destruct (is_HAL_OK (hal_transmit_ret env)); cbn [negb];
    try destruct (Z.land (tx_DMASR env) ETH_DMASR_TUS =? 0); cbn [negb fst];
    rewrite ?List.filter_app; cbn; rewrite ?app_nil_r; reflexivity.
Qed.

End EthTxMore.

(** A frame sent after one busy poll. *)
Lemma eth_tx_copies_only_when_free_witness :
  let cfg := Eth.mk_config false false false false 1524 4 500 in
  let env := Eth.mk_tx_env 60 [0x80000000; 0] 0 Eth.HAL_OK 0 in
  existsb EthObs.is_tx_buffer_write (Eth.eth_tx cfg env).1 = true
  /\ Eth.count_events EthObs.is_k_yield (Eth.eth_tx cfg env).1 = 1%nat.
Proof.
  cbn zeta. split; [reflexivity |].
  destruct (eth_tx_copies_only_when_free
              (Eth.mk_config false false false false 1524 4 500)
              (Eth.mk_tx_env 60 [0x80000000; 0] 0 Eth.HAL_OK 0) eq_refl)
    as (st & rest & _ & _ & _ & Hy & _).
  exact Hy.
Defined.

Lemma eth_tx_sends_at_most_once_witness :
  let cfg := Eth.mk_config false false false false 1524 4 500 in
  let env := Eth.mk_tx_env 60 [0x80000000; 0] 0 Eth.HAL_OK 0 in
  (Eth.eth_tx cfg env).2 = Some 0
  /\ EthObs.tx_data_events (Eth.eth_tx cfg env).1
     = [Eth.Hw (Eth.tx_buffer_write 60); Eth.Hal (Eth.HAL_ETH_TransmitFrame 60)].
Proof.
  cbn zeta. split; [reflexivity |].
  apply (proj2 (proj2 (eth_tx_sends_at_most_once
                         (Eth.mk_config false false false false 1524 4 500)
                         (Eth.mk_tx_env 60 [0x80000000; 0] 0 Eth.HAL_OK 0)))).
  reflexivity.
Defined.

(** ** Receive path, continued *)

Section EthRxMore.
Import Eth EthObs.

Implicit Types mem : gmap Z ETH_DMADescTypeDef.

Lemma give_to_dma_idem d : give_to_dma (give_to_dma d) = give_to_dma d.
Proof.
  unfold give_to_dma. cbn [Status ControlBufferSize Buffer1Addr Buffer2NextDescAddr].
  f_equal. rewrite <- Z.lor_assoc. f_equal.
Qed.

Lemma give_to_dma_other_bits d k :
  0 <= k -> k <> 31 ->
  Z.testbit (Status (give_to_dma d)) k = Z.testbit (Status d) k.
Proof.
  intros Hk Hne. unfold give_to_dma; cbn [Status]. rewrite Z.lor_spec.
  assert (Z.testbit ETH_DMARXDESC_OWN k = false) as ->; [| apply orb_false_r].
  change ETH_DMARXDESC_OWN with (2 ^ 31). apply Z.pow2_bits_false. lia.
Qed.

(** Releasing the chain is exactly "set OWN on the chain's descriptors". *)
Lemma release_descs_exact n : forall p mem addrs mem' a,
  desc_chain n p mem = Some addrs ->
  release_descs n p mem = Some mem' ->
  mem' !! a = if in_chain a addrs then give_to_dma <$> mem !! a else mem !! a.
Proof.
  induction n as [| n IH]; intros p mem addrs mem' a Hc Hr; cbn in Hc, Hr.
  - inversion Hc; inversion Hr; subst. reflexivity.
  - destruct (mem !! p) as [d |] eqn:Hp; [| discriminate].
    destruct (desc_chain n (Buffer2NextDescAddr d) mem) as [rest |] eqn:Hrest;
      [| discriminate].
    inversion Hc; subst; clear Hc.
    rewrite <- (desc_chain_insert n _ mem p d Hp) in Hrest.
    rewrite (IH _ _ _ _ a Hrest Hr).
    unfold in_chain. cbn [existsb].
    destruct (Z.eqb_spec a p) as [-> | Hne]; cbn [orb].
    + rewrite lookup_insert_eq, Hp. cbn.
      destruct (existsb (Z.eqb p) rest); [| reflexivity].
      now rewrite give_to_dma_idem.
    + now rewrite lookup_insert_ne by congruence.
Qed.

Variable HAL_ETH_GetReceivedFrame_IT :
  ETH_HandleTypeDef -> HAL_StatusTypeDef * ETH_HandleTypeDef.

(** X8.  When the HAL hands over a frame, [eth_rx] changes the descriptor
    memory in one way only: the descriptors of the frame's chain get their
    OWN bit (bit 31 of [Status]) set.  Every other descriptor, every other
    field and every other status bit is as the HAL left it, and so are the
    frame's first descriptor, length and buffer. *)
Theorem eth_rx_touches_only_own_bits (cfg : config) (env : rx_env)
    (heth heth1 : ETH_HandleTypeDef) (vlan_tag : Z) (addrs : list Z) (a k : Z)
    (d : ETH_DMADescTypeDef) :
  HAL_ETH_GetReceivedFrame_IT heth = (HAL_OK, heth1) ->
  desc_chain (SegCount (RxFrameInfos heth1)) (FSRxDesc (RxFrameInfos heth1))
    (rx_desc_mem heth1) = Some addrs ->
  let r := eth_rx HAL_ETH_GetReceivedFrame_IT cfg env heth vlan_tag in
  rx_desc_mem (rx_heth r) !! a
    = (if in_chain a addrs then give_to_dma <$> rx_desc_mem heth1 !! a
       else rx_desc_mem heth1 !! a)
  /\ ControlBufferSize (give_to_dma d) = ControlBufferSize d
  /\ Buffer1Addr (give_to_dma d) = Buffer1Addr d
  /\ Buffer2NextDescAddr (give_to_dma d) = Buffer2NextDescAddr d
  /\ (0 <= k -> k <> 31 ->
      Z.testbit (Status (give_to_dma d)) k = Z.testbit (Status d) k)
  /\ FSRxDesc (RxFrameInfos (rx_heth r)) = FSRxDesc (RxFrameInfos heth1)
  /\ rx_length (RxFrameInfos (rx_heth r)) = rx_length (RxFrameInfos heth1)
  /\ rx_buffer (RxFrameInfos (rx_heth r)) = rx_buffer (RxFrameInfos heth1)
  /\ DMASR (rx_heth r) = DMASR heth1.
Proof.
  intros Hhal Hchain. cbn zeta.
  destruct (release_descs_chain _ _ _ _ Hchain) as (mem' & Hrel & _ & _).
  pose proof (release_descs_exact _ _ _ _ _ a Hchain Hrel) as Hex.
  unfold eth_rx. rewrite Hhal. cbn [is_HAL_OK negb]. rewrite Hrel.
  split; [| split; [reflexivity | split; [reflexivity | split; [reflexivity |
    split; [apply give_to_dma_other_bits |]]]]];
    destruct (negb (Z.land (DMASR (set_rx_state heth1 mem' 0)) ETH_DMASR_RBUS =? 0));
    destruct (CONFIG_NET_VLAN cfg);
    destruct (alloc_ok env); destruct (net_pkt_write_rc env =? 0);
    try destruct (frame_vlan_tci env);
    cbn; try exact Hex; repeat split; reflexivity.
Qed.

(** X9.  What [eth_rx] hands back.  Without a frame from the HAL: NULL,
    nothing counted, nothing written.  With a frame: the packet (length and
    data of the frame) when allocation and copy succeed; otherwise, without
    VLAN support, NULL and one receive error counted, and with VLAN support
    a dereference of the NULL packet before the error is counted.  The DMA
    registers are written (RBUS cleared, reception resumed) exactly when a
    frame was taken and RBUS was set. *)
Theorem eth_rx_outcome (cfg : config) (env : rx_env)
    (heth heth1 : ETH_HandleTypeDef) (vlan_tag : Z) (ret : HAL_StatusTypeDef)
    (addrs : list Z) :
  HAL_ETH_GetReceivedFrame_IT heth = (ret, heth1) ->
  is_HAL_OK ret = false
  \/ desc_chain (SegCount (RxFrameInfos heth1)) (FSRxDesc (RxFrameInfos heth1))
       (rx_desc_mem heth1) = Some addrs ->
  let r := eth_rx HAL_ETH_GetReceivedFrame_IT cfg env heth vlan_tag in
  rx_outcome_of r
    = (if negb (is_HAL_OK ret) then Returns None
       else if rx_packet_ok env then
         Returns (Some (rx_packet heth1
                          (if CONFIG_NET_VLAN cfg then frame_vlan_tci env else None)))
       else if CONFIG_NET_VLAN cfg then Faults
       else Returns None)
  /\ rx_error_counted r
     = is_HAL_OK ret && negb (rx_packet_ok env) && negb (CONFIG_NET_VLAN cfg)
  /\ reg_writes (rx_heth r)
     = reg_writes heth1
       ++ (if is_HAL_OK ret && rbus_set heth1
           then [(REG_DMASR, ETH_DMASR_RBUS); (REG_DMARPDR, 0)] else [])
  /\ (if is_HAL_OK ret then True else rx_heth r = heth1 /\ rx_vlan_tag r = vlan_tag).
Proof.
  intros Hhal Hchain. cbn zeta. unfold eth_rx. rewrite Hhal.
  destruct (is_HAL_OK ret) eqn:Hok; cbn [negb andb].
  2:{ cbn. rewrite app_nil_r. auto. }
  destruct Hchain as [Hno | Hchain]; [discriminate |].
  destruct (release_descs_chain _ _ _ _ Hchain) as (mem' & Hrel & _ & _).
  rewrite Hrel. unfold rx_packet_ok, rx_packet, rbus_set.
  change (DMASR (set_rx_state heth1 mem' 0)) with (DMASR heth1).
  destruct (negb (Z.land (DMASR heth1) ETH_DMASR_RBUS =? 0));
    destruct (CONFIG_NET_VLAN cfg);
    destruct (alloc_ok env); destruct (net_pkt_write_rc env =? 0);
    try destruct (frame_vlan_tci env);
    cbn; rewrite ?app_nil_r; repeat split; reflexivity.
Qed.

End EthRxMore.

(** The two-segment sample frame: descriptor 0x100 is outside the chain and
    keeps its status, 0x110 gets OWN. *)
Lemma eth_rx_touches_only_own_bits_witness :
  let cfg := Eth.mk_config false false false false 1524 4 500 in
  let env := Eth.mk_rx_env true 0 None in
  let r := Eth.eth_rx Eth.sample_HAL cfg env Eth.sample_handle 0 in
  Eth.rx_desc_mem (Eth.rx_heth r) !! 0x110
    = Some (Eth.mk_desc 0x80000200 1524 0x2000 0x120).
Proof.
  cbn zeta.
  rewrite (proj1 (eth_rx_touches_only_own_bits Eth.sample_HAL
                    (Eth.mk_config false false false false 1524 4 500)
                    (Eth.mk_rx_env true 0 None)
                    Eth.sample_handle Eth.sample_handle 0 [0x110; 0x120]
                    0x110 0 (Eth.mk_desc 0 0 0 0)
                    eq_refl ltac:(vm_compute; reflexivity))).
  vm_compute. reflexivity.
Defined.

Lemma eth_rx_outcome_witness :
  let cfg := Eth.mk_config false false false false 1524 4 500 in
  let env := Eth.mk_rx_env true 0 None in
  Eth.rx_outcome_of (Eth.eth_rx Eth.sample_HAL cfg env Eth.sample_handle 0)
    = Eth.Returns (Some (Eth.mk_pkt 1600 0x2000 None)).
Proof.
  cbn zeta.
  rewrite (proj1 (eth_rx_outcome Eth.sample_HAL
                    (Eth.mk_config false false false false 1524 4 500)
                    (Eth.mk_rx_env true 0 None)
                    Eth.sample_handle Eth.sample_handle 0 Eth.HAL_OK
                    [0x110; 0x120] eq_refl
                    ltac:(right; vm_compute; reflexivity))).
  reflexivity.
Defined.

(** ** Receive thread, continued *)

Section RxThreadMore.
Import Eth EthObs.

Lemma rx_loop_counts frames :
  count_events is_net_recv_data (rx_loop frames) = length frames
  /\ count_events is_eth_rx_call (rx_loop frames) = S (length frames)
  /\ count_events is_net_pkt_unref (rx_loop frames) = length (refused frames)
  /\ count_events is_rx_error_count (rx_loop frames) = length (refused frames)
  /\ delivered_while_up true (rx_loop frames) = true
  /\ count_events is_phy_read (rx_loop frames) = 0%nat.
Proof.
  unfold count_events, refused.
  induction frames as [| res rest (IH1 & IH2 & IH3 & IH4 & IH5 & IH6)];
    [repeat split; reflexivity |].
  cbn [rx_loop]. destruct (res <? 0) eqn:Hres;
    cbn [app List.filter is_net_recv_data is_eth_rx_call is_net_pkt_unref
           is_rx_error_count is_phy_read length delivered_while_up andb];
    rewrite ?Hres, ?IH1, ?IH2, ?IH3, ?IH4, ?IH5, ?IH6; cbn [length];
    repeat split; reflexivity.
Qed.

Lemma delivered_while_up_app a : forall up b,
  delivered_while_up up (a ++ b)
    = delivered_while_up up a && delivered_while_up (carrier_after up a) b.
Proof.
  unfold carrier_after.
  induction a as [| e a IH]; intros up b; [reflexivity |].
  destruct e as [c | h | c | s]; cbn [app delivered_while_up carrier_reports];
    try apply IH.
  destruct s; cbn [app delivered_while_up carrier_reports];
    rewrite ?IH, ?last_cons, ?andb_assoc; reflexivity.
Qed.

Lemma rx_thread_iteration_delivery cfg i link_up :
  delivered_while_up link_up (rx_thread_iteration cfg i link_up).1 = true
  /\ carrier_after link_up (rx_thread_iteration cfg i link_up).1
     = (rx_thread_iteration cfg i link_up).2.
Proof.
  split.
  - unfold rx_thread_iteration, carrier_on, carrier_off.
    destruct (rx_loop_counts (rx_frames i)) as (_ & _ & _ & _ & Hd & _).
    destruct (sem_take_res i =? 0).
    + destruct link_up; cbn [negb fst app delivered_while_up]; exact Hd.
    + destruct (sem_take_res i =? - EAGAIN); [| reflexivity].
      destruct (is_HAL_OK (phy_read_ret i)); [| reflexivity].
      destruct (Z.land (phy_status i) PHY_LINKED_STATUS =? PHY_LINKED_STATUS);
        destruct link_up; reflexivity.
  - unfold carrier_after. rewrite rx_thread_iteration_reports.
    destruct link_up, (rx_thread_iteration cfg i _).2; reflexivity.
Qed.

(** X11.  Over any number of turns and from either initial state, the
    receive thread hands a packet to the network stack only while the last
    carrier state it reported is "on" (or, before any report, while
    [link_up] was already true): an interface the driver has reported down
    never delivers. *)
Theorem rx_thread_delivers_only_when_up (cfg : config) (iters : list rx_iter)
    (link_up : bool) :
  delivered_while_up link_up (rx_thread cfg iters link_up).1 = true
  /\ carrier_after link_up (rx_thread cfg iters link_up).1
     = (rx_thread cfg iters link_up).2.
Proof.
  revert link_up. induction iters as [| i rest IH]; intros link_up;
    cbn [rx_thread]; [split; reflexivity |].
  destruct (rx_thread_iteration_delivery cfg i link_up) as [Hd Hc].
  destruct (rx_thread_iteration cfg i link_up) as [tr l1]. cbn [fst snd] in *.
  destruct (IH l1) as [Hd' Hc'].
  destruct (rx_thread cfg rest l1) as [tr' l2]. cbn [fst snd] in *.
  rewrite delivered_while_up_app, Hd, Hc, Hd'. split; [reflexivity |].
  unfold carrier_after in *. rewrite carrier_reports_app, last_app_default.
  now rewrite Hc.
Qed.

(** X12.  A turn of [rx_thread] reports carrier-off only when the semaphore
    timed out ([-EAGAIN]), the PHY status register was read successfully,
    its link bit was clear and [link_up] was true; such a turn receives
    nothing.  The PHY is read in timed-out turns only. *)
Theorem rx_thread_carrier_off_only_on_idle_check (cfg : config) (i : rx_iter)
    (link_up : bool) :
  existsb negb (carrier_reports (rx_thread_iteration cfg i link_up).1) = true ->
  sem_take_res i = - EAGAIN
  /\ phy_read_ret i = HAL_OK
  /\ Z.land (phy_status i) PHY_LINKED_STATUS <> PHY_LINKED_STATUS
  /\ link_up = true
  /\ (rx_thread_iteration cfg i link_up).2 = false
  /\ calls_eth_rx (rx_thread_iteration cfg i link_up).1 = false
  /\ count_events is_phy_read (rx_thread_iteration cfg i link_up).1 = 1%nat.
Proof.
  unfold rx_thread_iteration, carrier_on, carrier_off.
  destruct (Z.eqb_spec (sem_take_res i) 0) as [H0 | H0].
  { destruct link_up; cbn [negb fst app carrier_reports];
      rewrite carrier_reports_rx_loop; discriminate. }
  destruct (Z.eqb_spec (sem_take_res i) (- EAGAIN)) as [Hto | Hto];
    [| discriminate].
  destruct (phy_read_ret i); cbn [is_HAL_OK]; try discriminate.
  destruct (Z.eqb_spec (Z.land (phy_status i) PHY_LINKED_STATUS) PHY_LINKED_STATUS)
    as [Hl | Hl].
  { destruct link_up; discriminate. }
  destruct link_up; [| discriminate].
  intros _. repeat split; auto.
Qed.

End RxThreadMore.

(** *** The receive loop with [eth_rx] run in full *)

Section RxLoopMore.
Import Eth EthObs.

Variable HAL_ETH_GetReceivedFrame_IT :
  ETH_HandleTypeDef -> HAL_StatusTypeDef * ETH_HandleTypeDef.

Lemma count_calls_cons f c cs :
  count_calls f (c :: cs) = ((if f c then 1 else 0) + count_calls f cs)%nat.
Proof. unfold count_calls. cbn [List.filter]. now destruct (f c). Qed.

Lemma count_events_step f e tr :
  count_events f (e :: tr) = ((if f e then 1 else 0) + count_events f tr)%nat.
Proof. unfold count_events. cbn [List.filter]. now destruct (f e). Qed.

Lemma count_events_cat f a b :
  count_events f (a ++ b) = (count_events f a + count_events f b)%nat.
Proof. unfold count_events. now rewrite List.filter_app, length_app. Qed.

Lemma recv_results_app a b :
  recv_results (a ++ b) = recv_results a ++ recv_results b.
Proof.
  induction a as [| e a IH]; [reflexivity |].
  destruct e as [c | h | c | []]; cbn [app recv_results]; now rewrite ?IH.
Qed.

Lemma rx_loop_deliver res frames :
  rx_loop (res :: frames)
    = Sys (eth_rx_returned true) :: deliver res ++ rx_loop frames.
Proof. reflexivity. Qed.

(** What one call of [eth_rx] adds to the trace, and what became of the
    packet it allocated, if any. *)
Lemma eth_rx_call_facts cfg p heth vlan_tag :
  let own := eth_rx_calls HAL_ETH_GetReceivedFrame_IT cfg (pass_env p) heth vlan_tag in
  let c := {| call_pass := p;
              call_frame := is_HAL_OK (HAL_ETH_GetReceivedFrame_IT heth).1;
              call_result := eth_rx HAL_ETH_GetReceivedFrame_IT cfg (pass_env p)
                               heth vlan_tag |} in
  recv_results own = []
  /\ count_events is_eth_rx_call own = 0%nat
  /\ count_events is_net_pkt_unref own = (if copy_failed c then 1 else 0)%nat
  /\ count_events is_rx_error_count own = (if error_counted c then 1 else 0)%nat
  /\ (if allocated c then 1 else 0)%nat
     = ((if got_packet c then 1 else 0) + (if copy_failed c then 1 else 0)
        + (if lost_in_fault c then 1 else 0))%nat
  /\ (got_packet c = true -> own = [])
  /\ (got_packet c = false -> accepted c = false /\ turned_down c = false)
  /\ (rx_outcome_of (call_result c) = Returns None -> lost_in_fault c = false).
Proof.
  cbn zeta.
  unfold eth_rx_calls, copy_failed, error_counted, lost_in_fault, allocated,
    accepted, turned_down, got_packet, copy_failed, allocated, eth_rx.
  cbn [call_pass call_frame call_result].
  destruct (HAL_ETH_GetReceivedFrame_IT heth) as [ret h1]. cbn [fst].
  destruct ret; cbn [is_HAL_OK negb andb];
    [| cbn; repeat split; (reflexivity || discriminate || auto) ..].
  destruct (alloc_ok (pass_env p)); destruct (net_pkt_write_rc (pass_env p) =? 0);
    destruct (release_descs _ _ _);
    try destruct (negb (Z.land _ ETH_DMASR_RBUS =? 0));
    destruct (CONFIG_NET_VLAN cfg); try destruct (frame_vlan_tci (pass_env p));
    cbn; repeat split; (reflexivity || discriminate || auto).
Qed.


(** X10.  In the receive loop of [rx_thread], with [eth_rx] run in full:
    every packet [eth_rx] returns is handed to [net_recv_data] exactly once,
    in order; [net_pkt_unref] is called once for every packet the stack
    refused and once for every call of [eth_rx] whose copy failed, and never
    otherwise; [eth_stats_update_errors_rx] is called once for every
    refused packet and once for every call in which [eth_rx] counted an
    error itself.  Every packet allocated is accounted for: the stack kept
    it, or it was released, or the call that held it faulted.  Only the
    last call of the loop can be one that yields no packet.  When the loop
    exits, [eth_rx] has been called once more than packets were delivered,
    and the trace is the one of [Eth.rx_loop] with what the last call of
    [eth_rx] called on its own put before its return. *)
Theorem rx_thread_packet_ownership (cfg : config) (passes : list rx_pass)
    (heth : ETH_HandleTypeDef) (vlan_tag : Z) :
  let k := rx_receive HAL_ETH_GetReceivedFrame_IT cfg passes heth vlan_tag in
  let tr := run_trace k in
  let cs := run_calls k in
  recv_results tr
    = map (fun c => recv_res (call_pass c)) (List.filter got_packet cs)
  /\ count_events is_net_pkt_unref tr
     = (count_calls turned_down cs + count_calls copy_failed cs)%nat
  /\ count_events is_rx_error_count tr
     = (count_calls turned_down cs + count_calls error_counted cs)%nat
  /\ count_calls allocated cs
     = (count_calls accepted cs + count_events is_net_pkt_unref tr
        + count_calls lost_in_fault cs)%nat
  /\ forallb got_packet (removelast cs) = true
  /\ (run_end k = Loop_exits ->
      count_calls lost_in_fault cs = 0%nat
      /\ length cs = S (length (recv_results tr))
      /\ exists before own,
           rx_loop (recv_results tr) = before ++ [Sys (eth_rx_returned false)]
           /\ tr = before ++ own ++ [Sys (eth_rx_returned false)]).
Proof.
  cbn zeta. revert heth vlan_tag.
  induction passes as [| p rest IH]; intros heth vlan_tag; cbn [rx_receive].
  - cbn. repeat split; auto; discriminate.
  - pose proof (eth_rx_call_facts cfg p heth vlan_tag) as F. cbn zeta in F.
    set (r := eth_rx HAL_ETH_GetReceivedFrame_IT cfg (pass_env p) heth vlan_tag) in *.
    set (own := eth_rx_calls HAL_ETH_GetReceivedFrame_IT cfg (pass_env p) heth vlan_tag) in *.
    set (c := {| call_pass := p;
                 call_frame := is_HAL_OK (HAL_ETH_GetReceivedFrame_IT heth).1;
                 call_result := r |}) in *.
    destruct F as (Fr & Fc & Fu & Fe & Fa & Fown & Fno & Fnone).
    assert (Hgp : got_packet c
                  = match rx_outcome_of r with Returns (Some _) => true | _ => false end)
      by reflexivity.
    assert (Hacc : accepted c = got_packet c && negb (recv_res p <? 0))
      by reflexivity.
    assert (Htd : turned_down c = got_packet c && (recv_res p <? 0))
      by reflexivity.
    assert (Hp : call_pass c = p) by reflexivity.
    assert (Hcr : call_result c = r) by reflexivity.
    clearbody c own r.
    destruct (rx_outcome_of r) as [[pkt |] |] eqn:Hout.
    + (* a packet: deliver it and go round again *)
      specialize (IH (rx_heth r) (rx_vlan_tag r)).
      destruct (rx_receive HAL_ETH_GetReceivedFrame_IT cfg rest (rx_heth r)
                  (rx_vlan_tag r)) as [trk csk endk].
      cbn [run_trace run_calls run_end] in *.
      destruct IH as (I1 & I2 & I3 & I4 & I5 & I6).
      rewrite (Fown Hgp) in *. cbn [app].
      rewrite Hgp in Hacc, Htd. cbn [andb] in Hacc, Htd.
      cbn in Fu, Fe. rewrite Hgp in Fa.
      rewrite !count_calls_cons, Hacc, Htd, !count_events_step.
      unfold deliver. cbn [app].
      rewrite !count_events_step.
      cbn [List.filter map recv_results is_net_pkt_unref is_rx_error_count].
      rewrite Hgp. cbn [map]. rewrite Hp.
      destruct (copy_failed c), (error_counted c), (allocated c),
        (lost_in_fault c); try discriminate.
      assert (Hlast : forallb got_packet (removelast (c :: csk)) = true).
      { destruct csk as [| c' csk']; [reflexivity |].
        change (removelast (c :: c' :: csk')) with (c :: removelast (c' :: csk')).
        cbn [forallb]. now rewrite Hgp, I5. }
      assert (Hexit : endk = Loop_exits ->
                exists before own0,
                  rx_loop (recv_res p :: recv_results trk)
                    = before ++ [Sys (eth_rx_returned false)]
                  /\ Sys (eth_rx_returned true) :: deliver (recv_res p) ++ trk
                     = before ++ own0 ++ [Sys (eth_rx_returned false)]).
      { intros He. destruct (I6 He) as (_ & _ & bf & ow & Hb & Ht).
        exists (Sys (eth_rx_returned true) :: deliver (recv_res p) ++ bf), ow.
        rewrite rx_loop_deliver, Hb, Ht.
        cbn [app]. rewrite <- !app_assoc. split; reflexivity. }
      unfold deliver in Hexit.
      destruct (recv_res p <? 0) eqn:Hres;
        cbn [app negb recv_results] in *;
        rewrite ?count_events_step;
        cbn [is_net_pkt_unref is_rx_error_count];
        (split; [now rewrite I1 |]); (split; [lia |]); (split; [lia |]);
        (split; [lia |]); (split; [exact Hlast |]);
        intros He; destruct (I6 He) as (L & Hlen & _);
        (split; [lia |]); (split; [cbn [length]; lia |]);
        exact (Hexit He).
    + (* NULL: the loop exits *)
      clear Hacc Htd. destruct (Fno Hgp) as [Hacc Htd].
      rewrite Hcr, Hout in Fnone. specialize (Fnone eq_refl).
      cbn [run_trace run_calls run_end].
      rewrite recv_results_app, Fr, !count_events_cat, Fu, Fe.
      rewrite !count_calls_cons, Hacc, Htd, Fnone.
      cbn [List.filter]. rewrite Hgp. rewrite Hgp in Fa.
      cbn. unfold count_calls. cbn.
      repeat split; try lia.
      * rewrite Fnone in Fa. lia.
      * exists [], own. split; reflexivity.
    + (* a fault *)
      clear Hacc Htd. destruct (Fno Hgp) as [Hacc Htd].
      cbn [run_trace run_calls run_end].
      rewrite Fr, Fu, Fe.
      rewrite !count_calls_cons, Hacc, Htd.
      cbn [List.filter]. rewrite Hgp. rewrite Hgp in Fa.
      cbn. unfold count_calls. cbn.
      repeat split; try lia; discriminate.
Qed.

End RxLoopMore.

(** Three frames on a build without VLAN support: the stack keeps the
    first, refuses the second, and the copy of the third fails inside
    [eth_rx]. *)
Lemma rx_thread_packet_ownership_witness :
  let cfg := Eth.mk_config false false false false 1524 4 500 in
  let ok := Eth.mk_rx_env true 0 None in
  let passes := [EthObs.mk_rx_pass ok 0; EthObs.mk_rx_pass ok (-5);
                 EthObs.mk_rx_pass (Eth.mk_rx_env true 1 None) 0] in
  let k := EthObs.rx_receive Eth.sample_HAL cfg passes Eth.sample_handle 0 in
  EthObs.run_end k = EthObs.Loop_exits
  /\ EthObs.recv_results (EthObs.run_trace k) = [0; -5]
  /\ Eth.count_events EthObs.is_net_pkt_unref (EthObs.run_trace k) = 2%nat
  /\ Eth.count_events EthObs.is_rx_error_count (EthObs.run_trace k) = 2%nat
  /\ EthObs.count_calls EthObs.allocated (EthObs.run_calls k) = 3%nat
  /\ length (EthObs.run_calls k) = 3%nat.
Proof.
  cbn zeta.
  pose proof (rx_thread_packet_ownership Eth.sample_HAL
                (Eth.mk_config false false false false 1524 4 500)
                [EthObs.mk_rx_pass (Eth.mk_rx_env true 0 None) 0;
                 EthObs.mk_rx_pass (Eth.mk_rx_env true 0 None) (-5);
                 EthObs.mk_rx_pass (Eth.mk_rx_env true 1 None) 0]
                Eth.sample_handle 0) as H.
  cbn zeta in H. destruct H as (Hr & Hu & He & Ha & _ & Hx).
  assert (Hend : EthObs.run_end
                   (EthObs.rx_receive Eth.sample_HAL
                      (Eth.mk_config false false false false 1524 4 500)
                      [EthObs.mk_rx_pass (Eth.mk_rx_env true 0 None) 0;
                       EthObs.mk_rx_pass (Eth.mk_rx_env true 0 None) (-5);
                       EthObs.mk_rx_pass (Eth.mk_rx_env true 1 None) 0]
                      Eth.sample_handle 0) = EthObs.Loop_exits)
    by (vm_compute; reflexivity).
  destruct (Hx Hend) as (_ & Hlen & _).
  split; [exact Hend |].
  split; [rewrite Hr; vm_compute; reflexivity |].
  split; [rewrite Hu; vm_compute; reflexivity |].
  split; [rewrite He; vm_compute; reflexivity |].
  split; [rewrite Ha; vm_compute; reflexivity |].
  rewrite Hlen, Hr. vm_compute. reflexivity.
Defined.

(** An idle check that finds the link bit clear while the link was up. *)
Lemma rx_thread_carrier_off_only_on_idle_check_witness :
  let cfg := Eth.mk_config false false false false 1524 4 500 in
  let i := Eth.mk_rx_iter (-11) [] Eth.HAL_OK 0 in
  Eth.carrier_reports (Eth.rx_thread_iteration cfg i true).1 = [false]
  /\ (Eth.rx_thread_iteration cfg i true).2 = false.
Proof.
  cbn zeta. split; [reflexivity |].
  apply (rx_thread_carrier_off_only_on_idle_check
           (Eth.mk_config false false false false 1524 4 500)
           (Eth.mk_rx_iter (-11) [] Eth.HAL_OK 0) true eq_refl).
Defined.

(** ** Initialisation and interrupt, continued *)

Section EthInitMore.
Import Eth EthObs.

(** X13.  The [HAL_ETH_DescAssignMemory] loop assigns the descriptors in
    index order and stops at the first failure: the indices passed are
    [i, i+1, ..., i+m-1], every call before the last succeeded, and either
    all [n] descriptors were assigned or the last call failed and was
    logged. *)
Theorem assign_rx_memory_stops_at_first_failure
    (ret : nat -> HAL_StatusTypeDef) (n i : nat) :
  let r := assign_rx_memory n i ret in
  exists m,
    (m <= n)%nat
    /\ assigned_indices r.1 = seq i m
    /\ forallb (fun j => is_HAL_OK (ret j)) (seq i (if r.2 then m else pred m)) = true
    /\ (if r.2 then m = n
        else (0 < m)%nat /\ is_HAL_OK (ret (i + pred m)%nat) = false)
    /\ count_events (fun e => match e with Sys LOG_ERR => true | _ => false end) r.1
       = (if r.2 then 0 else 1)%nat
    /\ count_events is_hal_start r.1 = 0%nat.
Proof.
  cbn zeta. revert i. induction n as [| n IH]; intros i; cbn [assign_rx_memory].
  - exists 0%nat. repeat split; reflexivity.
  - destruct (is_HAL_OK (ret i)) eqn:Hi.
    + destruct (IH (S i)) as (m & Hm & Hidx & Hok & Hlast & Hlog & Hst).
      destruct (assign_rx_memory n (S i) ret) as [tr ok]. cbn [fst snd] in *.
      exists (S m). split; [lia |]. split; [cbn; now rewrite Hidx |].
      unfold count_events in *. cbn [List.filter is_hal_start].
      destruct ok.
      * cbn [seq forallb]. rewrite Hi, Hok.
        repeat split; try assumption. lia.
      * destruct Hlast as [Hpos Hfail].
        destruct m as [| m']; [lia |]. cbn [pred seq forallb] in *.
        rewrite Hi, Hok. repeat split; try assumption; try lia.
        replace (i + S m')%nat with (S i + m')%nat by lia. exact Hfail.
    + exists 1%nat. cbn. rewrite Nat.add_0_r. repeat split; auto; lia.
Qed.

Lemma count_events_cons f e tr :
  count_events f (e :: tr) = ((if f e then 1 else 0) + count_events f tr)%nat.
Proof. unfold count_events. cbn. destruct (f e); reflexivity. Qed.

(** X14.  [eth_initialize] returns [-EIO] when a clock cannot be enabled,
    0 exactly when it went on to start the MAC ([HAL_ETH_Start] or
    [HAL_ETH_Start_IT], called once), and [-EINVAL] otherwise; what the
    start call returns does not matter.  [link_up] is cleared once the
    clocks and [HAL_ETH_Init] are through, and left alone before. *)
Theorem eth_initialize_returns (cfg : config) (env : init_env) (link_up : bool) :
  let r := eth_initialize cfg env link_up in
  let assigned :=
    (assign_rx_memory (ETH_RX_DESC_CNT cfg) 0 (desc_assign_ret env)).2 in
  let started :=
    init_proceeds cfg env
    && (negb (CONFIG_SOC_SERIES_STM32H7X cfg) || assigned) in
  r.1.2 = (if negb (clocks_ret cfg env =? 0) then - EIO
           else if started then 0 else - EINVAL)
  /\ count_events is_hal_start r.1.1 = (if started then 1 else 0)%nat
  /\ r.2 = (if init_proceeds cfg env then false else link_up).
Proof.
  cbn zeta. unfold eth_initialize, init_proceeds, init_finish, disable_mcast_filter.
  destruct (clocks_ret cfg env =? 0); cbn [negb andb].
  2:{ cbn [fst snd]. split; [reflexivity |]. split; [| reflexivity].
      rewrite count_events_app.
      destruct (CONFIG_SOC_SERIES_STM32H7X cfg); reflexivity. }
  destruct (assign_rx_memory_stops_at_first_failure (desc_assign_ret env)
              (ETH_RX_DESC_CNT cfg) 0) as (m & _ & _ & _ & _ & _ & Hst).
  destruct (assign_rx_memory (ETH_RX_DESC_CNT cfg) 0 (desc_assign_ret env))
    as [atr ok]. cbn [fst snd] in Hst.
  destruct (hal_init_ret env); cbn [is_HAL_OK is_HAL_TIMEOUT negb andb orb];
    destruct (CONFIG_SOC_SERIES_STM32H7X cfg); cbn [negb orb fst snd];
    try destruct ok; cbn [negb fst snd];
    (split; [reflexivity |]); (split; [| reflexivity]);
    rewrite !count_events_app, ?Hst;
    destruct (CONFIG_ETH_STM32_HAL_RANDOM_MAC cfg),
      (CONFIG_NET_L2_CANBUS_ETH_TRANSLATOR cfg),
      (is_HAL_OK (hal_start_ret env)); reflexivity.
Qed.

(** X15.  On H7X, when [HAL_ETH_DescAssignMemory] fails, [eth_initialize]
    returns [-EINVAL] with the receive thread already created (and
    [tx_mutex], [rx_int_sem] initialised), but the MAC is never started and
    the multicast filter never set up. *)
Theorem eth_initialize_assign_failure_leaves_thread (cfg : config)
    (env : init_env) (link_up : bool) :
  CONFIG_SOC_SERIES_STM32H7X cfg = true ->
  init_proceeds cfg env = true ->
  (assign_rx_memory (ETH_RX_DESC_CNT cfg) 0 (desc_assign_ret env)).2 = false ->
  let r := eth_initialize cfg env link_up in
  r.1.2 = - EINVAL
  /\ kernel_calls r.1.1 = worker_setup
  /\ thread_creates r.1.1 = 1%nat
  /\ count_events is_hal_start r.1.1 = 0%nat
  /\ r.2 = false.
Proof.
  intros Hh7 Hgo Hfail. cbn zeta.
  pose proof (eth_initialize_returns cfg env link_up) as Hret.
  cbn zeta in Hret. rewrite Hgo, Hh7, Hfail in Hret.
  unfold init_proceeds in Hgo. apply andb_prop in Hgo as [Hclk Hinit].
  rewrite Hclk in Hret. cbn [negb andb orb] in Hret.
  destruct Hret as (Hr & Hs & Hl).
  assert (Hk : kernel_calls (eth_initialize cfg env link_up).1.1 = worker_setup).
  { pose proof (assign_rx_memory_kernel_calls (desc_assign_ret env)
                  (ETH_RX_DESC_CNT cfg) 0) as Ha.
    unfold eth_initialize. rewrite Hclk, Hh7. cbn [negb].
    destruct (assign_rx_memory (ETH_RX_DESC_CNT cfg) 0 (desc_assign_ret env))
      as [atr ok]. cbn [fst snd] in Ha, Hfail. subst ok.
    destruct (hal_init_ret env); cbn in Hinit; try discriminate;
      cbn [is_HAL_OK is_HAL_TIMEOUT negb andb fst];
      rewrite !kernel_calls_app, Ha;
      destruct (CONFIG_ETH_STM32_HAL_RANDOM_MAC cfg),
        (CONFIG_NET_L2_CANBUS_ETH_TRANSLATOR cfg); reflexivity. }
  repeat split; try assumption.
  unfold thread_creates. rewrite Hk. reflexivity.
Qed.

Lemma kernel_calls_callbacks_count fired :
  kernel_calls (concat (map run_callback fired))
    = repeat (k_sem_give rx_int_sem) (length (List.filter is_RxCplt fired)).
Proof.
  induction fired as [| cb rest IH]; [reflexivity |].
  cbn [map concat]. rewrite kernel_calls_app, IH. destruct cb; reflexivity.
Qed.

(** X16.  An interrupt gives [rx_int_sem] once for every receive-complete
    callback the HAL fires from it and makes no other kernel call: transmit
    and error interrupts alone never wake the receive thread. *)
Theorem eth_isr_gives_per_rx_complete (fired : list hal_callback) :
  kernel_calls (eth_isr fired)
    = repeat (k_sem_give rx_int_sem) (length (List.filter is_RxCplt fired))
  /\ (forallb (fun cb => negb (is_RxCplt cb)) fired = true ->
      kernel_calls (eth_isr fired) = []).
Proof.
  unfold eth_isr. cbn [kernel_calls]. rewrite kernel_calls_callbacks_count.
  split; [reflexivity |]. intros Hno.
  assert (Hf : List.filter is_RxCplt fired = []).
  { induction fired as [| cb rest IH]; [reflexivity |].
    cbn [forallb] in Hno. apply andb_prop in Hno as [Hcb Hrest].
    cbn [List.filter]. destruct (is_RxCplt cb); [discriminate |]. now apply IH. }
  now rewrite Hf.
Qed.

End EthInitMore.

(** Descriptor 2 of 4 cannot be assigned. *)
Lemma eth_initialize_assign_failure_leaves_thread_witness :
  let cfg := Eth.mk_config true false false false 1524 4 500 in
  let env := Eth.mk_init_env 0 0 0 0 Eth.HAL_OK
               (fun i => if Nat.eqb i 2 then Eth.HAL_ERROR else Eth.HAL_OK)
               Eth.HAL_OK in
  (Eth.eth_initialize cfg env true).1.2 = -22
  /\ Eth.thread_creates (Eth.eth_initialize cfg env true).1.1 = 1%nat.
Proof.
  cbn zeta.
  pose proof (eth_initialize_assign_failure_leaves_thread
                (Eth.mk_config true false false false 1524 4 500)
                (Eth.mk_init_env 0 0 0 0 Eth.HAL_OK
                   (fun i => if Nat.eqb i 2 then Eth.HAL_ERROR else Eth.HAL_OK)
                   Eth.HAL_OK)
                true eq_refl eq_refl eq_refl) as H.
  cbn zeta in H. split; apply H.
Defined.

(** ** The benchmarks' loops *)

Section BenchFacts.
Import Bench.

Lemma consecutive_from_S d k :
  consecutive_from d (S k) = d :: consecutive_from (d + 1) k.
Proof.
  unfold consecutive_from. cbn [seq map]. f_equal; [lia |].
  rewrite <- seq_shift, map_map. apply map_ext. intros j. lia.
Qed.

Lemma producer_loop_spec puts : forall status d,
  d + Z.of_nat (length puts) <= INT_MAX ->
  exists log st,
    producer_loop puts status d = Some (log, st)
    /\ map snd log = puts
    /\ accepted log
       = consecutive_from (if status =? 0 then d + 1 else d) (zero_statuses puts)
    /\ Forall (fun e => d <= fst e <= d + Z.of_nat (length puts)) log.
Proof.
  unfold zero_statuses.
  induction puts as [| r rest IH]; intros status d Hd; cbn [producer_loop].
  - exists [], (status, d). repeat split; constructor.
  - cbn [length] in Hd.
    assert (Hov : (status =? 0) && (INT_MAX <=? d) = false).
    { destruct (Z.leb_spec INT_MAX d); [lia | apply andb_false_r]. }
    rewrite Hov.
    destruct (IH r (if status =? 0 then d + 1 else d)) as (log & st & Hrun & Hst & Hacc & Hrange).
    { destruct (status =? 0); lia. }
    rewrite Hrun. eexists _, _. split; [reflexivity |].
    split; [cbn; now rewrite Hst |]. split.
    + unfold accepted in *. cbn [List.filter snd fst map length].
      destruct (r =? 0); cbn [map fst length].
      * rewrite Hacc. now rewrite consecutive_from_S.
      * exact Hacc.
    + constructor.
      * cbn [fst length]. destruct (status =? 0); lia.
      * eapply Forall_impl; [exact Hrange |].
        intros e He. cbn [length]. destruct (status =? 0); lia.
Qed.

(** X17.  The message-queue producer offers each value until the queue
    accepts it: whatever statuses the puts return, the values whose put
    returned 0 are the consecutive integers from [data_to_send + 1] on, none
    skipped and none repeated, and every value offered stays within the
    range of [int] as long as the start value leaves room for one
    increment per put. *)
Theorem producer_accepted_values_consecutive (puts : list Z) (data_to_send : Z) :
  data_to_send + Z.of_nat (length puts) <= INT_MAX ->
  exists log st,
    thread_producer_get_msgq_w_cxt_switch puts data_to_send = Some (log, st)
    /\ map snd log = puts
    /\ accepted log = consecutive_from (data_to_send + 1)
                        (length (List.filter (fun r => r =? 0) puts))
    /\ Forall (fun e => data_to_send <= fst e <= INT_MAX) log.
Proof.
  intros Hd. unfold thread_producer_get_msgq_w_cxt_switch.
  destruct (producer_loop_spec puts 0 data_to_send Hd)
    as (log & st & Hrun & Hst & Hacc & Hrange).
  exists log, st. repeat split; try assumption.
  eapply Forall_impl; [exact Hrange |]. intros e He. cbn beta in He. lia.
Qed.

End BenchFacts.

(** The queue of capacity 3 full after three puts: the fourth and fifth
    puts time out ([-EAGAIN]), the sixth goes through with the value that
    was refused. *)
Lemma producer_accepted_values_consecutive_witness :
  exists log st,
    Bench.thread_producer_get_msgq_w_cxt_switch [0; 0; 0; -11; -11; 0] 0
      = Some (log, st)
    /\ Bench.accepted log = [1; 2; 3; 4].
Proof.
  destruct (producer_accepted_values_consecutive [0; 0; 0; -11; -11; 0] 0
              ltac:(cbn; unfold Bench.INT_MAX; lia))
    as (log & st & Hrun & _ & Hacc & _).
  exists log, st. split; [exact Hrun | exact Hacc].
Defined.

Section MutexBenchFacts.
Import Bench.

Lemma u32_add_idem a b : u32 (u32 a + b) = u32 (a + b).
Proof. unfold u32. apply Z.add_mod_idemp_l. lia. Qed.

Lemma u64_add_idem a b : u64 (u64 a + b) = u64 (a + b).
Proof. unfold u64. apply Z.add_mod_idemp_l. lia. Qed.

Lemma mutex_bench_step_tick_free t s :
  mutex_bench_step t s
    = if tick_free s
      then {| count := u32 (count t + 1);
              mutex_lock_diff := u64 (mutex_lock_diff t + lock_cycles s);
              mutex_unlock_diff := u64 (mutex_unlock_diff t + unlock_cycles s) |}
      else t.
Proof.
  unfold mutex_bench_step, tick_free.
  now destruct (after s - before s =? 0).
Qed.

Lemma mutex_bench_fold samples : forall t,
  totals_in_range t ->
  fold_left mutex_bench_step samples t
    = {| count := u32 (count t + Z.of_nat (length (List.filter tick_free samples)));
         mutex_lock_diff :=
           u64 (mutex_lock_diff t
                + sum_of lock_cycles (List.filter tick_free samples));
         mutex_unlock_diff :=
           u64 (mutex_unlock_diff t
                + sum_of unlock_cycles (List.filter tick_free samples)) |}.
Proof.
  induction samples as [| s rest IH]; intros t (Hc & Hl & Hu);
    cbn [fold_left List.filter].
  - cbn [length sum_of fold_right]. rewrite !Z.add_0_r.
    unfold u32, u64. rewrite !Z.mod_small by assumption. now destruct t.
  - rewrite mutex_bench_step_tick_free.
    destruct (tick_free s).
    + rewrite IH.
      * cbn [count mutex_lock_diff mutex_unlock_diff length sum_of fold_right].
        fold (sum_of lock_cycles (List.filter tick_free rest)).
        fold (sum_of unlock_cycles (List.filter tick_free rest)).
        rewrite u32_add_idem, !u64_add_idem. f_equal; f_equal; lia.
      * unfold totals_in_range. cbn [count mutex_lock_diff mutex_unlock_diff].
        unfold u32, u64. repeat split; apply Z.mod_pos_bound; lia.
    + apply IH. repeat split; lia.
Qed.

Lemma sum_of_bounds f l :
  Forall (fun s => 0 <= f s < 2 ^ 32) l ->
  0 <= sum_of f l <= Z.of_nat (length l) * (2 ^ 32 - 1).
Proof.
  induction 1 as [| s l Hs Hl IH]; cbn [sum_of fold_right length]; [lia |].
  fold (sum_of f l). lia.
Qed.

(** X18.  [mutex_bench] averages over the samples that saw no timer tick
    and over nothing else: with at most 1000 samples of 32-bit cycle counts
    it prints the floor of the mean lock and unlock cycles of the tick-free
    samples, and it divides by zero exactly when every sample saw a tick. *)
Theorem mutex_bench_averages_tick_free (samples : list sample) :
  (length samples <= 1000)%nat ->
  Forall (fun s => 0 <= lock_cycles s < 2 ^ 32
                   /\ 0 <= unlock_cycles s < 2 ^ 32) samples ->
  let kept := List.filter tick_free samples in
  mutex_bench samples
    = match kept with
      | [] => None
      | _ => Some (sum_of lock_cycles kept / Z.of_nat (length kept),
                   sum_of unlock_cycles kept / Z.of_nat (length kept))
      end.
Proof.
  intros Hlen Hrange. cbn zeta. unfold mutex_bench.
  rewrite mutex_bench_fold
    by (unfold totals_in_range; cbn; repeat split; lia).
  cbn [count mutex_lock_diff mutex_unlock_diff]. rewrite !Z.add_0_l.
  assert (Hkept : Forall (fun s => 0 <= lock_cycles s < 2 ^ 32
                                   /\ 0 <= unlock_cycles s < 2 ^ 32)
                    (List.filter tick_free samples)).
  { apply List.Forall_forall. intros s Hs. apply List.filter_In in Hs as [Hs _].
    revert s Hs. now apply List.Forall_forall. }
  assert (Hn : (length (List.filter tick_free samples) <= 1000)%nat).
  { pose proof (List.filter_length_le tick_free samples). lia. }
  destruct (List.filter tick_free samples) as [| s0 kept'] eqn:Hk;
    [reflexivity |].
  set (kept := s0 :: kept') in *.
  assert (Hpos : 0 < Z.of_nat (length kept)) by (cbn [kept length]; lia).
  pose proof (sum_of_bounds lock_cycles kept
                (Forall_impl _ _ _ Hkept (fun s H => proj1 H))) as Hl.
  pose proof (sum_of_bounds unlock_cycles kept
                (Forall_impl _ _ _ Hkept (fun s H => proj2 H))) as Hu.
  change (2 ^ 32) with 4294967296 in *.
  assert (Hc : u32 (Z.of_nat (length kept)) = Z.of_nat (length kept)).
  { unfold u32. apply Z.mod_small. change (2 ^ 32) with 4294967296. lia. }
  assert (H64 : forall x, 0 <= x <= Z.of_nat (length kept) * 4294967295 ->
                          u64 x = x).
  { intros x Hx. unfold u64. apply Z.mod_small.
    change (2 ^ 64) with 18446744073709551616. nia. }
  assert (H32 : forall x, 0 <= x <= Z.of_nat (length kept) * 4294967295 ->
                          u32 (x / Z.of_nat (length kept))
                          = x / Z.of_nat (length kept)).
  { intros x Hx. unfold u32. apply Z.mod_small.
    change (2 ^ 32) with 4294967296. split.
    - apply Z.div_pos; lia.
    - apply Z.div_lt_upper_bound; nia. }
  rewrite Hc, (H64 _ Hl), (H64 _ Hu), (H32 _ Hl), (H32 _ Hu).
  destruct (Z.eqb_spec (Z.of_nat (length kept)) 0); [lia | reflexivity].
Qed.

End MutexBenchFacts.

(** Three samples, the second one interrupted by a tick. *)
Lemma mutex_bench_averages_tick_free_witness :
  Bench.mutex_bench [Bench.mk_sample 5 5 100 40; Bench.mk_sample 5 6 900 900;
                     Bench.mk_sample 6 6 103 41] = Some (101, 40)
  /\ Bench.mutex_bench [Bench.mk_sample 5 6 900 900] = None.
Proof.
  split.
  - rewrite (mutex_bench_averages_tick_free
               [Bench.mk_sample 5 5 100 40; Bench.mk_sample 5 6 900 900;
                Bench.mk_sample 6 6 103 41]).
    + reflexivity.
    + cbn. lia.
    + repeat constructor; cbn; lia.
  - reflexivity.
Defined.

(** ** Device MMIO regions *)

Section DeviceMmioFacts.
Import DeviceMmio.

Variable k_mem_map : Z -> Z -> Z -> Z.
Variable K_MEM_PERM_RW : Z.

Lemma land_lor_absorb (f rw : Z) : Z.land (Z.lor f rw) rw = rw.
Proof.
  apply Z.bits_inj'. intros n Hn. rewrite Z.land_spec, Z.lor_spec.
  destruct (Z.testbit f n), (Z.testbit rw n); reflexivity.
Qed.

Lemma to_uintptr_t_idem (c : mmio_config) (v : Z) :
  to_uintptr_t c (to_uintptr_t c v) = to_uintptr_t c v.
Proof. unfold to_uintptr_t. apply Zmod_mod. Qed.

(** Or-ing two 32-bit values stays within 32 bits. *)
Lemma to_uint32_t_lor (f rw : Z) :
  0 <= rw < 2 ^ 32 ->
  to_uint32_t (Z.lor (to_uint32_t f) rw) = Z.lor (to_uint32_t f) rw.
Proof.
  intros Hrw. unfold to_uint32_t. apply Z.mod_small.
  assert (Hf : 0 <= f mod 2 ^ 32 < 2 ^ 32) by (apply Z.mod_pos_bound; lia).
  split; [apply Z.lor_nonneg; lia |].
  destruct (Z.eq_dec (Z.lor (f mod 2 ^ 32) rw) 0) as [-> | Hnz]; [lia |].
  apply Z.log2_lt_pow2; [pose proof (proj2 (Z.lor_nonneg (f mod 2 ^ 32) rw)); lia |].
  rewrite Z.log2_lor by lia.
  apply Z.max_lub_lt.
  - destruct (Z.eq_dec (f mod 2 ^ 32) 0) as [-> | ?]; [cbn; lia |].
    apply Z.log2_lt_pow2; lia.
  - destruct (Z.eq_dec rw 0) as [-> | ?]; [cbn; lia |].
    apply Z.log2_lt_pow2; lia.
Qed.

(** X19.  For a region whose ROM entry was initialised from the device
    tree, mapping it and then reading its address returns the device-tree
    address itself (as a [uintptr_t]) when there is no MMU, whether the
    address is kept in ROM or in RAM, and with an MMU the address the kernel
    picked for exactly that physical address and size, requested once with
    the caller's flags, taken as a [uint32_t], plus read-write access.  The
    ROM entry is never written, and no other region's address changes. *)
Theorem device_mmio_map_then_get (c : mmio_config) (dev : device)
    (name other : nat) (reg_addr reg_size flags : Z) :
  0 <= K_MEM_PERM_RW < 2 ^ 32 ->
  config_info dev !! name
    = Some (Z_DEVICE_MMIO_ROM_INITIALIZER c reg_addr reg_size) ->
  let map_flags := Z.lor (to_uint32_t flags) K_MEM_PERM_RW in
  exists dev' reqs,
    DEVICE_MMIO_NAMED_MAP k_mem_map K_MEM_PERM_RW c dev name flags
      = Some (dev', reqs)
    /\ DEVICE_MMIO_NAMED_GET c dev' name
       = Some (if CONFIG_MMU c
               then k_mem_map (to_uintptr_t c reg_addr) (to_uintptr_t c reg_size)
                      map_flags
               else to_uintptr_t c reg_addr)
    /\ reqs = (if CONFIG_MMU c
               then [mk_request (to_uintptr_t c reg_addr) (to_uintptr_t c reg_size)
                       map_flags]
               else [])
    /\ Forall (fun r => Z.land (req_flags r) K_MEM_PERM_RW = K_MEM_PERM_RW
                        /\ 0 <= req_flags r < 2 ^ 32) reqs
    /\ config_info dev' = config_info dev
    /\ (other <> name ->
        DEVICE_MMIO_NAMED_GET c dev' other = DEVICE_MMIO_NAMED_GET c dev other).
Proof.
  intros Hrw Hrom map_flags.
  assert (Hin : 0 <= map_flags < 2 ^ 32).
  { unfold map_flags. rewrite <- (to_uint32_t_lor flags K_MEM_PERM_RW Hrw).
    unfold to_uint32_t at 1. apply Z.mod_pos_bound. lia. }
  unfold DEVICE_MMIO_NAMED_MAP, DEVICE_MMIO_NAMED_GET, device_map,
    Z_DEVICE_MMIO_ROM_INITIALIZER, DEVICE_MMIO_IS_IN_RAM in *.
  destruct (CONFIG_MMU c), (CONFIG_PCIE c); cbn [orb] in *;
    rewrite ?Hrom; cbn zeta;
    rewrite ?to_uintptr_t_idem, ?(to_uint32_t_lor flags K_MEM_PERM_RW Hrw);
    fold map_flags;
    eexists _, _; (split; [reflexivity |]);
    cbn [driver_data config_info];
    rewrite ?lookup_insert_eq, ?Hrom;
    (split; [reflexivity |]); (split; [reflexivity |]);
    (split; [repeat constructor; cbn [req_flags];
             try apply land_lor_absorb; lia |]);
    (split; [reflexivity |]);
    intros Hne; rewrite ?lookup_insert_ne by congruence; reflexivity.
Qed.

End DeviceMmioFacts.

(** A UART at 0xFED00000 on a 32-bit target with an MMU, mapped with a
    flags argument that does not fit 32 bits: the kernel is asked for
    flags 9 (bit 0 of the argument and [K_MEM_PERM_RW = 8]). *)
Lemma device_mmio_map_then_get_witness :
  let c := DeviceMmio.mk_mmio_config true false 32 in
  let k_mem_map := fun phys _ _ : Z => phys - 0x7ED00000 in
  let dev := DeviceMmio.mk_device
               (DeviceMmio.DEVICE_MMIO_NAMED_ROM_INIT c 0 0xFED00000 0x1000 ∅) ∅ in
  exists dev',
    DeviceMmio.DEVICE_MMIO_NAMED_MAP k_mem_map 8 c dev 0 0x100000001
      = Some (dev', [DeviceMmio.mk_request 0xFED00000 0x1000 9])
    /\ DeviceMmio.DEVICE_MMIO_NAMED_GET c dev' 0%nat = Some 0x80000000.
Proof.
  cbn zeta.
  destruct (device_mmio_map_then_get (fun phys _ _ : Z => phys - 0x7ED00000) 8
              (DeviceMmio.mk_mmio_config true false 32)
              (DeviceMmio.mk_device
                 (DeviceMmio.DEVICE_MMIO_NAMED_ROM_INIT
                    (DeviceMmio.mk_mmio_config true false 32) 0 0xFED00000 0x1000 ∅) ∅)
              0%nat 1%nat 0xFED00000 0x1000 0x100000001
              ltac:(lia) ltac:(apply lookup_insert_eq))
    as (dev' & reqs & Hmap & Hget & Hreqs & _).
  exists dev'. subst reqs. split; [exact Hmap | exact Hget].
Defined.
